(** * Video assembly of the Reddit-stories pipeline

    A shallow embedding of [src/video_assembler.py] (class [VideoAssembler])
    together with the few lines of [src/pipeline.py] that call it, and the
    properties of the assembly stage stated over that embedding.

    Modelling conventions.
    - Python [float] values that are times (durations, start times) are
      modelled by exact rationals [Q]; equalities between times are stated
      with [==], and the rounding of sums of times is outside the model.
    - Where the rounding of a float decides a pixel count (the size of the
      character overlay, the fill of the frame), the computation is modelled
      in IEEE binary64 arithmetic, module [Binary64], over the Standard
      Library's [SpecFloat]; [Rounded._resize_and_crop] is
      [_resize_and_crop] in that arithmetic.  Pixel sizes are taken to be
      below 2 ** 53, so that they convert to floats exactly.
    - Python [int] values are [Z]; [int(x)] on a float truncates toward zero.
    - Python strings are sequences of characters; the model keeps their
      UTF-8 bytes, and [len] and slices count characters ([py_len],
      [py_prefix]).
    - Raised exceptions are values of [exn]; a method is a computation in the
      monad [M], which collects the externally visible effects (files opened,
      directories created, files written) and may end in an exception.
    - moviepy, [random] and [textwrap] are not part of the repository.  The
      fallible and environment dependent calls ([VideoFileClip],
      [AudioFileClip], [TextClip], [random.choice], [textwrap.fill],
      [write_videofile], ...) are fields of an environment record [Lib]; the
      clip transformers ([resize], [crop], [loop], [subclip], [set_start],
      [set_duration], ...) are pure functions on a record of clip attributes,
      following the moviepy 1.0 documentation.
    - [print] calls and the final [close()] calls are not modelled: they
      influence neither the returned value nor the written files. *)

From Stdlib Require Import ZArith QArith Qround Qminmax List String Bool Lia Lqa.
From Stdlib Require Import DecimalString Sorted.
From Stdlib Require SpecFloat.
From stdpp Require Import gmap strings.
Import ListNotations.

Local Open Scope Z_scope.
Local Open Scope Q_scope.

(** ** Python arithmetic *)

(** Python exceptions that the modelled code can raise, and the library calls
    that can raise on their own. *)
Inductive lib_call :=
| CallVideoFileClip (path : string)
| CallAudioFileClip (path : string)
| CallTextClip (method : string)
| CallCompositeAudioClip
| CallCompositeVideoClip
| CallWriteVideofile (path : string)
| CallGetFrame (path : string)
| CallSaveFrame (path : string).

Inductive exn :=
| ZeroDivisionError
| IndexError
| TypeError
| ValueError
| LibraryError (call : lib_call).

Definition Result (A : Type) : Type := (exn + A)%type.

(** [int(x)] for a float [x]: truncation toward zero. *)
Definition py_int (x : Q) : Z := Z.quot (Qnum x) (Zpos (Qden x)).

(** [a / b], true division; raises [ZeroDivisionError] for a zero divisor. *)
Definition py_div (a b : Q) : Result Q :=
  if Qeq_bool b 0 then inl ZeroDivisionError else inr (a / b).

(** [min(a, b)] on floats: Python returns [b] only when [b < a]. *)
Definition py_min (a b : Q) : Q :=
  match b ?= a with Lt => b | _ => a end.

(** [sum(xs)] over floats, starting from 0 and adding left to right. *)
Definition py_sum (xs : list Q) : Q := fold_left Qplus xs 0.

(** [l[i]] for a Python list: negative indexes count from the end, an index
    outside the list raises [IndexError]. *)
Definition py_getitem {A : Type} (l : list A) (i : Z) : Result A :=
  let n := Z.of_nat (List.length l) in
  let j := if Z.ltb i 0 then Z.add i n else i in
  if Z.ltb j 0 then inl IndexError
  else match nth_error l (Z.to_nat j) with
       | Some x => inr x
       | None => inl IndexError
       end.

(** Length of [seq[a:b]] for a sequence of length [n] (Python and numpy slice
    normalisation). *)
Definition slice_bound (n i : Z) : Z :=
  if Z.ltb i 0 then Z.max (Z.add i n) 0 else Z.min i n.

Definition slice_len (n a b : Z) : Z :=
  Z.max 0 (Z.sub (slice_bound n b) (slice_bound n a)).

(** ** Python floats in IEEE arithmetic *)

Module Binary64.

Definition float : Type := SpecFloat.spec_float.
Definition prec : Z := 53.
Definition emax : Z := 1024.

(** [float(n)] for an [int] [n]: exact below 2 ** 53. *)
Definition of_int (n : Z) : float := SpecFloat.binary_normalize prec emax n 0 false.

(** The float written as the decimal literal of value [q]: the nearest one. *)
Definition of_literal (q : Q) : float :=
  SpecFloat.SFdiv prec emax (of_int (Qnum q)) (of_int (Zpos (Qden q))).

Definition is_zero (x : float) : bool :=
  match x with
  | SpecFloat.S754_zero _ => true
  | _ => false
  end.

(** [a / b] where a float is involved: raises [ZeroDivisionError] for a zero
    divisor, else rounds to nearest, ties to even. *)
Definition div (a b : float) : Result float :=
  if is_zero b then inl ZeroDivisionError else inr (SpecFloat.SFdiv prec emax a b).

(** [a / b] for two [int]s: the quotient as a float. *)
Definition truediv (a b : Z) : Result float :=
  if Z.eqb b 0 then inl ZeroDivisionError
  else inr (SpecFloat.SFdiv prec emax (of_int a) (of_int b)).

(** [a * b] *)
Definition mul (a b : float) : float := SpecFloat.SFmul prec emax a b.

(** [a > b]; [False] when one of them is not a number. *)
Definition gt (a b : float) : bool := SpecFloat.SFltb b a.

(** [int(x)] for a finite [x]: truncation toward zero.  Infinities and NaN,
    on which [int] raises, do not arise from pixel sizes below 2 ** 53. *)
Definition to_int (x : float) : Z :=
  match x with
  | SpecFloat.S754_finite s m e =>
      let magnitude :=
        match e with
        | Z0 => Zpos m
        | Zpos p => (Zpos m * 2 ^ Zpos p)%Z
        | Zneg p => (Zpos m / 2 ^ Zpos p)%Z
        end in
      if s then (- magnitude)%Z else magnitude
  | _ => 0%Z
  end.

End Binary64.

(** ** Strings: characters *)

(** Whether a byte continues a character of more than one byte. *)
Definition is_continuation (c : Ascii.ascii) : bool :=
  match c with
  | Ascii.Ascii _ _ _ _ _ _ false true => true
  | _ => false
  end.

(** [len(s)]: the number of characters. *)
Fixpoint py_len (s : string) : nat :=
  match s with
  | EmptyString => O
  | String c rest => if is_continuation c then py_len rest else S (py_len rest)
  end.

(** [s[:n]]: the first [n] characters. *)
Fixpoint py_prefix (n : nat) (s : string) : string :=
  match s with
  | EmptyString => EmptyString
  | String c rest =>
      if is_continuation c then String c (py_prefix n rest)
      else match n with
           | O => EmptyString
           | S k => String c (py_prefix k rest)
           end
  end.

(** ** Strings: the line handling of [_create_text_clip] *)

Definition newline : string := String (Ascii.ascii_of_nat 10) EmptyString.

(** [s.split('\n')] *)
Fixpoint split_lines_aux (s : string) (cur : string) : list string :=
  match s with
  | EmptyString => [cur]
  | String c rest =>
      if Ascii.eqb c (Ascii.ascii_of_nat 10)
      then cur :: split_lines_aux rest EmptyString
      else split_lines_aux rest (cur ++ String c EmptyString)%string
  end.

Definition split_lines (s : string) : list string := split_lines_aux s EmptyString.

(** ['\n'.join(lines)] *)
Fixpoint join_lines (lines : list string) : string :=
  match lines with
  | [] => EmptyString
  | [l] => l
  | l :: rest => (l ++ newline ++ join_lines rest)%string
  end.

(** [lines[-1] += "..."] on a non-empty list. *)
Fixpoint append_to_last (lines : list string) (suffix : string) : list string :=
  match lines with
  | [] => []
  | [l] => [(l ++ suffix)%string]
  | l :: rest => l :: append_to_last rest suffix
  end.

(** ** Clips *)

(** Where the frames of a clip come from. *)
Inductive source :=
| SrcFile (path : string)
| SrcColor (r g b : Z)
| SrcText (text : string) (method : string)
| SrcFrame (path : option string) (t : Q).

Inductive coord :=
| CStr (s : string)
| CNum (q : Q).

Inductive position :=
| PosStr (s : string)
| PosPair (x y : coord).

Inductive op :=
| OpResize (w h : Z)
| OpCrop (x1 y1 x2 y2 : Z)
| OpLoop (n : Z)
| OpSubclip (t_start t_end : Q)
| OpMargin (left right top bottom : Z).

(** The attributes of a moviepy clip that the assembler reads or sets. *)
Record Clip := mkClip {
  clip_source : source;
  clip_ops : list op;              (* transformations applied, oldest first *)
  clip_size : Z * Z;               (* (w, h) *)
  clip_duration : option Q;        (* [None] until set, as for a TextClip *)
  clip_start : Q;
  clip_end : option Q;
  clip_pos : position;
  clip_fontsize : option Z;
  clip_color : option string;
  clip_has_audio : bool
}.

Record AudioClip := mkAudioClip {
  aclip_path : string;
  aclip_duration : Q;
  aclip_start : Q
}.

(** A composite clip as handed to [write_videofile] or [save_frame]. *)
Record Composite := mkComposite {
  comp_layers : list Clip;         (* bottom layer first *)
  comp_size : Z * Z;
  comp_audio : list AudioClip;
  comp_duration : option Q
}.

(** ** Effects *)

(** Externally visible effects of the assembly stage. *)
Inductive event :=
| EvOpen (path : string)
| EvMkdirParent (path : string)   (* [path.parent.mkdir(parents=True, exist_ok=True)] *)
| EvWriteVideo (path : string) (video : Composite) (fps : Z)   (* a completed export *)
| EvSaveFrame (path : string) (frame : Composite).   (* a completed save *)

(** A computation yields a value or an exception, and the effects it
    performed, oldest first.  Effects performed before an exception stay. *)
Definition M (A : Type) : Type := (Result A * list event)%type.

Definition ret {A : Type} (a : A) : M A := (inr a, []).

Definition bind {A B : Type} (m : M A) (f : A -> M B) : M B :=
  match m with
  | (inl e, t) => (inl e, t)
  | (inr a, t) => let (r, t') := f a in (r, (t ++ t')%list)
  end.

Definition raise {A : Type} (e : exn) : M A := (inl e, []).

Definition lift {A : Type} (r : Result A) : M A := (r, []).

Definition emit (ev : event) : M unit := (inr tt, [ev]).

(** [try: body except Exception as e: handler e] *)
Definition try_except {A : Type} (body : M A) (handler : exn -> M A) : M A :=
  match body with
  | (inl e, t) => let (r, t') := handler e in (r, (t ++ t')%list)
  | (inr a, t) => (inr a, t)
  end.

Definition result {A : Type} (m : M A) : Result A := fst m.
Definition effects {A : Type} (m : M A) : list event := snd m.

Declare Scope py_scope.
Delimit Scope py_scope with py.
Notation "x <- c ;; k" := (bind c (fun x => k))
  (at level 100, c at next level, right associativity) : py_scope.
Notation "c ;;; k" := (bind c (fun _ => k))
  (at level 100, right associativity) : py_scope.
Local Open Scope py_scope.

(** [for x in xs: st = body st x], stopping at the first exception. *)
Fixpoint for_each {S A : Type} (body : S -> A -> M S) (xs : list A) (st : S) : M S :=
  match xs with
  | [] => ret st
  | x :: rest => st' <- body st x ;; for_each body rest st'
  end.

(** ** Data model *)

(** [script_generator.ScriptSegment] *)
Module ScriptSegment.
Record t := mk {
  type : string;                 (* "intro", "story", "commentary", "outro" *)
  voice : string;                (* "narrator" or "commentator" *)
  text : string;
  display_text : option string
}.
End ScriptSegment.

(** [script_generator.GeneratedScript] *)
Module GeneratedScript.
Record t := mk {
  story_id : string;
  title : string;
  subreddit : string;
  segments : list ScriptSegment.t;
  video_title : string;
  video_description : string;
  tags : list string
}.
End GeneratedScript.

(** [audio_generator.AudioSegment] *)
Module AudioSegment.
Record t := mk {
  segment_index : Z;
  segment_type : string;
  voice : string;
  text : string;
  audio_path : string;
  duration : Q                   (* seconds *)
}.
End AudioSegment.

(** [character_generator.CharacterVideo] *)
Module CharacterVideo.
Record t := mk {
  segment_index : Z;
  audio_path : string;
  video_path : string;
  duration : Q
}.
End CharacterVideo.

(** The constants of [config.py] that the assembler reads. *)
Module config.
Definition VIDEO_WIDTH : Z := 1080.
Definition VIDEO_HEIGHT : Z := 1920.
Definition VIDEO_FPS : Z := 30.
Definition FONT_PATH : string := "C:/Windows/Fonts/arial.ttf".
Definition FONT_SIZE_TITLE : Z := 48.
Definition FONT_SIZE_STORY : Z := 36.
Definition FONT_SIZE_COMMENTARY : Z := 32.
Definition TEXT_STROKE_COLOR : string := "black".
Definition TEXT_STROKE_WIDTH : Z := 2.
Definition CHARACTER_POSITION : string := "bottom_right".
Definition CHARACTER_SIZE : Q := 35 # 100.
End config.

(** [video_assembler.VideoConfig] *)
Module VideoConfig.
Record t := mk {
  width : Z;
  height : Z;
  fps : Z;
  font : string;
  title_font_size : Z;
  story_font_size : Z;
  commentary_font_size : Z
}.

Definition default : t :=
  mk config.VIDEO_WIDTH config.VIDEO_HEIGHT config.VIDEO_FPS config.FONT_PATH
     config.FONT_SIZE_TITLE config.FONT_SIZE_STORY config.FONT_SIZE_COMMENTARY.
End VideoConfig.

(** The state of a [VideoAssembler] object: its configuration and the list
    returned by [_load_background_videos] when it was constructed. *)
Module VideoAssembler.
Record t := mk {
  config : VideoConfig.t;
  background_videos : list string
}.
End VideoAssembler.

(** ** The library environment *)

(** What a successfully opened video file reports. *)
Record VideoFile := mkVideoFile {
  vf_size : Z * Z;
  vf_duration : Q;
  vf_has_audio : bool
}.

(** Keyword arguments of [TextClip(...)]. *)
Record TextClipArgs := mkTextClipArgs {
  tc_txt : string;
  tc_fontsize : Z;
  tc_color : string;
  tc_font : option string;
  tc_stroke_color : option string;
  tc_stroke_width : option Z;
  tc_bg_color : option string;
  tc_method : string;
  tc_size : option (Z * option Z);
  tc_align : option string
}.

(** The calls whose outcome is decided outside the repository.  An [option]
    or [bool] result of [None] / [false] means that the call raises. *)
Record Lib := mkLib {
  lib_VideoFileClip : string -> option VideoFile;
  lib_AudioFileClip : string -> option Q;
  lib_TextClip : TextClipArgs -> option (Z * Z);
  lib_random : nat;
  lib_textwrap_fill : string -> Z -> string;
  lib_CompositeAudioClip : list AudioClip -> bool;
  lib_CompositeVideoClip : list Clip -> bool;
  lib_write_videofile : string -> Composite -> bool;
  lib_get_frame : string -> Q -> bool;
  lib_save_frame : string -> Composite -> bool
}.

(** ** Clip transformers (moviepy) *)

Definition default_pos : position := PosPair (CNum 0) (CNum 0).

Definition clip_w (c : Clip) : Z := fst (clip_size c).
Definition clip_h (c : Clip) : Z := snd (clip_size c).

Definition with_op (o : op) (c : Clip) : Clip :=
  mkClip (clip_source c) (clip_ops c ++ [o]) (clip_size c) (clip_duration c)
         (clip_start c) (clip_end c) (clip_pos c) (clip_fontsize c)
         (clip_color c) (clip_has_audio c).

Definition with_size (sz : Z * Z) (c : Clip) : Clip :=
  mkClip (clip_source c) (clip_ops c) sz (clip_duration c)
         (clip_start c) (clip_end c) (clip_pos c) (clip_fontsize c)
         (clip_color c) (clip_has_audio c).

Definition with_timing (d : option Q) (s : Q) (e : option Q) (c : Clip) : Clip :=
  mkClip (clip_source c) (clip_ops c) (clip_size c) d s e (clip_pos c)
         (clip_fontsize c) (clip_color c) (clip_has_audio c).

(** [clip.set_start(t)] *)
Definition set_start (t : Q) (c : Clip) : Clip :=
  match clip_duration c with
  | Some d => with_timing (Some d) t (Some (t + d)) c
  | None =>
      match clip_end c with
      | Some e => with_timing (Some (e - t)) t (Some e) c
      | None => with_timing None t None c
      end
  end.

(** [clip.set_duration(d)] *)
Definition set_duration (d : Q) (c : Clip) : Clip :=
  with_timing (Some d) (clip_start c) (Some (clip_start c + d)) c.

(** [clip.set_position(pos)] *)
Definition set_position (p : position) (c : Clip) : Clip :=
  mkClip (clip_source c) (clip_ops c) (clip_size c) (clip_duration c)
         (clip_start c) (clip_end c) p (clip_fontsize c)
         (clip_color c) (clip_has_audio c).

(** [clip.without_audio()] *)
Definition without_audio (c : Clip) : Clip :=
  mkClip (clip_source c) (clip_ops c) (clip_size c) (clip_duration c)
         (clip_start c) (clip_end c) (clip_pos c) (clip_fontsize c)
         (clip_color c) false.

(** [clip.resize((w, h))] *)
Definition resize_to (w h : Z) (c : Clip) : Clip :=
  with_size (w, h) (with_op (OpResize w h) c).

(** [clip.resize(height=H)]: the width follows the aspect ratio,
    [newsize = [w * H / h, H]], truncated to ints by the resizer. *)
Definition resize_height (H : Z) (c : Clip) : Result Clip :=
  match py_div (inject_Z (clip_w c * H)) (inject_Z (clip_h c)) with
  | inl e => inl e
  | inr nw => inr (resize_to (py_int nw) H c)
  end.

(** [clip.resize(width=W)]: [newsize = [W, h * W / w]]. *)
Definition resize_width (W : Z) (c : Clip) : Result Clip :=
  match py_div (inject_Z (clip_h c * W)) (inject_Z (clip_w c)) with
  | inl e => inl e
  | inr nh => inr (resize_to W (py_int nh) c)
  end.

(** [a or b] where [a] is an optional float: [None] and [0.0] are falsy. *)
Definition or_default (a : option Q) (b : Q) : Q :=
  match a with
  | Some x => if Qeq_bool x 0 then b else x
  | None => b
  end.

(** [clip.crop(x1=.., y1=.., x2=.., y2=..)]: every frame becomes
    [pic[int(y1):int(y2), int(x1):int(x2)]]. *)
Definition crop (x1 y1 x2 y2 : option Q) (c : Clip) : Clip :=
  let w := clip_w c in
  let h := clip_h c in
  let ix1 := py_int (or_default x1 0) in
  let iy1 := py_int (or_default y1 0) in
  let ix2 := py_int (or_default x2 (inject_Z w)) in
  let iy2 := py_int (or_default y2 (inject_Z h)) in
  with_size (slice_len w ix1 ix2, slice_len h iy1 iy2)
            (with_op (OpCrop ix1 iy1 ix2 iy2) c).

(** [clip.loop(n=n)]: the clip repeated, lasting [n * clip.duration]. *)
Definition loop (n : Z) (c : Clip) : Result Clip :=
  if Z.eqb n 0 then inr (with_timing None (clip_start c) None (with_op (OpLoop n) c))
  else match clip_duration c with
       | None => inl TypeError
       | Some s =>
           let d := inject_Z n * s in
           inr (with_timing (Some d) (clip_start c) (Some (clip_start c + d))
                            (with_op (OpLoop n) c))
       end.

(** [clip.subclip(0, t_end)]: a negative end counts from the end of the clip. *)
Definition subclip0 (t_end : Q) (c : Clip) : Clip :=
  let t_end' :=
    match t_end ?= 0, clip_duration c with
    | Lt, Some d => d + t_end
    | _, _ => t_end
    end in
  with_timing (Some (t_end' - 0)) (clip_start c) (Some (clip_start c + (t_end' - 0)))
              (with_op (OpSubclip 0 t_end') c).

(** [badge.margin(left=.., right=.., top=.., bottom=..)] *)
Definition margin (l r t b : Z) (c : Clip) : Clip :=
  with_size ((clip_w c + l + r)%Z, (clip_h c + t + b)%Z)
            (with_op (OpMargin l r t b) c).

(** [ColorClip(size=.., color=.., duration=..)] *)
Definition ColorClip (size : Z * Z) (r g b : Z) (d : Q) : Clip :=
  mkClip (SrcColor r g b) [] size (Some d) 0 (Some (0 + d)) default_pos None None false.

(** ** [class VideoAssembler] *)

(** The styling chosen by [_create_text_clip] for a caption. *)
Record Style := mkStyle {
  font_size : Z;
  color : string;
  position_ : position;
  max_width : Z                    (* characters per line *)
}.

(** State of the segment loop of [assemble_video]. *)
Record LoopState := mkLoopState {
  audio_clips : list AudioClip;
  text_clips : list Clip;
  character_clips : list Clip;
  current_time : Q
}.

Definition gap_duration : Q := 3 # 10.   (* seconds *)

Section Methods.
Variable lib : Lib.
Variable self : VideoAssembler.t.

Let width : Z := VideoConfig.width (VideoAssembler.config self).
Let height : Z := VideoConfig.height (VideoAssembler.config self).

(** [VideoFileClip(str(path))] *)
Definition VideoFileClip (path : string) : M Clip :=
  match lib_VideoFileClip lib path with
  | None => raise (LibraryError (CallVideoFileClip path))
  | Some vf =>
      emit (EvOpen path) ;;;
      ret (mkClip (SrcFile path) [] (vf_size vf) (Some (vf_duration vf)) 0
                  (Some (0 + vf_duration vf)) default_pos None None (vf_has_audio vf))
  end.

(** [AudioFileClip(str(path))] *)
Definition AudioFileClip (path : string) : M AudioClip :=
  match lib_AudioFileClip lib path with
  | None => raise (LibraryError (CallAudioFileClip path))
  | Some d => emit (EvOpen path) ;;; ret (mkAudioClip path d 0)
  end.

(** [TextClip(txt, ...)]: no duration until one is set. *)
Definition TextClip (args : TextClipArgs) : M Clip :=
  match lib_TextClip lib args with
  | None => raise (LibraryError (CallTextClip (tc_method args)))
  | Some sz =>
      ret (mkClip (SrcText (tc_txt args) (tc_method args)) [] sz None 0 None
                  default_pos (Some (tc_fontsize args)) (Some (tc_color args)) false)
  end.

(** [random.choice(seq)] *)
Definition random_choice (seq : list string) : M string :=
  match nth_error seq (lib_random lib mod List.length seq)%nat with
  | Some x => ret x
  | None => raise IndexError
  end.

(** [_resize_and_crop]: resize and crop a clip to the target dimensions. *)
Definition _resize_and_crop (clip : Clip) : M Clip :=
  target_ratio <- lift (py_div (inject_Z width) (inject_Z height)) ;;
  clip_ratio <- lift (py_div (inject_Z (clip_w clip)) (inject_Z (clip_h clip))) ;;
  match clip_ratio ?= target_ratio with
  | Gt =>
      (* Clip is wider - resize by height, crop width *)
      let new_height := height in
      let new_width := py_int (clip_ratio * inject_Z new_height) in
      clip <- lift (resize_height new_height clip) ;;
      let x_center := inject_Z new_width / 2 in
      let x1 := x_center - inject_Z width / 2 in
      ret (crop (Some x1) None (Some (x1 + inject_Z width)) None clip)
  | _ =>
      (* Clip is taller - resize by width, crop height *)
      let new_width := width in
      new_height_f <- lift (py_div (inject_Z new_width) clip_ratio) ;;
      let new_height := py_int new_height_f in
      clip <- lift (resize_width new_width clip) ;;
      let y_center := inject_Z new_height / 2 in
      let y1 := y_center - inject_Z height / 2 in
      ret (crop None (Some y1) None (Some (y1 + inject_Z height)) clip)
  end.

(** The "loop if needed" step of [_get_background_clip]. *)
Definition loop_if_needed (duration : Q) (clip : Clip) : M Clip :=
  match clip_duration clip with
  | None => raise TypeError
  | Some s =>
      match s ?= duration with
      | Lt =>
          q <- lift (py_div duration s) ;;
          let loops_needed := (py_int q + 1)%Z in
          lift (loop loops_needed clip)
      | _ => ret clip
      end
  end.

(** [_get_background_clip]: a background clip of the required duration. *)
Definition _get_background_clip (duration : Q) : M Clip :=
  match VideoAssembler.background_videos self with
  | [] =>
      (* Fallback: a solid color background *)
      ret (ColorClip (width, height) 30 30 40 duration)
  | _ =>
      bg_path <- random_choice (VideoAssembler.background_videos self) ;;
      clip <- VideoFileClip bg_path ;;
      clip <- _resize_and_crop clip ;;
      clip <- loop_if_needed duration clip ;;
      (* Trim to exact duration *)
      ret (subclip0 duration clip)
  end.

(** The styling decision at the head of [_create_text_clip]. *)
Definition caption_style (segment_type voice : string) : Style :=
  if (segment_type =? "intro")%string || (segment_type =? "outro")%string then
    mkStyle (VideoConfig.title_font_size (VideoAssembler.config self)) "white"
            (PosPair (CStr "center") (CStr "center")) 30
  else if (voice =? "commentator")%string then
    mkStyle (VideoConfig.commentary_font_size (VideoAssembler.config self)) "#FFD700"
            (PosPair (CStr "center") (CNum (inject_Z height * (75 # 100)))) 35
  else
    mkStyle (VideoConfig.story_font_size (VideoAssembler.config self)) "white"
            (PosPair (CStr "center") (CStr "center")) 35.

(** Wrapping of the caption and truncation to 8 lines. *)
Definition wrap_text (text : string) (max_width : Z) : string :=
  let wrapped_text := lib_textwrap_fill lib text max_width in
  let lines := split_lines wrapped_text in
  if (8 <? Z.of_nat (List.length lines))%Z
  then join_lines (append_to_last (firstn 8 lines) "...")
  else wrapped_text.

(** [_create_text_clip]: a text overlay clip; when the styled rendering
    raises, a plain label is rendered instead. *)
Definition _create_text_clip (text : string) (duration : Q)
    (segment_type voice : string) : M Clip :=
  let st := caption_style segment_type voice in
  let wrapped_text := wrap_text text (max_width st) in
  try_except
    (txt_clip <- TextClip
        (mkTextClipArgs wrapped_text (font_size st) (color st)
           (Some (VideoConfig.font (VideoAssembler.config self)))
           (Some config.TEXT_STROKE_COLOR) (Some config.TEXT_STROKE_WIDTH) None
           "caption" (Some ((width - 80)%Z, None)) (Some "center"%string)) ;;
     let txt_clip := set_duration duration txt_clip in
     let txt_clip := set_position (position_ st) txt_clip in
     ret txt_clip)
    (fun _ =>
       (* Fallback without fancy styling *)
       txt_clip <- TextClip
          (mkTextClipArgs wrapped_text (font_size st) (color st)
             None None None None "label" None None) ;;
       let txt_clip := set_duration duration txt_clip in
       let txt_clip := set_position (PosStr "center") txt_clip in
       ret txt_clip).

(** [_create_subreddit_badge]: [None] when the badge cannot be rendered. *)
Definition _create_subreddit_badge (subreddit : string) (duration : Q)
    : M (option Clip) :=
  let badge_text := ("r/" ++ subreddit)%string in
  try_except
    (badge <- TextClip
        (mkTextClipArgs badge_text 28 "white"
           (Some (VideoConfig.font (VideoAssembler.config self)))
           None None (Some "#FF4500"%string) "label" None None) ;;
     let badge := set_duration duration badge in
     let badge := set_position (PosPair (CNum 20) (CNum 20)) badge in
     let badge := margin 10 10 5 5 badge in
     ret (Some badge))
    (fun _ => ret None).

(** [_get_character_position]: the anchor chosen by [config.CHARACTER_POSITION]. *)
Definition _get_character_position (char_clip_size : Z * Z) : Z * Z :=
  let '(char_w, char_h) := char_clip_size in
  let margin := 20%Z in     (* pixels from edge *)
  let positions : gmap string (Z * Z) :=
    list_to_map
      [ ("bottom_right"%string, (width - char_w - margin, height - char_h - margin)%Z);
        ("bottom_left"%string, (margin, height - char_h - margin)%Z);
        ("top_right"%string, (width - char_w - margin, margin + 60)%Z);
        ("top_left"%string, (margin + 200, margin)%Z);
        ("center_bottom"%string, ((width - char_w) `div` 2, height - char_h - margin)%Z) ] in
  default (positions !!! "bottom_right"%string) (positions !! config.CHARACTER_POSITION).

(** [_create_character_clip]: a positioned character clip, or [None] when
    anything in its construction raises. *)
Definition _create_character_clip (character_video_path : string)
    (duration start_time : Q) : M (option Clip) :=
  try_except
    (char_clip <- VideoFileClip character_video_path ;;
     (* target size: a fraction of the video width *)
     let target_width :=
       Binary64.to_int (Binary64.mul (Binary64.of_int width)
                          (Binary64.of_literal config.CHARACTER_SIZE)) in
     scale_factor <- lift (Binary64.truediv target_width (clip_w char_clip)) ;;
     let target_height :=
       Binary64.to_int (Binary64.mul (Binary64.of_int (clip_h char_clip)) scale_factor) in
     let char_clip := resize_to target_width target_height char_clip in
     (* timing *)
     let char_clip := set_start start_time char_clip in
     native <- match clip_duration char_clip with
               | Some d => ret d
               | None => raise TypeError
               end ;;
     let char_clip := set_duration (py_min native duration) char_clip in
     let '(x, y) := _get_character_position (target_width, target_height) in
     let char_clip := set_position (PosPair (CNum (inject_Z x)) (CNum (inject_Z y))) char_clip in
     (* remove audio: the narration track is used *)
     let char_clip := without_audio char_clip in
     ret (Some char_clip))
    (fun _ => ret None).

(** [CompositeAudioClip(clips)] *)
Definition CompositeAudioClip (clips : list AudioClip) : M (list AudioClip) :=
  match clips with
  | [] => raise ValueError     (* the constructor takes [max] over the clips *)
  | _ =>
      if lib_CompositeAudioClip lib clips then ret clips
      else raise (LibraryError CallCompositeAudioClip)
  end.

(** [CompositeVideoClip(clips, size=size)] *)
Definition CompositeVideoClip (clips : list Clip) (size : Z * Z) : M Composite :=
  if lib_CompositeVideoClip lib clips then ret (mkComposite clips size [] None)
  else raise (LibraryError CallCompositeVideoClip).

(** [video.write_videofile(str(path), fps=fps, ...)] *)
Definition write_videofile (path : string) (video : Composite) (fps : Z) : M unit :=
  if lib_write_videofile lib path video then emit (EvWriteVideo path video fps)
  else raise (LibraryError (CallWriteVideofile path)).

(** The index of character videos by segment index built by
    [assemble_video]: later entries replace earlier ones. *)
Definition build_char_video_map (character_videos : option (list CharacterVideo.t))
    : gmap Z CharacterVideo.t :=
  match character_videos with
  | Some cvs =>
      fold_left (fun m cv => <[CharacterVideo.segment_index cv := cv]> m) cvs ∅
  | None => ∅
  end.

(** The character overlay part of the loop body. *)
Definition add_character_clip (char_video_map : gmap Z CharacterVideo.t)
    (audio_seg : AudioSegment.t) (current_time : Q) (character_clips : list Clip)
    : M (list Clip) :=
  match char_video_map !! AudioSegment.segment_index audio_seg with
  | Some char_vid =>
      char_clip <- _create_character_clip (CharacterVideo.video_path char_vid)
                     (AudioSegment.duration audio_seg) current_time ;;
      match char_clip with
      | Some c => ret (character_clips ++ [c])
      | None => ret character_clips
      end
  | None => ret character_clips
  end.

(** [script_seg.display_text or script_seg.text]: [None] and the empty string
    are falsy. *)
Definition shown_text (script_seg : ScriptSegment.t) : string :=
  match ScriptSegment.display_text script_seg with
  | Some s => if (s =? "")%string then ScriptSegment.text script_seg else s
  | None => ScriptSegment.text script_seg
  end.

(** The body of [for i, audio_seg in enumerate(audio_segments)]. *)
Definition assemble_segment (script : GeneratedScript.t)
    (char_video_map : gmap Z CharacterVideo.t)
    (st : LoopState) (audio_seg : AudioSegment.t) : M LoopState :=
  script_seg <- lift (py_getitem (GeneratedScript.segments script)
                                 (AudioSegment.segment_index audio_seg)) ;;
  (* Load audio *)
  audio_clip <- AudioFileClip (AudioSegment.audio_path audio_seg) ;;
  let audio_clip :=
    mkAudioClip (aclip_path audio_clip) (aclip_duration audio_clip) (current_time st) in
  let audio_clips' := audio_clips st ++ [audio_clip] in
  (* Create text overlay *)
  text_clip <- _create_text_clip (shown_text script_seg) (AudioSegment.duration audio_seg)
                 (ScriptSegment.type script_seg) (ScriptSegment.voice script_seg) ;;
  let text_clip := set_start (current_time st) text_clip in
  let text_clips' := text_clips st ++ [text_clip] in
  (* Add character video if available for this segment *)
  character_clips' <- add_character_clip char_video_map audio_seg (current_time st)
                        (character_clips st) ;;
  ret (mkLoopState audio_clips' text_clips' character_clips'
         (current_time st + (AudioSegment.duration audio_seg + gap_duration))).

(** [total_duration] as computed at the head of [assemble_video]. *)
Definition total_duration (audio_segments : list AudioSegment.t) : Q :=
  let total := py_sum (map AudioSegment.duration audio_segments) in
  total + gap_duration * inject_Z (Z.of_nat (List.length audio_segments) - 1).

Definition initial_state : LoopState := mkLoopState [] [] [] 0.

(** [assemble_video]: assemble the final video with optional character
    overlays. *)
Definition assemble_video (script : GeneratedScript.t)
    (audio_segments : list AudioSegment.t) (output_path : string)
    (character_videos : option (list CharacterVideo.t)) : M bool :=
  let total := total_duration audio_segments in
  (* Get background footage *)
  background <- _get_background_clip total ;;
  (* Build index of character videos by segment index *)
  let char_video_map := build_char_video_map character_videos in
  (* Create audio and text clips *)
  st <- for_each (assemble_segment script char_video_map) audio_segments initial_state ;;
  (* Subreddit badge, persistent throughout the video *)
  badge <- _create_subreddit_badge (GeneratedScript.subreddit script) total ;;
  let text_clips' :=
    match badge with
    | Some b => b :: text_clips st
    | None => text_clips st
    end in
  (* Combine audio *)
  final_audio <- CompositeAudioClip (audio_clips st) ;;
  (* Layer order: background -> character -> text overlays *)
  let all_clips := [background] ++ character_clips st ++ text_clips' in
  final_video <- CompositeVideoClip all_clips (width, height) ;;
  let final_video :=
    mkComposite (comp_layers final_video) (comp_size final_video) final_audio (Some total) in
  (* Export *)
  emit (EvMkdirParent output_path) ;;;
  write_videofile output_path final_video (VideoConfig.fps (VideoAssembler.config self)) ;;;
  ret true.

(** [clip.get_frame(t)] wrapped into [ImageClip(frame)]. *)
Definition get_frame_image (path : string) (clip : Clip) (t : Q) : M Clip :=
  if lib_get_frame lib path t
  then ret (mkClip (SrcFrame (Some path) t) (clip_ops clip) (clip_size clip) None 0 None
                   default_pos None None false)
  else raise (LibraryError (CallGetFrame path)).

(** [thumbnail.save_frame(str(path), t=0)] *)
Definition save_frame (path : string) (frame : Composite) : M unit :=
  if lib_save_frame lib path frame then emit (EvSaveFrame path frame)
  else raise (LibraryError (CallSaveFrame path)).

(** [create_thumbnail]: a thumbnail image for the video. *)
Definition create_thumbnail (script : GeneratedScript.t) (output_path : string) : M bool :=
  (* First frame of background with title overlay *)
  bg_image <-
    match VideoAssembler.background_videos self with
    | [] =>
        (* Solid color fallback *)
        ret (mkClip (SrcColor 30 30 40) [] (width, height) None 0 None default_pos
                    None None false)
    | _ =>
        bg_path <- random_choice (VideoAssembler.background_videos self) ;;
        bg_clip <- VideoFileClip bg_path ;;
        bg_clip <- _resize_and_crop bg_clip ;;
        get_frame_image bg_path bg_clip 1     (* frame at 1 second *)
    end ;;
  (* Title text *)
  let title := GeneratedScript.title script in
  let title_text :=
    if (50 <? Z.of_nat (py_len title))%Z
    then (py_prefix 50 title ++ "...")%string
    else title in
  let wrapped_title := lib_textwrap_fill lib title_text 20 in
  try_except
    (title_clip <- TextClip
        (mkTextClipArgs wrapped_title 60 "white"
           (Some (VideoConfig.font (VideoAssembler.config self)))
           (Some "black"%string) (Some 3%Z) None "caption"
           (Some ((width - 100)%Z, None)) (Some "center"%string)) ;;
     let title_clip := set_position (PosStr "center") title_clip in
     (* Subreddit badge *)
     badge <- TextClip
        (mkTextClipArgs ("r/" ++ GeneratedScript.subreddit script)%string 40 "white"
           None None None (Some "#FF4500"%string) "label" None None) ;;
     let badge := set_position (PosPair (CNum 50) (CNum 50)) badge in
     (* Composite *)
     thumbnail <- CompositeVideoClip [bg_image; title_clip; badge] (width, height) ;;
     (* Save *)
     emit (EvMkdirParent output_path) ;;;
     save_frame output_path thumbnail ;;;
     ret true)
    (fun _ => ret false).

End Methods.

(** ** [_resize_and_crop] with the rounding of floats

    The two ratios, their comparison and the products and quotients that are
    cut to pixel counts are computed in binary64.  The halves [new_width / 2],
    [self.config.width / 2] and the bounds of the crop are halves of
    integers, which floats hold exactly, so they stay in [Q]; [resize] and
    [crop] are the transformers used above. *)
Module Rounded.

(** [_resize_and_crop]: resize and crop a clip to the target dimensions. *)
Definition _resize_and_crop (self : VideoAssembler.t) (clip : Clip) : M Clip :=
  let width := VideoConfig.width (VideoAssembler.config self) in
  let height := VideoConfig.height (VideoAssembler.config self) in
  target_ratio <- lift (Binary64.truediv width height) ;;
  clip_ratio <- lift (Binary64.truediv (clip_w clip) (clip_h clip)) ;;
  if Binary64.gt clip_ratio target_ratio then
    (* Clip is wider - resize by height, crop width *)
    let new_height := height in
    let new_width := Binary64.to_int (Binary64.mul clip_ratio (Binary64.of_int new_height)) in
    clip <- lift (resize_height new_height clip) ;;
    let x_center := inject_Z new_width / 2 in
    let x1 := x_center - inject_Z width / 2 in
    ret (crop (Some x1) None (Some (x1 + inject_Z width)) None clip)
  else
    (* Clip is taller - resize by width, crop height *)
    let new_width := width in
    new_height_f <- lift (Binary64.div (Binary64.of_int new_width) clip_ratio) ;;
    let new_height := Binary64.to_int new_height_f in
    clip <- lift (resize_width new_width clip) ;;
    let y_center := inject_Z new_height / 2 in
    let y1 := y_center - inject_Z height / 2 in
    ret (crop None (Some y1) None (Some (y1 + inject_Z height)) clip).

End Rounded.

(** ** The caller: [RedditStoriesPipeline.run] in [pipeline.py] *)

Module pipeline.

(** How the steps from the audio check to the assembly call end. *)
Inductive outcome :=
| Returned (errors : list string)      (* [return results] with these errors appended *)
| Assembled (video_path : string).     (* [results['video_path']] is set, the method goes on *)

(** Steps 3 to 5 of [run] once [generate_all_audio] has returned: the
    check of the audio list and the assembly call.  The character videos
    of step 4 are taken as given. *)
Definition run_assembly (lib : Lib) (video_assembler : VideoAssembler.t)
    (script : GeneratedScript.t) (audio_segments : list AudioSegment.t)
    (character_videos : option (list CharacterVideo.t)) (video_path : string)
    : M outcome :=
  match audio_segments with
  | [] => ret (Returned ["Audio generation failed"%string])
  | _ =>
      success <- assemble_video lib video_assembler script audio_segments
                   video_path character_videos ;;
      if success then ret (Assembled video_path)
      else ret (Returned ["Video assembly failed"%string])
  end.

End pipeline.

(** ** Vocabulary of the properties *)

(** Whether a completed video export is among the effects. *)
Definition is_write (ev : event) : bool :=
  match ev with
  | EvWriteVideo _ _ _ => true
  | _ => false
  end.

Definition wrote_video (evs : list event) : bool := existsb is_write evs.

(** A run aborts: it ends in an exception and no video was exported. *)
Definition aborts {A : Type} (m : M A) : Prop :=
  (exists e, result m = inl e) /\ wrote_video (effects m) = false.

(** The spec's sum of durations, by recursion on the sequence. *)
Fixpoint sigma (ds : list Q) : Q :=
  match ds with
  | [] => 0
  | d :: rest => d + sigma rest
  end.

(** The spec's Timeline: a segment starts when the previous one has ended
    and one gap has passed. *)
Fixpoint timeline_from (t0 : Q) (ds : list Q) : list Q :=
  match ds with
  | [] => []
  | d :: rest => t0 :: timeline_from (t0 + (d + gap_duration)) rest
  end.

(** The last entry of a list of character videos that refers to segment [k]. *)
Fixpoint last_for_segment (k : Z) (cvs : list CharacterVideo.t) : option CharacterVideo.t :=
  match cvs with
  | [] => None
  | cv :: rest =>
      match last_for_segment k rest with
      | Some later => Some later
      | None => if Z.eqb (CharacterVideo.segment_index cv) k then Some cv else None
      end
  end.

(** ** Concrete environments used in the examples *)

Module Examples.
Local Open Scope string_scope.

(** A library in which every call succeeds: "bg.mp4" is a 10 s landscape
    video, "char.mp4" a 2.5 s square one. *)
Definition lib_ok : Lib :=
  mkLib (fun p => if p =? "bg.mp4" then Some (mkVideoFile (1920, 1080)%Z 10 true)
                  else if p =? "char.mp4" then Some (mkVideoFile (512, 512)%Z (5 # 2) true)
                  else None)
        (fun _ => Some 1)
        (fun _ => Some (1000, 200)%Z)
        0
        (fun s _ => s)
        (fun clips => match clips with [] => false | _ => true end)
        (fun _ => true) (fun _ _ => true) (fun _ _ => true)
        (fun _ _ => true).

(** The same library when no video file can be opened. *)
Definition lib_no_video : Lib :=
  mkLib (fun _ => None) (lib_AudioFileClip lib_ok) (lib_TextClip lib_ok)
        (lib_random lib_ok) (lib_textwrap_fill lib_ok)
        (lib_CompositeAudioClip lib_ok) (lib_CompositeVideoClip lib_ok)
        (lib_write_videofile lib_ok) (lib_get_frame lib_ok) (lib_save_frame lib_ok).

(** The same library when no text can be rendered. *)
Definition lib_no_text : Lib :=
  mkLib (lib_VideoFileClip lib_ok) (lib_AudioFileClip lib_ok) (fun _ => None)
        (lib_random lib_ok) (lib_textwrap_fill lib_ok)
        (lib_CompositeAudioClip lib_ok) (lib_CompositeVideoClip lib_ok)
        (lib_write_videofile lib_ok) (lib_get_frame lib_ok) (lib_save_frame lib_ok).

(** The same library when only the styled (method "caption") rendering of a
    text fails. *)
Definition lib_no_caption : Lib :=
  mkLib (lib_VideoFileClip lib_ok) (lib_AudioFileClip lib_ok)
        (fun args => if tc_method args =? "caption" then None else Some (400, 100)%Z)
        (lib_random lib_ok) (lib_textwrap_fill lib_ok)
        (lib_CompositeAudioClip lib_ok) (lib_CompositeVideoClip lib_ok)
        (lib_write_videofile lib_ok) (lib_get_frame lib_ok) (lib_save_frame lib_ok).

Definition assembler_plain : VideoAssembler.t :=
  VideoAssembler.mk VideoConfig.default [].

Definition assembler_bg : VideoAssembler.t :=
  VideoAssembler.mk VideoConfig.default ["bg.mp4"].

Definition script3 : GeneratedScript.t :=
  GeneratedScript.mk "abc" "A title" "tifu"
    [ ScriptSegment.mk "intro" "narrator" "Welcome" None;
      ScriptSegment.mk "story" "narrator" "Once" None;
      ScriptSegment.mk "commentary" "commentator" "Wow" None ]
    "Video title" "Description" [].

Definition audio0 := AudioSegment.mk 0 "intro" "narrator" "Welcome" "seg0.mp3" 3.
Definition audio1 := AudioSegment.mk 1 "story" "narrator" "Once" "seg1.mp3" 5.
Definition audio2 := AudioSegment.mk 2 "commentary" "commentator" "Wow" "seg2.mp3" 4.

Definition char2 := CharacterVideo.mk 2 "seg2.mp3" "char.mp4" 4.
Definition char2_old := CharacterVideo.mk 2 "seg2.mp3" "old.mp4" 4.

Definition landscape : Clip :=
  mkClip (SrcFile "bg.mp4") [] (1920, 1080)%Z (Some 10) 0 (Some 10) default_pos
         None None true.
End Examples.

(** ** Upstream stages: [audio_generator.py] and [character_generator.py]

    The two stages that produce the inputs of [assemble_video].  The network
    calls, the duration probe and the video generators are fields of
    environment records; their file system effects are not tracked. *)

Fixpoint repeat_string (s : string) (n : nat) : string :=
  match n with
  | O => EmptyString
  | S k => (s ++ repeat_string s k)%string
  end.

(** [f"{i:03d}"]: sign first, then zeros up to a width of 3. *)
Definition format_03d (i : Z) : string :=
  let digits := NilZero.string_of_uint (N.to_uint (Z.abs_N i)) in
  let sign := if Z.ltb i 0 then "-"%string else EmptyString in
  (sign ++ repeat_string "0" (3 - (String.length sign + String.length digits)) ++ digits)%string.

(** [directory / name] for a plain file name. *)
Definition path_join (directory name : string) : string :=
  (directory ++ "/" ++ name)%string.

(** [enumerate(l)] *)
Fixpoint enumerate_from {A : Type} (i : Z) (l : list A) : list (Z * A) :=
  match l with
  | [] => []
  | x :: rest => (i, x) :: enumerate_from (i + 1)%Z rest
  end.

(** The calls of [AudioGenerator] that leave the program: [generate_audio]
    (which catches every failure and returns a boolean) and
    [_get_audio_duration] (whose fallback may raise). *)
Record AudioLib := mkAudioLib {
  lib_generate_audio : string -> string -> string -> bool;   (* text, voice, output path *)
  lib_get_audio_duration : string -> Result Q
}.

(** The body of the loop of [generate_all_audio]. *)
Definition generate_segment_audio (alib : AudioLib) (output_dir : string)
    (audio_segments : list AudioSegment.t) (entry : Z * ScriptSegment.t)
    : M (list AudioSegment.t) :=
  let '(i, segment) := entry in
  let audio_path :=
    path_join output_dir
      ("segment_" ++ format_03d i ++ "_" ++ ScriptSegment.type segment ++ "_"
       ++ ScriptSegment.voice segment ++ ".mp3")%string in
  if lib_generate_audio alib (ScriptSegment.text segment) (ScriptSegment.voice segment)
       audio_path
  then
    duration <- lift (lib_get_audio_duration alib audio_path) ;;
    ret (audio_segments
         ++ [AudioSegment.mk i (ScriptSegment.type segment) (ScriptSegment.voice segment)
               (ScriptSegment.text segment) audio_path duration])
  else ret audio_segments.

(** [AudioGenerator.generate_all_audio]: audio for all script segments; a
    segment whose generation fails is skipped. *)
Definition generate_all_audio (alib : AudioLib) (script : GeneratedScript.t)
    (output_dir : string) : M (list AudioSegment.t) :=
  for_each (generate_segment_audio alib output_dir)
           (enumerate_from 0 (GeneratedScript.segments script)) [].

(** The generators behind [CharacterGenerator]: which mode is active, and the
    outcome of [generate_reaction] (for a commentary text and a video path)
    and of [generate_talking_video] (for an audio path and a video path). *)
Record CharacterLib := mkCharacterLib {
  use_animatediff : bool;
  lib_generate_reaction : string -> string -> Result bool;
  lib_generate_talking_video : string -> string -> Result bool
}.

(** The path of the character video of a segment. *)
Definition character_video_path (output_dir : string) (audio_seg : AudioSegment.t) : string :=
  path_join output_dir
    ("character_" ++ format_03d (AudioSegment.segment_index audio_seg) ++ ".mp4")%string.

(** The body shared by the two loops of [generate_all_commentary_videos],
    given the generator call of the mode. *)
Definition generate_commentary_video (generate : AudioSegment.t -> string -> Result bool)
    (output_dir : string) (character_videos : list CharacterVideo.t)
    (audio_seg : AudioSegment.t) : M (list CharacterVideo.t) :=
  let video_path := character_video_path output_dir audio_seg in
  success <- lift (generate audio_seg video_path) ;;
  if (success : bool)
  then ret (character_videos
            ++ [CharacterVideo.mk (AudioSegment.segment_index audio_seg)
                  (AudioSegment.audio_path audio_seg) video_path
                  (AudioSegment.duration audio_seg)])
  else ret character_videos.

(** [CharacterGenerator.generate_all_commentary_videos]: character videos for
    the segments spoken by the commentator. *)
Definition generate_all_commentary_videos (clib : CharacterLib)
    (audio_segments : list AudioSegment.t) (output_dir : string)
    : M (list CharacterVideo.t) :=
  (* Filter to only commentary segments *)
  let commentary_segments :=
    filter (fun seg => (AudioSegment.voice seg =? "commentator")%string) audio_segments in
  if use_animatediff clib then
    for_each (generate_commentary_video
                (fun audio_seg video_path =>
                   lib_generate_reaction clib (AudioSegment.text audio_seg) video_path)
                output_dir)
             commentary_segments []
  else
    for_each (generate_commentary_video
                (fun audio_seg video_path =>
                   lib_generate_talking_video clib (AudioSegment.audio_path audio_seg)
                     video_path)
                output_dir)
             commentary_segments [].

(** ** The anchor table of [_get_character_position] for any setting *)

(** The position chosen for the value [anchor] of [config.CHARACTER_POSITION]. *)
Definition character_position_for (anchor : string) (self : VideoAssembler.t)
    (char_clip_size : Z * Z) : Z * Z :=
  let width := VideoConfig.width (VideoAssembler.config self) in
  let height := VideoConfig.height (VideoAssembler.config self) in
  let '(char_w, char_h) := char_clip_size in
  let margin := 20%Z in
  let positions : gmap string (Z * Z) :=
    list_to_map
      [ ("bottom_right"%string, (width - char_w - margin, height - char_h - margin)%Z);
        ("bottom_left"%string, (margin, height - char_h - margin)%Z);
        ("top_right"%string, (width - char_w - margin, margin + 60)%Z);
        ("top_left"%string, (margin + 200, margin)%Z);
        ("center_bottom"%string, ((width - char_w) `div` 2, height - char_h - margin)%Z) ] in
  default (positions !!! "bottom_right"%string) (positions !! anchor).

(** ** Vocabulary of the further properties *)

(** The overlay that the loop adds for a segment: none without an entry in
    the index, none when the file of the entry cannot be opened or has no
    width, and else one muted clip from that file. *)
Definition overlay_of (lib : Lib) (char_video_map : gmap Z CharacterVideo.t)
    (seg : AudioSegment.t) (added : list Clip) : Prop :=
  match char_video_map !! AudioSegment.segment_index seg with
  | None => added = []
  | Some cv =>
      match lib_VideoFileClip lib (CharacterVideo.video_path cv) with
      | None => added = []
      | Some vf =>
          if Z.eqb (fst (vf_size vf)) 0 then added = []
          else exists c,
              added = [c]
              /\ clip_source c = SrcFile (CharacterVideo.video_path cv)
              /\ clip_has_audio c = false
      end
  end.

(** The caption of a segment: the wrapped text shown for the script segment
    that the audio segment refers to. *)
Definition caption_of (lib : Lib) (self : VideoAssembler.t) (script : GeneratedScript.t)
    (seg : AudioSegment.t) (c : Clip) : Prop :=
  exists script_seg method,
    py_getitem (GeneratedScript.segments script) (AudioSegment.segment_index seg)
    = inr script_seg
    /\ clip_source c
       = SrcText (wrap_text lib (shown_text script_seg)
                    (max_width (caption_style self (ScriptSegment.type script_seg)
                                  (ScriptSegment.voice script_seg))))
                 method.

(** The arguments of the [TextClip] call of [_create_subreddit_badge]. *)
Definition badge_args (self : VideoAssembler.t) (subreddit : string) : TextClipArgs :=
  mkTextClipArgs ("r/" ++ subreddit)%string 28 "white"
    (Some (VideoConfig.font (VideoAssembler.config self)))
    None None (Some "#FF4500"%string) "label" None None.

(** Whether a string holds a line break. *)
Fixpoint has_newline (s : string) : bool :=
  match s with
  | EmptyString => false
  | String c rest => Ascii.eqb c (Ascii.ascii_of_nat 10) || has_newline rest
  end.

(** The frames saved by a run, oldest first. *)
Definition saved_frames (evs : list event) : list (string * Composite) :=
  flat_map (fun ev => match ev with
                      | EvSaveFrame path frame => [(path, frame)]
                      | _ => []
                      end) evs.

(** ** The caller, continued: [RedditStoriesPipeline.run_full_pipeline]

    The method from step 3 on, that is once a story is selected, the run is
    no dry run and the script is generated and saved.  The dict [results] is
    a record that the steps update in place; whatever the [try] block raises
    is caught at the end and recorded in [results['errors']]. *)

Module RedditStoriesPipeline.

Record Results := mkResults {
  success : bool;
  story_id : option string;
  video_path : option string;
  youtube_id : option string;
  errors : list string
}.

(** The calls of the method that leave the modelled program. *)
Record Env := mkEnv {
  enable_character : bool;                        (* [self.enable_character] *)
  get_or_create_character : Result unit;          (* [self.char_manager.get_or_create_character] *)
  (* [UploadManager().upload_from_script(...)] for a video path and a
     thumbnail path, then [upload_result['id']] *)
  upload_from_script : string -> option string -> Result (option string);
  path_exists : string -> bool;                   (* [path.exists()] *)
  mark_as_used : Result unit;                     (* [self.scraper.mark_as_used(story.id)] *)
  _cleanup_temp : Result unit;                    (* [self._cleanup_temp(story.id)] *)
  str : exn -> string                             (* [str(e)] *)
}.

(** A step: it updates [results], may raise, and performs effects. *)
Definition P (A : Type) : Type := Results -> (Result A * Results) * list event.

Definition retP {A : Type} (a : A) : P A := fun r => ((inr a, r), []).

Definition bindP {A B : Type} (m : P A) (f : A -> P B) : P B :=
  fun r =>
    match m r with
    | ((inl e, r'), t) => ((inl e, r'), t)
    | ((inr a, r'), t) => let '(x, t') := f a r' in (x, (t ++ t')%list)
    end.

Definition liftM {A : Type} (m : M A) : P A := fun r => ((fst m, r), snd m).

Definition liftR {A : Type} (x : Result A) : P A := fun r => ((x, r), []).

Definition update (f : Results -> Results) : P unit := fun r => ((inr tt, f r), []).

Declare Scope run_scope.
Delimit Scope run_scope with run.
Notation "x <- c ;; k" := (bindP c (fun x => k))
  (at level 100, c at next level, right associativity) : run_scope.
Notation "c ;;; k" := (bindP c (fun _ => k))
  (at level 100, right associativity) : run_scope.

(** [results['errors'].append(msg)] *)
Definition append_error (msg : string) (r : Results) : Results :=
  mkResults (success r) (story_id r) (video_path r) (youtube_id r) (errors r ++ [msg]).

Definition set_video_path (path : string) (r : Results) : Results :=
  mkResults (success r) (story_id r) (Some path) (youtube_id r) (errors r).

Definition set_youtube_id (id : string) (r : Results) : Results :=
  mkResults (success r) (story_id r) (video_path r) (Some id) (errors r).

Definition set_success (r : Results) : Results :=
  mkResults true (story_id r) (video_path r) (youtube_id r) (errors r).

Section Run.
Variable env : Env.
Variable alib : AudioLib.
Variable clib : CharacterLib.
Variable lib : Lib.
Variable video_assembler : VideoAssembler.t.

Local Open Scope run_scope.

(** The [try] block from step 3 on; [return results] ends it. *)
Definition steps (upload : bool) (script : GeneratedScript.t)
    (audio_dir char_video_dir video_path_ thumbnail_path : string) : P unit :=
  (* Step 3: Generate audio *)
  audio_segments <- liftM (generate_all_audio alib script audio_dir) ;;
  match audio_segments with
  | [] => update (append_error "Audio generation failed")
  | _ =>
      (* Step 4: Generate character videos (if enabled) *)
      character_videos <-
        (if enable_character env then
           get_or_create_character_result <- liftR (get_or_create_character env) ;;
           cvs <- liftM (generate_all_commentary_videos clib audio_segments char_video_dir) ;;
           retP (Some cvs)
         else retP None) ;;
      (* Step 5: Assemble video *)
      ok <- liftM (assemble_video lib video_assembler script audio_segments video_path_
                     character_videos) ;;
      if negb ok then update (append_error "Video assembly failed")
      else
        update (set_video_path video_path_) ;;;
        (* Create thumbnail *)
        liftM (create_thumbnail lib video_assembler script thumbnail_path) ;;;
        (* Step 6: Upload to YouTube (optional) *)
        (if upload then
           upload_result <-
             liftR (upload_from_script env video_path_
                      (if path_exists env thumbnail_path then Some thumbnail_path else None)) ;;
           match upload_result with
           | Some id => update (set_youtube_id id)
           | None => update (append_error "YouTube upload failed")
           end
         else retP tt) ;;;
        (* Mark story as used *)
        liftR (mark_as_used env) ;;;
        (* Cleanup temp files *)
        liftR (_cleanup_temp env) ;;;
        update set_success
  end.

(** [run_full_pipeline] from step 3 on: the final [results] and the effects. *)
Definition run_full_pipeline (upload : bool) (script : GeneratedScript.t)
    (audio_dir char_video_dir video_path_ thumbnail_path : string) (results : Results)
    : Results * list event :=
  match steps upload script audio_dir char_video_dir video_path_ thumbnail_path results with
  | ((inl e, r), t) => (append_error (str env e) r, t)
  | ((inr _, r), t) => (r, t)
  end.

(** The [try] block of [process_single_story] once the script is generated. *)
Definition single_story_steps (upload : bool) (script : GeneratedScript.t)
    (audio_dir char_video_dir video_path_ : string) : P unit :=
  (* Generate audio *)
  audio_segments <- liftM (generate_all_audio alib script audio_dir) ;;
  match audio_segments with
  | [] => update (append_error "Audio generation failed")
  | _ =>
      (* Generate character videos (if enabled) *)
      character_videos <-
        (if enable_character env then
           get_or_create_character_result <- liftR (get_or_create_character env) ;;
           cvs <- liftM (generate_all_commentary_videos clib audio_segments char_video_dir) ;;
           retP (Some cvs)
         else retP None) ;;
      (* Assemble video *)
      ok <- liftM (assemble_video lib video_assembler script audio_segments video_path_
                     character_videos) ;;
      (if ok then update (set_video_path video_path_) ;;; update set_success
       else retP tt) ;;;
      (* Upload if requested *)
      (if upload && ok then
         upload_result <- liftR (upload_from_script env video_path_ None) ;;
         match upload_result with
         | Some id => update (set_youtube_id id)
         | None => retP tt
         end
       else retP tt) ;;;
      (* Cleanup *)
      liftR (_cleanup_temp env)
  end.

(** [process_single_story] once the script is generated. *)
Definition process_single_story (upload : bool) (script : GeneratedScript.t)
    (audio_dir char_video_dir video_path_ : string) (results : Results)
    : Results * list event :=
  match single_story_steps upload script audio_dir char_video_dir video_path_ results with
  | ((inl e, r), t) => (append_error (str env e) r, t)
  | ((inr _, r), t) => (r, t)
  end.

End Run.
End RedditStoriesPipeline.

(** ** The upload: [YouTubeUploader._resumable_upload] in [youtube_uploader.py]

    The request is the sequence of the outcomes of its [next_chunk()] calls;
    [random.uniform(1, 5)] is a sequence of numbers.  The loop has no bound
    of its own, so the model takes the number of rounds it may run. *)

Module YouTubeUploader.

Definition MAX_RETRIES : Z := 3.
Definition RETRIABLE_STATUS_CODES : list Z := [500; 502; 503; 504]%Z.

(** What a call of [request.next_chunk()] does. *)
Inductive chunk :=
| Chunk (response : option string)   (* returns [(status, response)] *)
| HttpError (status : Z)             (* raises [HttpError] with [e.resp.status] *)
| Exception (message : string).      (* raises another exception, with its [str(e)] *)

(** How the method ends. *)
Inductive outcome :=
| Response (response : string)       (* [return response] *)
| GaveUp                             (* [return None] *)
| Raised (status : Z).               (* the [HttpError] is raised again *)

(** [time.sleep(sleep_time)] before retry number [retry]. *)
Record sleep := mkSleep { sleep_retry : Z; sleep_time : Q }.

(** The [while response is None] loop before call number [calls] with the
    counter at [retry]; [None] when the rounds are used up. *)
Fixpoint upload_loop (rounds : nat) (next_chunk : nat -> chunk) (uniform : nat -> Q)
    (calls : nat) (retry : Z) : option outcome * list sleep :=
  match rounds with
  | O => (None, [])
  | S rounds' =>
      (* the [try] statement: a result of the method, or whether [error] is
         set to a non-empty string *)
      let attempt : outcome + option bool :=
        match next_chunk calls with
        | Chunk (Some response) => inl (Response response)
        | Chunk None => inr None
        | HttpError status =>
            if existsb (Z.eqb status) RETRIABLE_STATUS_CODES
            then inr (Some true)      (* "HTTP error ..." is not empty *)
            else inl (Raised status)
        | Exception message => inr (Some (negb (message =? "")%string))
        end in
      match attempt with
      | inl result => (Some result, [])
      | inr (Some true) =>
          let retry := (retry + 1)%Z in
          if (MAX_RETRIES <? retry)%Z then (Some GaveUp, [])
          else
            let sleep_time := uniform calls * inject_Z (2 ^ retry) in
            let '(result, sleeps) := upload_loop rounds' next_chunk uniform (S calls) retry in
            (result, mkSleep retry sleep_time :: sleeps)
      | inr _ => upload_loop rounds' next_chunk uniform (S calls) retry
      end
  end.

(** [_resumable_upload]: execute a resumable upload with retry logic. *)
Definition _resumable_upload (rounds : nat) (next_chunk : nat -> chunk)
    (uniform : nat -> Q) : option outcome * list sleep :=
  upload_loop rounds next_chunk uniform 0 0.

(** A request that fails with status 503 at every call. *)
Definition always_503 : nat -> chunk := fun _ => HttpError 503.

(** A request that fails twice and completes at its fourth call. *)
Definition completes_at_3 : nat -> chunk :=
  fun n => match n with
           | 0%nat => HttpError 500
           | 1%nat => Chunk None
           | 2%nat => Exception "timed out"
           | _ => Chunk (Some "video-id"%string)
           end.

End YouTubeUploader.

(** Environments for the examples of the two stages: every generation
    succeeds and every audio file lasts 2 s. *)
Module StageExamples.
Definition alib_ok : AudioLib := mkAudioLib (fun _ _ _ => true) (fun _ => inr 2).

(** The narrator's voice is not available. *)
Definition alib_no_narrator : AudioLib :=
  mkAudioLib (fun _ voice _ => negb (voice =? "narrator")%string) (fun _ => inr 2).

(** Every external step of the run succeeds; no character videos, no upload. *)
Definition env_ok : RedditStoriesPipeline.Env :=
  RedditStoriesPipeline.mkEnv false (inr tt) (fun _ _ => inr None) (fun _ => true)
    (inr tt) (inr tt) (fun _ => "error"%string).

(** The library of the examples when no frame can be read from a video. *)
Definition lib_no_frame : Lib :=
  mkLib (lib_VideoFileClip Examples.lib_ok) (lib_AudioFileClip Examples.lib_ok)
        (lib_TextClip Examples.lib_ok)
        (lib_random Examples.lib_ok) (lib_textwrap_fill Examples.lib_ok)
        (lib_CompositeAudioClip Examples.lib_ok) (lib_CompositeVideoClip Examples.lib_ok)
        (lib_write_videofile Examples.lib_ok) (fun _ _ => false)
        (lib_save_frame Examples.lib_ok).

Definition results0 : RedditStoriesPipeline.Results :=
  RedditStoriesPipeline.mkResults false (Some "abc"%string) None None [].

(** The library of the examples when every video file is 310 x 310. *)
Definition lib_square : Lib :=
  mkLib (fun _ => Some (mkVideoFile (310, 310)%Z 10 true))
        (lib_AudioFileClip Examples.lib_ok) (lib_TextClip Examples.lib_ok)
        (lib_random Examples.lib_ok) (lib_textwrap_fill Examples.lib_ok)
        (lib_CompositeAudioClip Examples.lib_ok) (lib_CompositeVideoClip Examples.lib_ok)
        (lib_write_videofile Examples.lib_ok) (lib_get_frame Examples.lib_ok)
        (lib_save_frame Examples.lib_ok).

(** An assembler for frames of 720 x 1280 and one of 280 x 480, without
    background videos. *)
Definition assembler_720 : VideoAssembler.t :=
  VideoAssembler.mk
    (VideoConfig.mk 720 1280 config.VIDEO_FPS config.FONT_PATH config.FONT_SIZE_TITLE
       config.FONT_SIZE_STORY config.FONT_SIZE_COMMENTARY) [].

Definition assembler_280 : VideoAssembler.t :=
  VideoAssembler.mk
    (VideoConfig.mk 280 480 config.VIDEO_FPS config.FONT_PATH config.FONT_SIZE_TITLE
       config.FONT_SIZE_STORY config.FONT_SIZE_COMMENTARY) [].

(** A title of 45 characters of two bytes each (e with an acute accent). *)
Definition accented_title : string :=
  repeat_string (String (Ascii.ascii_of_nat 195) (String (Ascii.ascii_of_nat 169) EmptyString))
                45.

Definition script_accented : GeneratedScript.t :=
  GeneratedScript.mk "abc" accented_title "tifu" [] "Video title" "Description" [].

Definition clib_ok : CharacterLib :=
  mkCharacterLib false (fun _ _ => inr true) (fun _ _ => inr true).
End StageExamples.

(** * Properties *)

(** ** The monad *)

Lemma bind_inr_inv {A B : Type} (m : M A) (f : A -> M B) (b : B) (t : list event) :
  bind m f = (inr b, t) ->
  exists a t1 t2, m = (inr a, t1) /\ f a = (inr b, t2) /\ t = (t1 ++ t2)%list.
Proof.
  unfold bind. destruct m as [[e | a] t1]; [discriminate |].
  destruct (f a) as [r t2] eqn:Hf. intros H. injection H as -> <-.
  exists a, t1, t2. auto.
Qed.

Lemma bind_inr {A B : Type} (m : M A) (f : A -> M B) (a : A) (t1 : list event) :
  m = (inr a, t1) -> bind m f = (fst (f a), (t1 ++ snd (f a))%list).
Proof. intros ->. unfold bind. destruct (f a); reflexivity. Qed.

Lemma bind_inl {A B : Type} (m : M A) (f : A -> M B) (e : exn) (t1 : list event) :
  m = (inl e, t1) -> bind m f = (inl e, t1).
Proof. intros ->. reflexivity. Qed.

Lemma bind_ret_l {A B : Type} (a : A) (f : A -> M B) : bind (ret a) f = f a.
Proof. unfold bind, ret. destruct (f a); reflexivity. Qed.

Lemma wrote_video_app (t1 t2 : list event) :
  wrote_video (t1 ++ t2) = wrote_video t1 || wrote_video t2.
Proof. unfold wrote_video. apply existsb_app. Qed.

(** ** Sums and the timeline *)

Lemma fold_left_Qplus_sigma (ds : list Q) (a : Q) :
  fold_left Qplus ds a == a + sigma ds.
Proof.
  revert a. induction ds as [| d ds IH]; intros a; simpl.
  - ring.
  - rewrite IH. ring.
Qed.

Lemma py_sum_sigma (ds : list Q) : py_sum ds == sigma ds.
Proof. unfold py_sum. rewrite fold_left_Qplus_sigma. ring. Qed.

Lemma gap_duration_pos : 0 < gap_duration.
Proof. reflexivity. Qed.

Lemma timeline_from_length (t0 : Q) (ds : list Q) :
  List.length (timeline_from t0 ds) = List.length ds.
Proof. revert t0. induction ds as [| d ds IH]; intros t0; simpl; [| rewrite IH]; reflexivity. Qed.

(** Consecutive starts are one duration and one gap apart. *)
Lemma timeline_from_step (ds : list Q) (t0 : Q) (i : nat) :
  (S i < List.length ds)%nat ->
  nth (S i) (timeline_from t0 ds) 0
  == nth i (timeline_from t0 ds) 0 + nth i ds 0 + gap_duration.
Proof.
  revert t0 i. induction ds as [| d ds IH]; intros t0 i Hi; simpl in Hi; [lia |].
  destruct i as [| i].
  - destruct ds as [| d' ds]; simpl in *; [lia | ring].
  - change (nth (S (S i)) (timeline_from t0 (d :: ds)) 0)
      with (nth (S i) (timeline_from (t0 + (d + gap_duration)) ds) 0).
    change (nth (S i) (timeline_from t0 (d :: ds)) 0)
      with (nth i (timeline_from (t0 + (d + gap_duration)) ds) 0).
    change (nth (S i) (d :: ds) 0) with (nth i ds 0).
    apply IH. lia.
Qed.

(** The last segment ends after all durations and one gap per earlier segment. *)
Lemma timeline_from_last (ds : list Q) (t0 : Q) :
  ds <> [] ->
  nth (List.length ds - 1) (timeline_from t0 ds) 0 + nth (List.length ds - 1) ds 0
  == t0 + sigma ds + gap_duration * (inject_Z (Z.of_nat (List.length ds)) - 1).
Proof.
  revert t0. induction ds as [| d ds IH]; intros t0 Hne; [congruence |].
  destruct ds as [| d' ds].
  - simpl. ring.
  - assert (Hne' : d' :: ds <> []) by discriminate.
    specialize (IH (t0 + (d + gap_duration)) Hne').
    replace (List.length (d :: d' :: ds) - 1)%nat with (S (List.length (d' :: ds) - 1))
      by (simpl; lia).
    change (nth (S (List.length (d' :: ds) - 1)) (timeline_from t0 (d :: d' :: ds)) 0)
      with (nth (List.length (d' :: ds) - 1)
                (timeline_from (t0 + (d + gap_duration)) (d' :: ds)) 0).
    change (nth (S (List.length (d' :: ds) - 1)) (d :: d' :: ds) 0)
      with (nth (List.length (d' :: ds) - 1) (d' :: ds) 0).
    rewrite IH.
    change (sigma (d :: d' :: ds)) with (d + sigma (d' :: ds)).
    replace (Z.of_nat (List.length (d :: d' :: ds)))
      with (Z.of_nat (List.length (d' :: ds)) + 1)%Z by (simpl List.length; lia).
    rewrite inject_Z_plus. ring.
Qed.

Lemma total_duration_sigma (segs : list AudioSegment.t) :
  total_duration segs
  == sigma (map AudioSegment.duration segs)
     + gap_duration * (inject_Z (Z.of_nat (List.length segs)) - 1).
Proof.
  unfold total_duration. rewrite py_sum_sigma.
  unfold Z.sub. rewrite inject_Z_plus. reflexivity.
Qed.

(** ** The segment loop *)

Lemma set_start_start (t : Q) (c : Clip) : clip_start (set_start t c) = t.
Proof.
  unfold set_start. destruct (clip_duration c); [reflexivity |].
  destruct (clip_end c); reflexivity.
Qed.

Section Loop.
Variable lib : Lib.
Variable self : VideoAssembler.t.
Variable script : GeneratedScript.t.
Variable char_video_map : gmap Z CharacterVideo.t.

(** What a completed iteration has done. *)
Lemma assemble_segment_inv (st st' : LoopState) (seg : AudioSegment.t) (tr : list event) :
  assemble_segment lib self script char_video_map st seg = (inr st', tr) ->
  exists (native : Q) (tc : Clip) (chars : list Clip) (tr1 tr2 : list event),
    lib_AudioFileClip lib (AudioSegment.audio_path seg) = Some native /\
    add_character_clip lib self char_video_map seg (current_time st) (character_clips st)
      = (inr chars, tr2) /\
    tr = (EvOpen (AudioSegment.audio_path seg) :: tr1 ++ tr2)%list /\
    st' = mkLoopState
            (audio_clips st ++ [mkAudioClip (AudioSegment.audio_path seg) native (current_time st)])
            (text_clips st ++ [set_start (current_time st) tc])
            chars
            (current_time st + (AudioSegment.duration seg + gap_duration)).
Proof.
  unfold assemble_segment. intros H.
  apply bind_inr_inv in H as (sseg & t0 & t0' & Hget & H & ->).
  apply bind_inr_inv in H as (ac & ta & ta' & Hac & H & ->).
  apply bind_inr_inv in H as (tc & tt & tt' & Htc & H & ->).
  apply bind_inr_inv in H as (chars & tch & tch' & Hch & H & ->).
  unfold ret in H. injection H as <- <-.
  unfold lift in Hget. injection Hget as Hget <-.
  unfold AudioFileClip in Hac.
  destruct (lib_AudioFileClip lib (AudioSegment.audio_path seg)) as [native |] eqn:Hnat;
    [| discriminate].
  cbn in Hac. injection Hac as <- <-.
  exists native, tc, chars, tt, tch. cbn.
  rewrite app_nil_r. repeat split; auto.
Qed.

(** The starts handed out by the loop follow the timeline. *)
Lemma for_each_starts (segs : list AudioSegment.t) (st0 st : LoopState) (tr : list event) :
  for_each (assemble_segment lib self script char_video_map) segs st0 = (inr st, tr) ->
  map aclip_start (audio_clips st)
    = (map aclip_start (audio_clips st0)
       ++ timeline_from (current_time st0) (map AudioSegment.duration segs))%list /\
  map clip_start (text_clips st)
    = (map clip_start (text_clips st0)
       ++ timeline_from (current_time st0) (map AudioSegment.duration segs))%list.
Proof.
  revert st0 tr. induction segs as [| seg segs IH]; intros st0 tr H; simpl in H.
  - unfold ret in H. injection H as <- <-. simpl. rewrite !app_nil_r. auto.
  - apply bind_inr_inv in H as (st1 & t1 & t2 & Hstep & Hrest & ->).
    apply assemble_segment_inv in Hstep
      as (native & tc & chars & tr1 & tr2 & _ & _ & _ & ->).
    apply IH in Hrest as [Ha Ht]. cbn in Ha, Ht.
    rewrite Ha, Ht, !map_app. cbn. rewrite set_start_start, <- !app_assoc.
    auto.
Qed.
End Loop.

(** The badge never raises and performs no effect. *)
Lemma _create_subreddit_badge_total (lib : Lib) (self : VideoAssembler.t)
    (subreddit : string) (duration : Q) :
  exists badge, _create_subreddit_badge lib self subreddit duration = (inr badge, []).
Proof.
  unfold _create_subreddit_badge, try_except, TextClip, bind, raise, ret.
  destruct (lib_TextClip lib _); eexists; reflexivity.
Qed.

(** A returning [CompositeAudioClip] was given at least one clip. *)
Lemma CompositeAudioClip_inv (lib : Lib) (clips mixed : list AudioClip) (t : list event) :
  CompositeAudioClip lib clips = (inr mixed, t) -> clips = mixed /\ [] = t /\ clips <> [].
Proof.
  unfold CompositeAudioClip. destruct clips as [| c clips]; [discriminate |].
  destruct (lib_CompositeAudioClip lib (c :: clips)); [| discriminate].
  intros H. injection H as <- <-. repeat split. discriminate.
Qed.

(** What a returning [assemble_video] has done: the background was built,
    every segment was processed, and one video was exported last. *)
Lemma assemble_video_inv (lib : Lib) (self : VideoAssembler.t) (script : GeneratedScript.t)
    (segs : list AudioSegment.t) (output_path : string)
    (character_videos : option (list CharacterVideo.t)) (b : bool) (tr : list event) :
  assemble_video lib self script segs output_path character_videos = (inr b, tr) ->
  exists (background : Clip) (st : LoopState) (captions : list Clip)
         (tr_bg tr_loop : list event),
    _get_background_clip lib self (total_duration segs) = (inr background, tr_bg) /\
    for_each (assemble_segment lib self script (build_char_video_map character_videos))
             segs initial_state = (inr st, tr_loop) /\
    (captions = text_clips st \/ exists badge, captions = badge :: text_clips st) /\
    b = true /\
    tr = (tr_bg ++ tr_loop
          ++ [EvMkdirParent output_path;
              EvWriteVideo output_path
                (mkComposite ([background] ++ character_clips st ++ captions)
                   (VideoConfig.width (VideoAssembler.config self),
                    VideoConfig.height (VideoAssembler.config self))
                   (audio_clips st) (Some (total_duration segs)))
                (VideoConfig.fps (VideoAssembler.config self))])%list.
Proof.
  unfold assemble_video. intros H.
  apply bind_inr_inv in H as (bg & tbg & t1 & Hbg & H & ->).
  apply bind_inr_inv in H as (st & tloop & t2 & Hloop & H & ->).
  destruct (_create_subreddit_badge_total lib self (GeneratedScript.subreddit script)
              (total_duration segs)) as [badge Hbadge].
  apply bind_inr_inv in H as (badge' & tb & t3 & Hb & H & ->).
  rewrite Hbadge in Hb. injection Hb as <- <-.
  apply bind_inr_inv in H as (fa & ta & t4 & Hfa & H & ->).
  apply bind_inr_inv in H as (fv & tv & t5 & Hfv & H & ->).
  apply bind_inr_inv in H as (u1 & tm & t6 & Hm & H & ->).
  apply bind_inr_inv in H as (u2 & tw & t7 & Hw & H & ->).
  unfold ret in H. injection H as <- <-.
  apply CompositeAudioClip_inv in Hfa as (<- & <- & _).
  unfold CompositeVideoClip in Hfv.
  destruct (lib_CompositeVideoClip lib _); [| discriminate].
  injection Hfv as <- <-.
  unfold emit in Hm. injection Hm as <- <-.
  unfold write_videofile in Hw.
  destruct (lib_write_videofile lib _ _); [| discriminate].
  unfold emit in Hw. injection Hw as <- <-.
  exists bg, st,
    (match badge with Some b0 => b0 :: text_clips st | None => text_clips st end),
    tbg, tloop.
  repeat split; auto.
  destruct badge; [right; eauto | left; reflexivity].
Qed.

Lemma nth_duration_nonneg (segs : list AudioSegment.t) (i : nat) :
  (forall seg, In seg segs -> 0 <= AudioSegment.duration seg) ->
  (i < List.length segs)%nat ->
  0 <= nth i (map AudioSegment.duration segs) 0.
Proof.
  intros Hpos Hi. destruct segs as [| s0 segs]; [simpl in Hi; lia |].
  rewrite (nth_indep _ 0 (AudioSegment.duration s0)) by (rewrite length_map; exact Hi).
  rewrite map_nth. apply Hpos. apply nth_In. exact Hi.
Qed.

(** C3: for a non-empty audio-segment sequence, the [total_duration] that
    [assemble_video] computes and gives to the exported video is the sum of
    the durations plus one gap of 0.3 s per consecutive pair: the first
    segment starts at 0, each next segment starts one duration and one gap
    after the previous start, and the last segment ends exactly at
    [total_duration]. *)
Theorem C3_total_duration_sum_and_gaps
    (lib : Lib) (self : VideoAssembler.t) (script : GeneratedScript.t)
    (segs : list AudioSegment.t) (output_path : string)
    (character_videos : option (list CharacterVideo.t)) (b : bool) (tr : list event) :
  segs <> [] ->
  assemble_video lib self script segs output_path character_videos = (inr b, tr) ->
  exists video : Composite,
    In (EvWriteVideo output_path video (VideoConfig.fps (VideoAssembler.config self))) tr
    /\ comp_duration video = Some (total_duration segs)
    /\ let n := List.length segs in
       let ds := map AudioSegment.duration segs in
       let starts := map aclip_start (comp_audio video) in
       gap_duration == 3 # 10
       /\ total_duration segs == sigma ds + gap_duration * (inject_Z (Z.of_nat n) - 1)
       /\ List.length starts = n
       /\ nth 0 starts 0 == 0
       /\ (forall i, (S i < n)%nat ->
             nth (S i) starts 0 == nth i starts 0 + nth i ds 0 + gap_duration)
       /\ nth (n - 1) starts 0 + nth (n - 1) ds 0 == total_duration segs.
Proof.
  intros Hne Hrun.
  apply assemble_video_inv in Hrun
    as (bg & st & captions & tr_bg & tr_loop & _ & Hloop & _ & _ & ->).
  eexists. split.
  { rewrite !in_app_iff. right. right. right. left. reflexivity. }
  split; [reflexivity |].
  - intros n ds starts.
    apply for_each_starts in Hloop as [Ha _]. cbn in Ha.
    subst starts. cbn [comp_audio]. rewrite Ha. fold ds.
    assert (Hlen : List.length ds = n) by apply length_map.
    repeat split.
    + apply total_duration_sigma.
    + rewrite timeline_from_length. exact Hlen.
    + destruct segs; [congruence | reflexivity].
    + intros i Hi. apply timeline_from_step. lia.
    + rewrite total_duration_sigma. fold ds. fold n. rewrite <- Hlen.
      rewrite timeline_from_last.
      * ring.
      * subst ds. destruct segs; [congruence | discriminate].
Qed.

Lemma C3_total_duration_sum_and_gaps_witness :
  exists video : Composite,
    In (EvWriteVideo "out.mp4" video 30)
       (effects (assemble_video Examples.lib_ok Examples.assembler_plain Examples.script3
                   [Examples.audio0; Examples.audio1] "out.mp4" None))
    /\ comp_duration video = Some (total_duration [Examples.audio0; Examples.audio1])
    /\ total_duration [Examples.audio0; Examples.audio1] == 83 # 10
    /\ nth 1 (map aclip_start (comp_audio video)) 0 == 33 # 10.
Proof.
  destruct (C3_total_duration_sum_and_gaps Examples.lib_ok Examples.assembler_plain
              Examples.script3 [Examples.audio0; Examples.audio1] "out.mp4" None true
              (effects (assemble_video Examples.lib_ok Examples.assembler_plain
                          Examples.script3 [Examples.audio0; Examples.audio1] "out.mp4" None))
              ltac:(discriminate) ltac:(vm_compute; reflexivity))
    as (video & Hin & Hdur & H).
  cbv zeta in H. destruct H as (_ & Htot & _ & H0 & Hstep & _).
  exists video. split; [exact Hin |]. split; [exact Hdur |]. split.
  - vm_compute. reflexivity.
  - rewrite (Hstep 0%nat) by (simpl; lia). rewrite H0. vm_compute. reflexivity.
Defined.

(** C4: the start times assigned by [assemble_video] never overlap: each
    next start is at least the previous start plus the previous duration,
    namely exactly one fixed gap later; captions start with their audio; and,
    durations being non-negative, the start times are non-decreasing. *)
Theorem C4_starts_ordered_and_disjoint
    (lib : Lib) (self : VideoAssembler.t) (script : GeneratedScript.t)
    (segs : list AudioSegment.t) (output_path : string)
    (character_videos : option (list CharacterVideo.t)) (b : bool) (tr : list event) :
  segs <> [] ->
  (forall seg, In seg segs -> 0 <= AudioSegment.duration seg) ->
  assemble_video lib self script segs output_path character_videos = (inr b, tr) ->
  exists (video : Composite) (captions : list Clip),
    In (EvWriteVideo output_path video (VideoConfig.fps (VideoAssembler.config self))) tr
    /\ (exists lower, comp_layers video = (lower ++ captions)%list)
    /\ let ds := map AudioSegment.duration segs in
       let starts := map aclip_start (comp_audio video) in
       map clip_start captions = starts
       /\ forall i, (S i < List.length segs)%nat ->
            nth i starts 0 + nth i ds 0 <= nth (S i) starts 0
            /\ nth (S i) starts 0 == nth i starts 0 + nth i ds 0 + gap_duration
            /\ nth i starts 0 <= nth (S i) starts 0.
Proof.
  intros Hne Hpos Hrun.
  apply assemble_video_inv in Hrun
    as (bg & st & captions & tr_bg & tr_loop & _ & Hloop & Hcap & _ & ->).
  eexists. exists (text_clips st). split.
  { rewrite !in_app_iff. right. right. right. left. reflexivity. }
  split.
  - cbn [comp_layers].
    destruct Hcap as [-> | [badge ->]].
    + exists ([bg] ++ character_clips st)%list. rewrite <- app_assoc. reflexivity.
    + exists ([bg] ++ character_clips st ++ [badge])%list.
      rewrite <- !app_assoc. reflexivity.
  - intros ds starts.
    apply for_each_starts in Hloop as [Ha Ht]. cbn in Ha, Ht.
    subst starts. cbn [comp_audio]. rewrite Ha, Ht. fold ds. split; [reflexivity |].
    intros i Hi.
    assert (Hstep := timeline_from_step ds 0 i).
    assert (Hlen : List.length ds = List.length segs) by apply length_map.
    rewrite Hlen in Hstep. specialize (Hstep Hi).
    assert (Hd : 0 <= nth i ds 0) by (apply nth_duration_nonneg; [exact Hpos | lia]).
    pose proof gap_duration_pos as Hg.
    repeat split.
    + rewrite Hstep. lra.
    + exact Hstep.
    + rewrite Hstep. lra.
Qed.

Lemma C4_starts_ordered_and_disjoint_witness :
  exists (video : Composite),
    In (EvWriteVideo "out.mp4" video 30)
       (effects (assemble_video Examples.lib_ok Examples.assembler_bg Examples.script3
                   [Examples.audio0; Examples.audio1; Examples.audio2] "out.mp4"
                   (Some [Examples.char2])))
    /\ nth 1 (map aclip_start (comp_audio video)) 0 + 5
       <= nth 2 (map aclip_start (comp_audio video)) 0.
Proof.
  destruct (C4_starts_ordered_and_disjoint Examples.lib_ok Examples.assembler_bg
              Examples.script3 [Examples.audio0; Examples.audio1; Examples.audio2]
              "out.mp4" (Some [Examples.char2]) true
              (effects (assemble_video Examples.lib_ok Examples.assembler_bg Examples.script3
                          [Examples.audio0; Examples.audio1; Examples.audio2] "out.mp4"
                          (Some [Examples.char2]))))
    as (video & captions & Hin & _ & H).
  - discriminate.
  - intros seg [<- | [<- | [<- | []]]]; vm_compute; discriminate.
  - vm_compute. reflexivity.
  - exists video. split; [exact Hin |].
    cbv zeta in H. destruct H as [_ H]. exact (proj1 (H 1%nat ltac:(simpl; lia))).
Defined.


(** ** Caption styling *)

(** A caption that was rendered carries the font size and color of the
    style; its position is the style's one unless the plain-label fallback
    was taken. *)
Lemma _create_text_clip_style (lib : Lib) (self : VideoAssembler.t)
    (text : string) (duration : Q) (segment_type voice : string)
    (c : Clip) (tr : list event) :
  _create_text_clip lib self text duration segment_type voice = (inr c, tr) ->
  clip_fontsize c = Some (font_size (caption_style self segment_type voice))
  /\ clip_color c = Some (color (caption_style self segment_type voice))
  /\ clip_duration c = Some duration
  /\ (clip_pos c = position_ (caption_style self segment_type voice)
      \/ clip_pos c = PosStr "center").
Proof.
  unfold _create_text_clip, try_except, TextClip, bind, raise, ret.
  destruct (lib_TextClip lib _) as [sz |].
  - cbn. intros H. injection H as <- <-. cbn. auto.
  - cbn. destruct (lib_TextClip lib _) as [sz |]; cbn; [| discriminate].
    intros H. injection H as <- <-. cbn. auto.
Qed.

(** C8: the caption styling is a function of (segment type, voice) alone:
    equal pairs give the same font size, color and position, also across
    texts, durations and library states; intro and outro segments get the
    title font size, white, screen centre; other segments spoken by the
    commentator get the commentary font size, gold, lower third at 75% of
    the frame height; all remaining segments get the story font size, white,
    screen centre. *)
Theorem C8_caption_style_table (self : VideoAssembler.t) (ty vo ty' vo' : string) :
  let cfg := VideoAssembler.config self in
  let centre := PosPair (CStr "center") (CStr "center") in
  (ty = ty' -> vo = vo' ->
     caption_style self ty vo = caption_style self ty' vo'
     /\ forall lib lib' text text' d d' c c' tr tr',
          _create_text_clip lib self text d ty vo = (inr c, tr) ->
          _create_text_clip lib' self text' d' ty' vo' = (inr c', tr') ->
          clip_fontsize c = clip_fontsize c' /\ clip_color c = clip_color c')
  /\ (ty = "intro"%string \/ ty = "outro"%string ->
        font_size (caption_style self ty vo) = VideoConfig.title_font_size cfg
        /\ color (caption_style self ty vo) = "white"%string
        /\ position_ (caption_style self ty vo) = centre)
  /\ (ty <> "intro"%string -> ty <> "outro"%string -> vo = "commentator"%string ->
        font_size (caption_style self ty vo) = VideoConfig.commentary_font_size cfg
        /\ color (caption_style self ty vo) = "#FFD700"%string
        /\ exists y, position_ (caption_style self ty vo) = PosPair (CStr "center") (CNum y)
                     /\ y == (75 # 100) * inject_Z (VideoConfig.height cfg))
  /\ (ty <> "intro"%string -> ty <> "outro"%string -> vo <> "commentator"%string ->
        font_size (caption_style self ty vo) = VideoConfig.story_font_size cfg
        /\ color (caption_style self ty vo) = "white"%string
        /\ position_ (caption_style self ty vo) = centre).
Proof.
  intros cfg centre. split; [| split; [| split]].
  - intros -> ->. split; [reflexivity |].
    intros lib lib' text text' d d' c c' tr tr' Hc Hc'.
    apply _create_text_clip_style in Hc as (Hf & Hcol & _).
    apply _create_text_clip_style in Hc' as (Hf' & Hcol' & _).
    rewrite Hf, Hf', Hcol, Hcol'. split; reflexivity.
  - unfold caption_style. intros [-> | ->]; repeat split.
  - unfold caption_style. intros Hintro Houtro ->.
    apply String.eqb_neq in Hintro, Houtro. rewrite Hintro, Houtro. cbn.
    split; [reflexivity |]. split; [reflexivity |].
    eexists. split; [reflexivity | apply Qmult_comm].
  - unfold caption_style. intros Hintro Houtro Hvoice.
    apply String.eqb_neq in Hintro, Houtro, Hvoice.
    rewrite Hintro, Houtro, Hvoice. repeat split.
Qed.

Lemma C8_caption_style_table_witness :
  caption_style Examples.assembler_plain "commentary" "commentator"
  = mkStyle 32 "#FFD700" (PosPair (CStr "center") (CNum (inject_Z 1920 * (75 # 100)))) 35
  /\ font_size (caption_style Examples.assembler_plain "outro" "commentator") = 48%Z
  /\ color (caption_style Examples.assembler_plain "story" "narrator") = "white"%string.
Proof.
  pose proof (C8_caption_style_table Examples.assembler_plain
                "commentary" "commentator" "commentary" "commentator") as Hc.
  pose proof (C8_caption_style_table Examples.assembler_plain
                "outro" "commentator" "outro" "commentator") as Ho.
  pose proof (C8_caption_style_table Examples.assembler_plain
                "story" "narrator" "story" "narrator") as Hs.
  cbv zeta in Hc, Ho, Hs.
  destruct Hc as (Hpure & _ & _ & _).
  destruct Ho as (_ & Hintro & _ & _).
  destruct Hs as (_ & _ & _ & Hstory).
  split; [| split].
  - exact (proj1 (Hpure eq_refl eq_refl)).
  - exact (proj1 (Hintro (or_intror eq_refl))).
  - refine (proj1 (proj2 (Hstory _ _ _))); discriminate.
Defined.

(** ** Character overlays *)

(** [_create_character_clip] never raises.  With a loadable file of non-zero
    width it yields the clip resized, moved to [start_time], cut to the
    shorter of its own and the segment's duration, positioned and muted;
    otherwise it yields [None]. *)
Lemma _create_character_clip_cases (lib : Lib) (self : VideoAssembler.t)
    (path : string) (duration start_time : Q) :
  match lib_VideoFileClip lib path with
  | None => _create_character_clip lib self path duration start_time = (inr None, [])
  | Some vf =>
      if Z.eqb (fst (vf_size vf)) 0
      then _create_character_clip lib self path duration start_time = (inr None, [EvOpen path])
      else exists c,
          _create_character_clip lib self path duration start_time
            = (inr (Some c), [EvOpen path])
          /\ clip_source c = SrcFile path
          /\ (exists w h, clip_ops c = [OpResize w h])
          /\ clip_start c = start_time
          /\ clip_duration c = Some (py_min (vf_duration vf) duration)
          /\ clip_end c = Some (start_time + py_min (vf_duration vf) duration)
          /\ clip_has_audio c = false
  end.
Proof.
  unfold _create_character_clip, VideoFileClip.
  destruct (lib_VideoFileClip lib path) as [vf |]; [| reflexivity].
  destruct vf as [[w h] native audio]. cbn [vf_size fst].
  unfold try_except, bind, emit, ret, lift, Binary64.truediv, clip_w.
  cbn [clip_size fst vf_size].
  destruct (Z.eqb w 0).
  - reflexivity.
  - cbv beta iota zeta.
    destruct (_get_character_position self _) as [x y].
    eexists. split; [reflexivity |].
    cbn [clip_source clip_ops clip_start clip_duration clip_end clip_has_audio
         without_audio set_position set_duration set_start resize_to with_size with_op
         with_timing].
    repeat split. eauto.
Qed.

Lemma fold_insert_lookup (cvs : list CharacterVideo.t) (m : gmap Z CharacterVideo.t) (k : Z) :
  fold_left (fun m cv => <[CharacterVideo.segment_index cv := cv]> m) cvs m !! k
  = match last_for_segment k cvs with
    | Some cv => Some cv
    | None => m !! k
    end.
Proof.
  revert m. induction cvs as [| cv cvs IH]; intros m; simpl; [reflexivity |].
  rewrite IH. destruct (last_for_segment k cvs) as [later |]; [reflexivity |].
  destruct (Z.eqb_spec (CharacterVideo.segment_index cv) k) as [-> | Hne].
  - apply lookup_insert_eq.
  - apply lookup_insert_ne. exact Hne.
Qed.

(** The index built by [assemble_video] maps a segment to the last entry
    that names it. *)
Lemma build_char_video_map_lookup (cvs : list CharacterVideo.t) (k : Z) :
  build_char_video_map (Some cvs) !! k = last_for_segment k cvs.
Proof.
  unfold build_char_video_map. rewrite fold_insert_lookup.
  destruct (last_for_segment k cvs); [reflexivity | apply lookup_empty].
Qed.

Lemma last_for_segment_none (k : Z) (cvs : list CharacterVideo.t) :
  (forall cv, In cv cvs -> CharacterVideo.segment_index cv <> k) ->
  last_for_segment k cvs = None.
Proof.
  induction cvs as [| cv cvs IH]; intros H; simpl; [reflexivity |].
  rewrite IH by (intros cv' Hin; apply H; right; exact Hin).
  destruct (Z.eqb_spec (CharacterVideo.segment_index cv) k) as [Heq | _]; [| reflexivity].
  exfalso. apply (H cv); [left; reflexivity | exact Heq].
Qed.

Lemma last_for_segment_app (k : Z) (l1 l2 : list CharacterVideo.t) :
  last_for_segment k (l1 ++ l2)
  = match last_for_segment k l2 with
    | Some cv => Some cv
    | None => last_for_segment k l1
    end.
Proof.
  induction l1 as [| cv l1 IH]; simpl.
  - destruct (last_for_segment k l2); reflexivity.
  - rewrite IH. destruct (last_for_segment k l2); reflexivity.
Qed.

(** C10: when [character_videos] holds more than one entry with the same
    [segment_index], the later entry replaces the earlier one in the index:
    the lookup yields the last such entry, and for an audio segment with that
    index at most one character overlay is appended, built from the video
    path of that last entry. *)
Theorem C10_later_character_video_overwrites
    (lib : Lib) (self : VideoAssembler.t)
    (before between after : list CharacterVideo.t) (earlier later : CharacterVideo.t)
    (audio_seg : AudioSegment.t) (t : Q) (clips : list Clip) :
  CharacterVideo.segment_index earlier = AudioSegment.segment_index audio_seg ->
  CharacterVideo.segment_index later = AudioSegment.segment_index audio_seg ->
  (forall cv, In cv after ->
     CharacterVideo.segment_index cv <> AudioSegment.segment_index audio_seg) ->
  let cvs := (before ++ earlier :: between ++ later :: after)%list in
  let index := build_char_video_map (Some cvs) in
  index !! AudioSegment.segment_index audio_seg = Some later
  /\ exists (extra : list Clip) (tr : list event),
       add_character_clip lib self index audio_seg t clips = (inr (clips ++ extra)%list, tr)
       /\ (List.length extra <= 1)%nat
       /\ (forall c, In c extra -> clip_source c = SrcFile (CharacterVideo.video_path later))
       /\ (tr = [] \/ tr = [EvOpen (CharacterVideo.video_path later)]).
Proof.
  intros Hearlier Hlater Hafter cvs index.
  assert (Hlookup : index !! AudioSegment.segment_index audio_seg = Some later).
  { subst index cvs. rewrite build_char_video_map_lookup.
    rewrite last_for_segment_app. cbn [last_for_segment].
    rewrite last_for_segment_app. cbn [last_for_segment].
    rewrite (last_for_segment_none _ after Hafter).
    rewrite Hlater, Z.eqb_refl. reflexivity. }
  split; [exact Hlookup |].
  unfold add_character_clip. rewrite Hlookup.
  pose proof (_create_character_clip_cases lib self (CharacterVideo.video_path later)
                (AudioSegment.duration audio_seg) t) as Hcases.
  destruct (lib_VideoFileClip lib (CharacterVideo.video_path later)) as [vf |].
  - destruct (Z.eqb (fst (vf_size vf)) 0).
    + rewrite Hcases. exists [], [EvOpen (CharacterVideo.video_path later)].
      cbn. rewrite app_nil_r. repeat split; auto. intros c [].
    + destruct Hcases as (c & -> & Hsrc & _).
      exists [c], [EvOpen (CharacterVideo.video_path later)].
      cbn. repeat split; auto. intros c' [<- | []]. exact Hsrc.
  - rewrite Hcases. exists [], []. cbn. rewrite app_nil_r.
    repeat split; auto. intros c [].
Qed.

Lemma C10_later_character_video_overwrites_witness :
  build_char_video_map (Some [Examples.char2_old; Examples.char2]) !! 2%Z
  = Some Examples.char2
  /\ exists extra tr,
       add_character_clip Examples.lib_ok Examples.assembler_plain
         (build_char_video_map (Some [Examples.char2_old; Examples.char2]))
         Examples.audio2 (86 # 10) [] = (inr extra, tr)
       /\ (List.length extra <= 1)%nat.
Proof.
  destruct (C10_later_character_video_overwrites Examples.lib_ok Examples.assembler_plain
              [] [] [] Examples.char2_old Examples.char2 Examples.audio2 (86 # 10) []
              eq_refl eq_refl ltac:(intros cv [])) as (Hlookup & extra & tr & Hadd & Hlen & _).
  split; [exact Hlookup |].
  exists extra, tr. split; [exact Hadd | exact Hlen].
Defined.

Lemma py_min_Qmin (a b : Q) : py_min a b == Qmin a b.
Proof.
  unfold py_min. destruct (b ?= a) eqn:Hcmp.
  - apply Qeq_alt in Hcmp. rewrite Q.min_l; [reflexivity | rewrite Hcmp; apply Qle_refl].
  - apply Qlt_alt in Hcmp. rewrite Q.min_r; [reflexivity | apply Qlt_le_weak; exact Hcmp].
  - apply Qgt_alt in Hcmp. rewrite Q.min_l; [reflexivity | apply Qlt_le_weak; exact Hcmp].
Qed.

(** C7: a segment with an associated character clip gets one overlay that
    starts at the segment's own start (the start of its audio), lasts
    min(native clip duration, segment duration), is only resized (never
    looped or stretched in time), and has no audio track. *)
Theorem C7_character_overlay_timing
    (lib : Lib) (self : VideoAssembler.t) (script : GeneratedScript.t)
    (char_video_map : gmap Z CharacterVideo.t)
    (st st' : LoopState) (seg : AudioSegment.t) (tr : list event)
    (cv : CharacterVideo.t) (vf : VideoFile) :
  char_video_map !! AudioSegment.segment_index seg = Some cv ->
  lib_VideoFileClip lib (CharacterVideo.video_path cv) = Some vf ->
  fst (vf_size vf) <> 0%Z ->
  assemble_segment lib self script char_video_map st seg = (inr st', tr) ->
  exists (c : Clip) (ac : AudioClip) (d : Q),
    character_clips st' = (character_clips st ++ [c])%list
    /\ audio_clips st' = (audio_clips st ++ [ac])%list
    /\ clip_source c = SrcFile (CharacterVideo.video_path cv)
    /\ clip_start c = current_time st
    /\ aclip_start ac = current_time st
    /\ clip_duration c = Some d
    /\ d == Qmin (vf_duration vf) (AudioSegment.duration seg)
    /\ clip_end c = Some (current_time st + d)
    /\ (exists w h, clip_ops c = [OpResize w h])
    /\ clip_has_audio c = false.
Proof.
  intros Hlookup Hvf Hw Hstep.
  apply assemble_segment_inv in Hstep
    as (native & tc & chars & tr1 & tr2 & _ & Hadd & _ & ->).
  unfold add_character_clip in Hadd. rewrite Hlookup in Hadd.
  pose proof (_create_character_clip_cases lib self (CharacterVideo.video_path cv)
                (AudioSegment.duration seg) (current_time st)) as Hcases.
  rewrite Hvf in Hcases.
  apply Z.eqb_neq in Hw. rewrite Hw in Hcases.
  destruct Hcases as (c & Hc & Hsrc & Hops & Hstart & Hdur & Hend & Haudio).
  rewrite Hc in Hadd. cbn in Hadd. injection Hadd as <- <-.
  exists c, (mkAudioClip (AudioSegment.audio_path seg) native (current_time st)),
    (py_min (vf_duration vf) (AudioSegment.duration seg)).
  cbn. repeat split; auto. apply py_min_Qmin.
Qed.

Lemma C7_character_overlay_timing_witness :
  exists (st' : LoopState) (c : Clip),
    character_clips st' = [c]
    /\ clip_start c = 86 # 10
    /\ (exists d, clip_duration c = Some d /\ d == 25 # 10)
    /\ clip_has_audio c = false.
Proof.
  pose (st := mkLoopState [] [] [] (86 # 10)).
  pose (index := build_char_video_map (Some [Examples.char2])).
  eassert (Hrun : assemble_segment Examples.lib_ok Examples.assembler_plain
                    Examples.script3 index st Examples.audio2 = (inr _, _))
    by (vm_compute; reflexivity).
  destruct (C7_character_overlay_timing Examples.lib_ok Examples.assembler_plain
              Examples.script3 index st _ Examples.audio2 _
              Examples.char2 (mkVideoFile (512, 512)%Z (5 # 2) true)
              ltac:(vm_compute; reflexivity) ltac:(vm_compute; reflexivity)
              ltac:(discriminate) Hrun)
    as (c & ac & d & Hchars & _ & _ & Hstart & _ & Hdur & Hd & _ & _ & Haudio).
  eexists. exists c. split; [exact Hchars |]. split; [exact Hstart |].
  split; [| exact Haudio].
  exists d. split; [exact Hdur |]. rewrite Hd. reflexivity.
Defined.

(** ** Crop to fill *)


Lemma Qdiv_Z_lt (a b c d : Z) :
  (0 < b)%Z -> (0 < d)%Z ->
  (inject_Z a / inject_Z b < inject_Z c / inject_Z d <-> (a * d < c * b)%Z).
Proof.
  intros Hb Hd. destruct b as [| pb | pb]; try lia. destruct d as [| pd | pd]; try lia.
  unfold Qlt, Qdiv, Qmult, Qinv, inject_Z. cbn. lia.
Qed.


Lemma inject_Z_nonzero (b : Z) : (b <> 0)%Z -> Qeq_bool (inject_Z b) 0 = false.
Proof.
  intros Hb. apply not_true_is_false. intros Hq. apply Qeq_bool_eq in Hq.
  unfold Qeq in Hq. cbn in Hq. lia.
Qed.





Lemma bind_lift_inr {A B : Type} (a : A) (f : A -> M B) : bind (lift (inr a)) f = f a.
Proof. apply bind_ret_l. Qed.





(** C6 is violated by the code: the pixel counts are cut from floats.  For a
    frame of 280 x 480 and a source of 280 x 480 the ratio 280 / 480 is
    rounded up, the quotient 280 / ratio falls below 480 and is cut to 479,
    and the crop keeps the rows 0 to 479 of the 480: the result is 280 x 479.
    With the default frame a source of 164 x 160 keeps the target size, but
    is cropped one pixel left of the centred window, which the exact
    arithmetic of [_resize_and_crop] gives.  For the landscape source of the
    examples both arithmetics agree. *)
Theorem C6_resize_and_crop_misses_the_target :
  let source (w h : Z) :=
    mkClip (SrcFile "bg.mp4") [] (w, h) (Some 10) 0 (Some 10) default_pos None None true in
  (exists out,
      Rounded._resize_and_crop StageExamples.assembler_280 (source 280 480)%Z = (inr out, [])
      /\ clip_ops out = [OpResize 280 480; OpCrop 0 0 280 479]
      /\ clip_size out = (280, 479)%Z)
  /\ (exists out centred,
        Rounded._resize_and_crop Examples.assembler_plain (source 164 160)%Z = (inr out, [])
        /\ clip_ops out = [OpResize 1968 1920; OpCrop 443 0 1523 1920]
        /\ clip_size out = (1080, 1920)%Z
        /\ _resize_and_crop Examples.assembler_plain (source 164 160)%Z = (inr centred, [])
        /\ clip_ops centred = [OpResize 1968 1920; OpCrop 444 0 1524 1920])
  /\ Rounded._resize_and_crop Examples.assembler_plain Examples.landscape
     = _resize_and_crop Examples.assembler_plain Examples.landscape.
Proof.
  cbv zeta. split; [| split].
  - eexists. split; [vm_compute; reflexivity |]. split; reflexivity.
  - eexists. eexists. split; [vm_compute; reflexivity |].
    split; [reflexivity |]. split; [reflexivity |].
    split; [vm_compute; reflexivity | reflexivity].
  - vm_compute. reflexivity.
Qed.

(** ** Background looping *)



Lemma VideoFileClip_fail (lib : Lib) (path : string) :
  lib_VideoFileClip lib path = None ->
  VideoFileClip lib path = (inl (LibraryError (CallVideoFileClip path)), []).
Proof. intros H. unfold VideoFileClip. rewrite H. reflexivity. Qed.



(** ** Failures during assembly *)

(** Effects without a video export compose. *)
Lemma bind_no_write {A B : Type} (m : M A) (f : A -> M B) :
  wrote_video (effects m) = false ->
  (forall a, wrote_video (effects (f a)) = false) ->
  wrote_video (effects (bind m f)) = false.
Proof.
  unfold bind, effects. destruct m as [[e | a] t]; cbn [snd]; intros Hm Hf; [exact Hm |].
  specialize (Hf a). destruct (f a) as [r t']. cbn [snd] in *.
  rewrite wrote_video_app, Hm, Hf. reflexivity.
Qed.

Lemma try_except_no_write {A : Type} (body : M A) (handler : exn -> M A) :
  wrote_video (effects body) = false ->
  (forall e, wrote_video (effects (handler e)) = false) ->
  wrote_video (effects (try_except body handler)) = false.
Proof.
  unfold try_except, effects. destruct body as [[e | a] t]; cbn [snd]; intros Hm Hh;
    [| exact Hm].
  specialize (Hh e). destruct (handler e) as [r t']. cbn [snd] in *.
  rewrite wrote_video_app, Hm, Hh. reflexivity.
Qed.

Lemma lift_no_write {A : Type} (r : Result A) : wrote_video (effects (lift r)) = false.
Proof. reflexivity. Qed.

Lemma VideoFileClip_no_write (lib : Lib) (path : string) :
  wrote_video (effects (VideoFileClip lib path)) = false.
Proof. unfold VideoFileClip. destruct (lib_VideoFileClip lib path); reflexivity. Qed.

Lemma AudioFileClip_no_write (lib : Lib) (path : string) :
  wrote_video (effects (AudioFileClip lib path)) = false.
Proof. unfold AudioFileClip. destruct (lib_AudioFileClip lib path); reflexivity. Qed.

Lemma TextClip_no_write (lib : Lib) (args : TextClipArgs) :
  wrote_video (effects (TextClip lib args)) = false.
Proof. unfold TextClip. destruct (lib_TextClip lib args); reflexivity. Qed.

Ltac no_write :=
  repeat first
    [ reflexivity
    | apply lift_no_write
    | apply VideoFileClip_no_write
    | apply AudioFileClip_no_write
    | apply TextClip_no_write
    | apply bind_no_write; [| intros ?]
    | apply try_except_no_write; [| intros ?]
    | match goal with
      | |- context [match ?x with _ => _ end] => destruct x
      end ].

Lemma _resize_and_crop_no_write (self : VideoAssembler.t) (clip : Clip) :
  wrote_video (effects (_resize_and_crop self clip)) = false.
Proof. unfold _resize_and_crop. no_write. Qed.

Lemma _get_background_clip_no_write (lib : Lib) (self : VideoAssembler.t) (duration : Q) :
  wrote_video (effects (_get_background_clip lib self duration)) = false.
Proof.
  unfold _get_background_clip.
  destruct (VideoAssembler.background_videos self); [reflexivity |].
  apply bind_no_write; [unfold random_choice; no_write | intros bg_path].
  apply bind_no_write; [apply VideoFileClip_no_write | intros clip].
  apply bind_no_write; [apply _resize_and_crop_no_write | intros clip'].
  apply bind_no_write; [unfold loop_if_needed; no_write | intros clip''].
  reflexivity.
Qed.

Lemma _create_text_clip_no_write (lib : Lib) (self : VideoAssembler.t)
    (text : string) (duration : Q) (segment_type voice : string) :
  wrote_video (effects (_create_text_clip lib self text duration segment_type voice)) = false.
Proof. unfold _create_text_clip. no_write. Qed.

Lemma _create_character_clip_no_write (lib : Lib) (self : VideoAssembler.t)
    (path : string) (duration start_time : Q) :
  wrote_video (effects (_create_character_clip lib self path duration start_time)) = false.
Proof.
  pose proof (_create_character_clip_cases lib self path duration start_time) as H.
  destruct (lib_VideoFileClip lib path) as [vf |].
  - destruct (Z.eqb (fst (vf_size vf)) 0).
    + rewrite H. reflexivity.
    + destruct H as (c & -> & _). reflexivity.
  - rewrite H. reflexivity.
Qed.

Lemma assemble_segment_no_write (lib : Lib) (self : VideoAssembler.t)
    (script : GeneratedScript.t) (char_video_map : gmap Z CharacterVideo.t)
    (st : LoopState) (seg : AudioSegment.t) :
  wrote_video (effects (assemble_segment lib self script char_video_map st seg)) = false.
Proof.
  unfold assemble_segment.
  apply bind_no_write; [apply lift_no_write | intros script_seg].
  apply bind_no_write; [apply AudioFileClip_no_write | intros audio_clip].
  apply bind_no_write; [apply _create_text_clip_no_write | intros text_clip].
  apply bind_no_write; [| intros chars; reflexivity].
  unfold add_character_clip.
  destruct (char_video_map !! AudioSegment.segment_index seg); [| reflexivity].
  apply bind_no_write; [apply _create_character_clip_no_write | intros [c |]; reflexivity].
Qed.

Lemma for_each_no_write {S A : Type} (body : S -> A -> M S) (xs : list A) (st : S) :
  (forall st x, wrote_video (effects (body st x)) = false) ->
  wrote_video (effects (for_each body xs st)) = false.
Proof.
  intros Hbody. revert st. induction xs as [| x xs IH]; intros st; simpl; [reflexivity |].
  apply bind_no_write; [apply Hbody | intros st'; apply IH].
Qed.

(** A raise after effects without an export leaves no export. *)
Lemma bind_raise_no_write {A B : Type} (m : M A) (f : A -> M B) (e : exn) :
  wrote_video (effects m) = false ->
  (forall a, result (f a) = inl e -> wrote_video (effects (f a)) = false) ->
  result (bind m f) = inl e ->
  wrote_video (effects (bind m f)) = false.
Proof.
  unfold bind, effects, result. destruct m as [[e' | a] t]; cbn [fst snd];
    intros Hm Hf Hr; [exact Hm |].
  specialize (Hf a). destruct (f a) as [r t']. cbn [fst snd] in *.
  rewrite wrote_video_app, Hm, (Hf Hr). reflexivity.
Qed.

(** Whenever [assemble_video] raises, no video has been exported. *)
Lemma assemble_video_raise_no_output (lib : Lib) (self : VideoAssembler.t)
    (script : GeneratedScript.t) (segs : list AudioSegment.t) (output_path : string)
    (character_videos : option (list CharacterVideo.t)) (e : exn) :
  result (assemble_video lib self script segs output_path character_videos) = inl e ->
  wrote_video (effects (assemble_video lib self script segs output_path character_videos))
  = false.
Proof.
  unfold assemble_video.
  apply bind_raise_no_write; [apply _get_background_clip_no_write | intros bg].
  apply bind_raise_no_write;
    [apply for_each_no_write; intros; apply assemble_segment_no_write | intros st].
  apply bind_raise_no_write; [unfold _create_subreddit_badge; no_write | intros badge].
  apply bind_raise_no_write; [unfold CompositeAudioClip; no_write | intros final_audio].
  apply bind_raise_no_write; [unfold CompositeVideoClip; no_write | intros final_video].
  apply bind_raise_no_write; [reflexivity | intros u].
  unfold write_videofile. destruct (lib_write_videofile lib _ _); [discriminate | reflexivity].
Qed.

(** A loop raises when one of its elements makes the body raise in every state. *)
Lemma for_each_raises {S A : Type} (body : S -> A -> M S) (xs : list A) (x : A) (st : S) :
  In x xs ->
  (forall st', exists e, result (body st' x) = inl e) ->
  exists e, result (for_each body xs st) = inl e.
Proof.
  intros Hin Hx. revert st. induction xs as [| y ys IH]; intros st; [destruct Hin |].
  simpl. unfold bind, result.
  destruct (body st y) as [[e | st1] t] eqn:Hstep; cbn [fst]; [eauto |].
  destruct Hin as [-> | Hin].
  - destruct (Hx st) as [e He]. unfold result in He. rewrite Hstep in He. discriminate.
  - destruct (IH Hin st1) as [e He]. unfold result in He.
    destruct (for_each body ys st1) as [r t']. cbn [fst] in *. eauto.
Qed.

(** An iteration raises when neither rendering of its caption succeeds. *)
Lemma assemble_segment_caption_raises (lib : Lib) (self : VideoAssembler.t)
    (script : GeneratedScript.t) (char_video_map : gmap Z CharacterVideo.t)
    (seg : AudioSegment.t) (script_seg : ScriptSegment.t) :
  py_getitem (GeneratedScript.segments script) (AudioSegment.segment_index seg)
    = inr script_seg ->
  (exists e,
     result (_create_text_clip lib self (shown_text script_seg) (AudioSegment.duration seg)
               (ScriptSegment.type script_seg) (ScriptSegment.voice script_seg)) = inl e) ->
  forall st, exists e,
    result (assemble_segment lib self script char_video_map st seg) = inl e.
Proof.
  intros Hget Htext st. unfold assemble_segment. rewrite Hget, bind_lift_inr.
  unfold bind at 1. destruct (AudioFileClip lib _) as [[e | ac] t]; [eexists; reflexivity |].
  destruct Htext as [e He].
  unfold result in He. unfold bind at 1.
  destruct (_create_text_clip lib self _ _ _ _) as [[e' | c] t']; [| discriminate].
  eexists. reflexivity.
Qed.

Lemma bind_raises {A B : Type} (m : M A) (f : A -> M B) :
  (forall a, exists e, result (f a) = inl e) ->
  exists e, result (bind m f) = inl e.
Proof.
  intros Hf. unfold bind, result. destruct m as [[e | a] t]; cbn [fst]; [eauto |].
  destruct (Hf a) as [e He]. unfold result in He.
  destruct (f a) as [r t']. cbn [fst] in *. eauto.
Qed.

Lemma bind_raises_first {A B : Type} (m : M A) (f : A -> M B) :
  (exists e, result m = inl e) ->
  exists e, result (bind m f) = inl e.
Proof.
  intros [e He]. unfold bind, result in *. destruct m as [[e' | a] t]; cbn [fst] in *;
    [eauto | discriminate].
Qed.

(** The claim C2 fails on the code: with a character video that cannot be
    opened, and likewise with a styled caption that cannot be rendered,
    [assemble_video] still returns [True] and exports the video. *)
Lemma C2_overlay_failures_do_not_abort :
  let with_bad_character :=
    assemble_video Examples.lib_no_video Examples.assembler_plain Examples.script3
      [Examples.audio0; Examples.audio1; Examples.audio2] "out.mp4"
      (Some [Examples.char2]) in
  let with_bad_caption :=
    assemble_video Examples.lib_no_caption Examples.assembler_plain Examples.script3
      [Examples.audio0; Examples.audio1; Examples.audio2] "out.mp4" None in
  (build_char_video_map (Some [Examples.char2]) !! 2%Z = Some Examples.char2
   /\ lib_VideoFileClip Examples.lib_no_video "char.mp4" = None
   /\ result with_bad_character = inr true
   /\ wrote_video (effects with_bad_character) = true
   /\ ~ aborts with_bad_character)
  /\ ((forall args, tc_method args = "caption"%string ->
         lib_TextClip Examples.lib_no_caption args = None)
      /\ result with_bad_caption = inr true
      /\ wrote_video (effects with_bad_caption) = true
      /\ ~ aborts with_bad_caption).
Proof.
  cbv zeta. split.
  - split; [vm_compute; reflexivity |]. split; [reflexivity |].
    split; [vm_compute; reflexivity |]. split; [vm_compute; reflexivity |].
    intros [_ Hquiet]. vm_compute in Hquiet. discriminate.
  - split.
    { intros args Hm. unfold Examples.lib_no_caption. cbn. rewrite Hm. reflexivity. }
    split; [vm_compute; reflexivity |]. split; [vm_compute; reflexivity |].
    intros [_ Hquiet]. vm_compute in Hquiet. discriminate.
Qed.

(** C2, amended: whenever [assemble_video] raises, no export of the video has
    completed; a background file that cannot be opened makes it raise before
    anything else is done, and a caption of which neither the styled nor the
    plain rendering succeeds makes it raise before the export.  A styled
    caption that fails alone is replaced by a plain centred label, and a
    character overlay that cannot be created is left out: in both cases the
    assembly goes on. *)
Theorem C2_failure_semantics_by_stage
    (lib : Lib) (self : VideoAssembler.t) (script : GeneratedScript.t)
    (segs : list AudioSegment.t) (output_path : string)
    (character_videos : option (list CharacterVideo.t)) :
  let run := assemble_video lib self script segs output_path character_videos in
  (forall e, result run = inl e -> wrote_video (effects run) = false)
  /\ (forall bg_path,
        random_choice lib (VideoAssembler.background_videos self) = (inr bg_path, []) ->
        lib_VideoFileClip lib bg_path = None ->
        run = (inl (LibraryError (CallVideoFileClip bg_path)), []))
  /\ (forall seg script_seg,
        In seg segs ->
        py_getitem (GeneratedScript.segments script) (AudioSegment.segment_index seg)
          = inr script_seg ->
        (exists e,
           result (_create_text_clip lib self (shown_text script_seg)
                     (AudioSegment.duration seg) (ScriptSegment.type script_seg)
                     (ScriptSegment.voice script_seg)) = inl e) ->
        aborts run)
  /\ (forall text d ty vo,
        (forall args, tc_method args = "caption"%string -> lib_TextClip lib args = None) ->
        (forall args, tc_method args = "label"%string -> lib_TextClip lib args <> None) ->
        exists c,
          _create_text_clip lib self text d ty vo = (inr c, [])
          /\ clip_source c
             = SrcText (wrap_text lib text (max_width (caption_style self ty vo))) "label"
          /\ clip_pos c = PosStr "center"
          /\ clip_duration c = Some d)
  /\ (forall path d t, exists r tr,
        _create_character_clip lib self path d t = (inr r, tr))
  /\ (forall char_video_map seg t clips cv,
        char_video_map !! AudioSegment.segment_index seg = Some cv ->
        lib_VideoFileClip lib (CharacterVideo.video_path cv) = None ->
        add_character_clip lib self char_video_map seg t clips = (inr clips, [])).
Proof.
  intros run.
  assert (Hquiet : forall e, result run = inl e -> wrote_video (effects run) = false)
    by (intros e; apply assemble_video_raise_no_output).
  split; [exact Hquiet |]. split; [| split; [| split; [| split]]].
  - intros bg_path Hchoice Hvf. subst run. unfold assemble_video, _get_background_clip.
    revert Hchoice.
    destruct (VideoAssembler.background_videos self) as [| p rest]; intros Hchoice.
    { unfold random_choice in Hchoice. cbn in Hchoice.
      destruct (lib_random lib); discriminate. }
    rewrite (bind_inr _ _ _ _ Hchoice).
    rewrite (bind_inl _ _ _ _ (VideoFileClip_fail lib bg_path Hvf)). reflexivity.
  - intros seg script_seg Hin Hget Hcap.
    assert (Hraise : exists e, result run = inl e).
    { subst run. unfold assemble_video. apply bind_raises. intros bg.
      apply bind_raises_first.
      apply (for_each_raises _ segs seg initial_state Hin).
      apply (assemble_segment_caption_raises _ _ _ _ _ script_seg Hget Hcap). }
    split; [exact Hraise |]. destruct Hraise as [e He]. exact (Hquiet e He).
  - intros text d ty vo Hcaption Hlabel.
    unfold _create_text_clip, try_except, TextClip.
    rewrite Hcaption by reflexivity. cbn [bind raise].
    match goal with
    | |- context [lib_TextClip lib ?args] =>
        pose proof (Hlabel args eq_refl) as Hsome;
        destruct (lib_TextClip lib args) as [sz |] eqn:Hl; [| congruence]
    end.
    eexists. split; [reflexivity |]. cbn. auto.
  - intros path d t.
    pose proof (_create_character_clip_cases lib self path d t) as H.
    destruct (lib_VideoFileClip lib path) as [vf |]; [| eauto].
    destruct (Z.eqb (fst (vf_size vf)) 0); [eauto |].
    destruct H as (c & Hc & _). eauto.
  - intros char_video_map seg t clips cv Hlookup Hvf.
    unfold add_character_clip. rewrite Hlookup.
    pose proof (_create_character_clip_cases lib self (CharacterVideo.video_path cv)
                  (AudioSegment.duration seg) t) as H.
    rewrite Hvf in H. rewrite H. reflexivity.
Qed.

Lemma C2_failure_semantics_by_stage_witness :
  assemble_video Examples.lib_no_video Examples.assembler_bg Examples.script3
    [Examples.audio0] "out.mp4" None
  = (inl (LibraryError (CallVideoFileClip "bg.mp4")), [])
  /\ aborts (assemble_video Examples.lib_no_text Examples.assembler_plain Examples.script3
               [Examples.audio0; Examples.audio1] "out.mp4" None)
  /\ add_character_clip Examples.lib_no_video Examples.assembler_plain
       (build_char_video_map (Some [Examples.char2])) Examples.audio2 0 []
     = (inr [], []).
Proof.
  split; [| split].
  - apply (proj1 (proj2 (C2_failure_semantics_by_stage Examples.lib_no_video
             Examples.assembler_bg Examples.script3 [Examples.audio0] "out.mp4" None))
             "bg.mp4"%string); vm_compute; reflexivity.
  - apply (proj1 (proj2 (proj2 (C2_failure_semantics_by_stage Examples.lib_no_text
             Examples.assembler_plain Examples.script3
             [Examples.audio0; Examples.audio1] "out.mp4" None)))
             Examples.audio1 (ScriptSegment.mk "story" "narrator" "Once" None)).
    + right. left. reflexivity.
    + vm_compute. reflexivity.
    + eexists. vm_compute. reflexivity.
  - apply (proj2 (proj2 (proj2 (proj2 (proj2 (C2_failure_semantics_by_stage
             Examples.lib_no_video Examples.assembler_plain Examples.script3
             [Examples.audio2] "out.mp4" (Some [Examples.char2])))))))
      with (cv := Examples.char2); vm_compute; reflexivity.
Defined.

(** ** The steps of the background preparation *)

(** [_resize_and_crop] performs no tracked effect and leaves source and
    timing of the clip alone; its own arithmetic raises nothing but
    [ZeroDivisionError]. *)
Lemma _resize_and_crop_frame (self : VideoAssembler.t) (clip : Clip) :
  match _resize_and_crop self clip with
  | (inl e, t) => e = ZeroDivisionError /\ t = []
  | (inr out, t) =>
      t = []
      /\ clip_source out = clip_source clip
      /\ clip_duration out = clip_duration clip
      /\ clip_start out = clip_start clip
      /\ clip_end out = clip_end clip
  end.
Proof.
  unfold _resize_and_crop, lift, bind, ret, resize_height, resize_width, py_div.
  repeat match goal with
         | |- context [if ?b then _ else _] => destruct b
         | |- context [match ?x ?= ?y with _ => _ end] => destruct (x ?= y)
         end; cbn; auto.
Qed.

Lemma loop_if_needed_frame (duration : Q) (clip : Clip) :
  match loop_if_needed duration clip with
  | (inl e, t) => t = []
  | (inr out, t) =>
      t = [] /\ clip_source out = clip_source clip /\ clip_start out = clip_start clip
  end.
Proof.
  unfold loop_if_needed, lift, bind, ret, raise, loop, py_div.
  repeat match goal with
         | |- context [match clip_duration clip with _ => _ end] =>
             destruct (clip_duration clip)
         | |- context [if ?b then _ else _] => destruct b
         | |- context [match ?x ?= ?y with _ => _ end] => destruct (x ?= y)
         end; cbn; auto.
Qed.

(** The preparation of the background opens at most one file and does
    nothing else. *)
Lemma _get_background_clip_opens (lib : Lib) (self : VideoAssembler.t) (duration : Q) :
  effects (_get_background_clip lib self duration) = []
  \/ exists p, effects (_get_background_clip lib self duration) = [EvOpen p].
Proof.
  unfold _get_background_clip.
  destruct (VideoAssembler.background_videos self) as [| b rest]; [left; reflexivity |].
  unfold random_choice.
  destruct (nth_error _ _) as [bg_path |]; [| left; reflexivity].
  rewrite bind_ret_l. unfold VideoFileClip.
  destruct (lib_VideoFileClip lib bg_path) as [vf |]; [| left; reflexivity].
  right. exists bg_path. unfold bind, emit, ret, effects.
  match goal with
  | |- context [_resize_and_crop self ?c] =>
      pose proof (_resize_and_crop_frame self c) as Hrc;
      destruct (_resize_and_crop self c) as [[e | out] t1]
  end.
  - destruct Hrc as [_ ->]. reflexivity.
  - destruct Hrc as (-> & _).
    match goal with
    | |- context [loop_if_needed ?d ?c] =>
        pose proof (loop_if_needed_frame d c) as Hl;
        destruct (loop_if_needed d c) as [[e | looped] t2]
    end.
    + subst t2. reflexivity.
    + destruct Hl as (-> & _). reflexivity.
Qed.

(** ** The empty audio-segment sequence *)

(** The claim C1 fails on the code: [assemble_video] has no check of its
    input and no [InvalidInputError] exists.  On an empty sequence it
    computes a total duration of -0.3 s and goes on to prepare the
    background, opening a background file; the run ends only when the empty
    list of audio clips is composed, in the [ValueError] of the library. *)
Lemma C1_empty_sequence_fails_late_with_ValueError :
  total_duration [] == - (3 # 10)
  /\ assemble_video Examples.lib_ok Examples.assembler_bg Examples.script3 []
       "out.mp4" None
     = (inl ValueError, [EvOpen "bg.mp4"]).
Proof. split; [reflexivity | vm_compute; reflexivity]. Qed.

(** The loop of [assemble_video] over no segment does nothing. *)
Lemma assemble_video_empty (lib : Lib) (self : VideoAssembler.t)
    (script : GeneratedScript.t) (output_path : string)
    (character_videos : option (list CharacterVideo.t)) :
  assemble_video lib self script [] output_path character_videos
  = match _get_background_clip lib self (total_duration []) with
    | (inl e, tr) => (inl e, tr)
    | (inr _, tr) => (inl ValueError, tr)
    end.
Proof.
  unfold assemble_video.
  destruct (_get_background_clip lib self (total_duration [])) as [[e | bg] tr];
    [reflexivity |].
  unfold bind at 1. cbn [for_each]. rewrite bind_ret_l.
  destruct (_create_subreddit_badge_total lib self (GeneratedScript.subreddit script)
              (total_duration [])) as [badge Hbadge].
  rewrite (bind_inr _ _ _ _ Hbadge).
  cbn [initial_state audio_clips CompositeAudioClip raise bind fst snd app].
  rewrite !app_nil_r. reflexivity.
Qed.

(** C1, amended: on an empty audio-segment sequence [assemble_video] fails
    and produces no output.  It raises whatever the preparation of the
    background raises, and otherwise the [ValueError] of the empty audio
    composition; in both cases nothing is done beyond the preparation of the
    background: no directory is created and no video is exported. *)
Theorem C1_empty_sequence_fails_without_output
    (lib : Lib) (self : VideoAssembler.t) (script : GeneratedScript.t)
    (output_path : string) (character_videos : option (list CharacterVideo.t)) :
  let run := assemble_video lib self script [] output_path character_videos in
  let background := _get_background_clip lib self (total_duration []) in
  aborts run
  /\ effects run = effects background
  /\ ~ In (EvMkdirParent output_path) (effects run)
  /\ (forall e, result background = inl e -> result run = inl e)
  /\ (forall bg, result background = inr bg -> result run = inl ValueError).
Proof.
  intros run background. subst run. rewrite assemble_video_empty. fold background.
  pose proof (_get_background_clip_no_write lib self (total_duration [])) as Hquiet.
  fold background in Hquiet.
  assert (Hopen : ~ In (EvMkdirParent output_path) (effects background)).
  { pose proof (_get_background_clip_opens lib self (total_duration [])) as Ho.
    fold background in Ho. destruct Ho as [Ho | [p Ho]]; rewrite Ho;
      [intros [] | intros [H | []]; discriminate]. }
  destruct background as [[e | bg] tr]; cbn [result effects fst snd] in *.
  - split; [split; [eauto | exact Hquiet] |].
    split; [reflexivity |]. split; [exact Hopen |].
    split; [intros e' He'; injection He' as ->; reflexivity | discriminate].
  - split; [split; [eauto | exact Hquiet] |].
    split; [reflexivity |]. split; [exact Hopen |].
    split; [discriminate | reflexivity].
Qed.

(** The caller does not reach [assemble_video] with an empty sequence: the
    pipeline records "Audio generation failed" and returns, so nothing is
    opened or written; a video is exported through the pipeline only for a
    non-empty sequence, and then the assembly step has succeeded. *)
Lemma run_assembly_guards_the_empty_sequence
    (lib : Lib) (video_assembler : VideoAssembler.t) (script : GeneratedScript.t)
    (segs : list AudioSegment.t)
    (character_videos : option (list CharacterVideo.t)) (video_path : string) :
  let run :=
    pipeline.run_assembly lib video_assembler script segs character_videos video_path in
  (segs = [] ->
     run = (inr (pipeline.Returned ["Audio generation failed"%string]), []))
  /\ (wrote_video (effects run) = true ->
        segs <> [] /\ result run = inr (pipeline.Assembled video_path)).
Proof.
  intros run. split.
  - intros ->. reflexivity.
  - subst run. destruct segs as [| seg segs]; [cbn; discriminate |].
    intros Hwrote. split; [discriminate |].
    unfold pipeline.run_assembly in *.
    destruct (assemble_video lib video_assembler script (seg :: segs) video_path
                character_videos) as [[e | b] t] eqn:Hrun.
    + pose proof (assemble_video_raise_no_output lib video_assembler script (seg :: segs)
                    video_path character_videos e) as Hquiet.
      rewrite Hrun in Hquiet. specialize (Hquiet eq_refl).
      change (wrote_video t = true) in Hwrote. change (wrote_video t = false) in Hquiet.
      congruence.
    + apply assemble_video_inv in Hrun
        as (bg & st & captions & tr_bg & tr_loop & _ & _ & _ & -> & _).
      reflexivity.
Qed.

(** ** The thumbnail *)

(** Without background videos, [create_thumbnail] never raises: every failure
    of the rendering is turned into [False]. *)
Lemma create_thumbnail_solid_never_raises (lib : Lib) (self : VideoAssembler.t)
    (script : GeneratedScript.t) (output_path : string) :
  VideoAssembler.background_videos self = [] ->
  exists b tr, create_thumbnail lib self script output_path = (inr b, tr).
Proof.
  intros Hbg. unfold create_thumbnail. rewrite Hbg. rewrite bind_ret_l.
  unfold try_except.
  match goal with
  | |- context [match ?body with _ => _ end] => destruct body as [[e | b] t]
  end; eauto.
Qed.

(** C9 is violated by the code: the background source is loaded before the
    [try] block, so a background file that cannot be opened makes
    [create_thumbnail] raise instead of returning [False]. *)
Theorem C9_thumbnail_background_failure_propagates :
  create_thumbnail Examples.lib_no_video Examples.assembler_bg Examples.script3 "thumb.jpg"
  = (inl (LibraryError (CallVideoFileClip "bg.mp4")), []).
Proof. vm_compute. reflexivity. Qed.

(** ** Runs that return *)

Lemma for_each_returns {S A : Type} (body : S -> A -> M S) (xs : list A) (st : S) :
  (forall st' x, In x xs -> exists st'' tr, body st' x = (inr st'', tr)) ->
  exists st' tr, for_each body xs st = (inr st', tr).
Proof.
  revert st. induction xs as [| x xs IH]; intros st Hbody; simpl.
  - eexists. eexists. reflexivity.
  - destruct (Hbody st x (or_introl eq_refl)) as (st1 & t1 & Hstep).
    destruct (IH st1) as (st2 & t2 & Hrest).
    { intros st' y Hy. apply Hbody. right. exact Hy. }
    rewrite (bind_inr _ _ _ _ Hstep), Hrest. eexists. eexists. reflexivity.
Qed.

(** With a library in which audio files open, texts render and the final
    composition and export succeed, [assemble_video] over a solid-color
    background returns [True] for every non-empty sequence of segments that
    refer to script segments. *)
Lemma assemble_video_returns (lib : Lib) (self : VideoAssembler.t)
    (script : GeneratedScript.t) (segs : list AudioSegment.t) (output_path : string)
    (character_videos : option (list CharacterVideo.t)) :
  VideoAssembler.background_videos self = [] ->
  segs <> [] ->
  (forall seg, In seg segs ->
     exists script_seg,
       py_getitem (GeneratedScript.segments script) (AudioSegment.segment_index seg)
       = inr script_seg) ->
  (forall seg, In seg segs -> lib_AudioFileClip lib (AudioSegment.audio_path seg) <> None) ->
  (forall args, lib_TextClip lib args <> None) ->
  (forall clips, clips <> [] -> lib_CompositeAudioClip lib clips = true) ->
  (forall clips, lib_CompositeVideoClip lib clips = true) ->
  (forall path video, lib_write_videofile lib path video = true) ->
  exists tr, assemble_video lib self script segs output_path character_videos = (inr true, tr).
Proof.
  intros Hbg Hne Hidx Haudio Htext Hca Hcv Hwrite.
  unfold assemble_video, _get_background_clip. rewrite Hbg, bind_ret_l.
  destruct (for_each_returns
              (assemble_segment lib self script (build_char_video_map character_videos))
              segs initial_state) as (st & tr_loop & Hloop).
  { intros st' seg Hin. destruct (Hidx seg Hin) as [script_seg Hget].
    unfold assemble_segment. rewrite Hget, bind_lift_inr.
    unfold AudioFileClip.
    destruct (lib_AudioFileClip lib (AudioSegment.audio_path seg)) as [native |] eqn:Ha;
      [| destruct (Haudio seg Hin Ha)].
    assert (Htc : exists tc, _create_text_clip lib self (shown_text script_seg)
                    (AudioSegment.duration seg) (ScriptSegment.type script_seg)
                    (ScriptSegment.voice script_seg) = (inr tc, [])).
    { unfold _create_text_clip, try_except, TextClip.
      match goal with
      | |- context [lib_TextClip lib ?args] =>
          destruct (lib_TextClip lib args) as [sz |] eqn:Ht; [| destruct (Htext _ Ht)]
      end.
      eexists. reflexivity. }
    destruct Htc as [tc Htc].
    assert (Hch : exists chars tr, add_character_clip lib self
                    (build_char_video_map character_videos) seg (current_time st')
                    (character_clips st') = (inr chars, tr)).
    { unfold add_character_clip.
      destruct (build_char_video_map character_videos !! AudioSegment.segment_index seg)
        as [cv |]; [| eexists; eexists; reflexivity].
      pose proof (_create_character_clip_cases lib self (CharacterVideo.video_path cv)
                    (AudioSegment.duration seg) (current_time st')) as H.
      destruct (lib_VideoFileClip lib (CharacterVideo.video_path cv)) as [vf |].
      - destruct (Z.eqb (fst (vf_size vf)) 0).
        + rewrite H. eexists. eexists. reflexivity.
        + destruct H as (c & -> & _). eexists. eexists. reflexivity.
      - rewrite H. eexists. eexists. reflexivity. }
    destruct Hch as (chars & trc & Hch).
    cbn [bind emit ret]. rewrite Htc. cbn [bind]. rewrite Hch.
    eexists. eexists. reflexivity. }
  rewrite (bind_inr _ _ _ _ Hloop).
  destruct (_create_subreddit_badge_total lib self (GeneratedScript.subreddit script)
              (total_duration segs)) as [badge Hbadge].
  cbn [fst snd]. rewrite (bind_inr _ _ _ _ Hbadge).
  assert (Hclips : audio_clips st <> []).
  { pose proof (proj1 (for_each_starts lib self script _ _ _ _ _ Hloop)) as Hstarts.
    apply (f_equal (@List.length Q)) in Hstarts.
    rewrite length_app, !length_map, timeline_from_length, length_map in Hstarts.
    cbn in Hstarts. intros Hnil. rewrite Hnil in Hstarts. cbn in Hstarts.
    destruct segs; [contradiction Hne; reflexivity | discriminate]. }
  unfold CompositeAudioClip, CompositeVideoClip, write_videofile.
  cbn [fst snd]. rewrite (Hca _ Hclips).
  destruct (audio_clips st) as [| clip clips]; [contradiction Hclips; reflexivity |].
  rewrite bind_ret_l. rewrite Hcv. rewrite bind_ret_l.
  cbn [bind emit]. rewrite Hwrite. eexists. reflexivity.
Qed.


(** * Further properties of the assembly stage and of its callers *)

(** ** What [assemble_video] returns *)

(** X1: [assemble_video] returns [True] or raises, it never returns [False];
    hence the pipeline never records "Video assembly failed". *)
Theorem X1_assemble_video_never_returns_false
    (lib : Lib) (self : VideoAssembler.t) (script : GeneratedScript.t)
    (segs : list AudioSegment.t) (output_path : string)
    (character_videos : option (list CharacterVideo.t)) :
  result (assemble_video lib self script segs output_path character_videos) <> inr false
  /\ result (pipeline.run_assembly lib self script segs character_videos output_path)
     <> inr (pipeline.Returned ["Video assembly failed"%string]).
Proof.
  assert (Hav : forall segs',
             result (assemble_video lib self script segs' output_path character_videos)
             <> inr false).
  { intros segs' Hfalse.
    destruct (assemble_video lib self script segs' output_path character_videos)
      as [r t] eqn:Hrun.
    cbn in Hfalse. subst r.
    apply assemble_video_inv in Hrun
      as (bg & st & captions & tr_bg & tr_loop & _ & _ & _ & Hb & _).
    discriminate. }
  split; [apply Hav |].
  destruct segs as [| seg segs]; [cbn; discriminate |].
  unfold pipeline.run_assembly. specialize (Hav (seg :: segs)).
  destruct (assemble_video lib self script (seg :: segs) output_path character_videos)
    as [[e | b] t]; cbn in *; [discriminate |].
  destruct b; [discriminate | congruence].
Qed.

(** ** Segments that cannot be assembled *)

(** An index outside [-len, len) has no element. *)
Lemma py_getitem_out_of_range {A : Type} (l : list A) (i : Z) :
  (i < - Z.of_nat (List.length l) \/ Z.of_nat (List.length l) <= i)%Z ->
  py_getitem l i = inl IndexError.
Proof.
  intros Hi. unfold py_getitem.
  destruct (Z.ltb_spec i 0) as [Hneg | Hpos].
  - destruct (Z.ltb_spec (i + Z.of_nat (List.length l)) 0) as [_ | Hge]; [reflexivity |].
    lia.
  - destruct (Z.ltb_spec i 0) as [Hlt | _]; [lia |].
    destruct (nth_error l (Z.to_nat i)) eqn:Hnth; [| reflexivity].
    assert (Hlt : (Z.to_nat i < List.length l)%nat)
      by (apply nth_error_Some; rewrite Hnth; discriminate).
    lia.
Qed.

Lemma assemble_segment_lookup_raises (lib : Lib) (self : VideoAssembler.t)
    (script : GeneratedScript.t) (char_video_map : gmap Z CharacterVideo.t)
    (seg : AudioSegment.t) (e : exn) :
  py_getitem (GeneratedScript.segments script) (AudioSegment.segment_index seg) = inl e ->
  forall st, result (assemble_segment lib self script char_video_map st seg) = inl e.
Proof. intros Hget st. unfold assemble_segment. rewrite Hget. reflexivity. Qed.

Lemma assemble_segment_audio_raises (lib : Lib) (self : VideoAssembler.t)
    (script : GeneratedScript.t) (char_video_map : gmap Z CharacterVideo.t)
    (seg : AudioSegment.t) :
  lib_AudioFileClip lib (AudioSegment.audio_path seg) = None ->
  forall st, exists e,
    result (assemble_segment lib self script char_video_map st seg) = inl e.
Proof.
  intros Haudio st. unfold assemble_segment.
  destruct (py_getitem _ _) as [e | script_seg]; [eexists; reflexivity |].
  rewrite bind_lift_inr. unfold AudioFileClip. rewrite Haudio. eexists. reflexivity.
Qed.

(** X2: a segment whose [segment_index] lies outside the script's segments,
    or whose audio file cannot be opened, makes [assemble_video] raise, and
    no video is exported. *)
Theorem X2_bad_segment_aborts_assembly
    (lib : Lib) (self : VideoAssembler.t) (script : GeneratedScript.t)
    (segs : list AudioSegment.t) (output_path : string)
    (character_videos : option (list CharacterVideo.t)) (seg : AudioSegment.t) :
  In seg segs ->
  let n := Z.of_nat (List.length (GeneratedScript.segments script)) in
  (AudioSegment.segment_index seg < - n)%Z \/ (n <= AudioSegment.segment_index seg)%Z
  \/ lib_AudioFileClip lib (AudioSegment.audio_path seg) = None ->
  aborts (assemble_video lib self script segs output_path character_videos).
Proof.
  intros Hin n Hbad.
  assert (Hraise : exists e,
             result (assemble_video lib self script segs output_path character_videos)
             = inl e).
  { unfold assemble_video. apply bind_raises. intros bg. apply bind_raises_first.
    apply (for_each_raises _ segs seg initial_state Hin). intros st.
    destruct Hbad as [Hlo | [Hhi | Haudio]].
    - exists IndexError. apply assemble_segment_lookup_raises.
      apply py_getitem_out_of_range. left. exact Hlo.
    - exists IndexError. apply assemble_segment_lookup_raises.
      apply py_getitem_out_of_range. right. exact Hhi.
    - apply assemble_segment_audio_raises. exact Haudio. }
  split; [exact Hraise |]. destruct Hraise as [e He].
  exact (assemble_video_raise_no_output _ _ _ _ _ _ e He).
Qed.

Lemma X2_bad_segment_aborts_assembly_witness :
  aborts (assemble_video Examples.lib_ok Examples.assembler_plain Examples.script3
            [Examples.audio0; AudioSegment.mk 3 "story" "narrator" "x" "seg3.mp3" 2]
            "out.mp4" None).
Proof.
  apply (X2_bad_segment_aborts_assembly Examples.lib_ok Examples.assembler_plain
           Examples.script3 _ "out.mp4" None
           (AudioSegment.mk 3 "story" "narrator" "x" "seg3.mp3" 2)).
  - right. left. reflexivity.
  - right. left. cbn. lia.
Defined.

(** ** The background layer *)

Lemma subclip0_nonneg (D : Q) (c : Clip) :
  0 <= D ->
  clip_source (subclip0 D c) = clip_source c
  /\ clip_start (subclip0 D c) = clip_start c
  /\ clip_duration (subclip0 D c) = Some (D - 0)
  /\ clip_end (subclip0 D c) = Some (clip_start c + (D - 0)).
Proof.
  intros HD. unfold subclip0.
  destruct (D ?= 0) eqn:Hcmp; cbn; auto.
  apply Qlt_alt in Hcmp. exfalso. apply (Qlt_not_le _ _ Hcmp HD).
Qed.

Lemma random_choice_member (lib : Lib) (seq : list string) (p : string) (t : list event) :
  random_choice lib seq = (inr p, t) -> In p seq /\ t = [].
Proof.
  unfold random_choice.
  destruct (nth_error seq (lib_random lib mod List.length seq)) as [x |] eqn:Hnth;
    [| discriminate].
  intros H. injection H as <- <-. split; [| reflexivity].
  apply (nth_error_In _ _ Hnth).
Qed.

(** X3: [_resize_and_crop] raises [ZeroDivisionError], before it touches the
    clip, when the configured height or the clip's height is zero (in both
    arithmetics), and, for a positive frame and a clip of positive height,
    when the clip's width is zero. *)
Theorem X3_resize_and_crop_zero_division (self : VideoAssembler.t) (clip : Clip) :
  let W := VideoConfig.width (VideoAssembler.config self) in
  let H := VideoConfig.height (VideoAssembler.config self) in
  (H = 0%Z \/ clip_h clip = 0%Z ->
     _resize_and_crop self clip = (inl ZeroDivisionError, [])
     /\ Rounded._resize_and_crop self clip = (inl ZeroDivisionError, []))
  /\ ((0 < W)%Z -> (0 < H)%Z -> (0 < clip_h clip)%Z -> clip_w clip = 0%Z ->
        _resize_and_crop self clip = (inl ZeroDivisionError, [])).
Proof.
  intros W H. split.
  - intros Hzero. split.
    + unfold _resize_and_crop, py_div. fold H.
      destruct Hzero as [-> | Hh]; [reflexivity |].
      rewrite Hh. destruct (Qeq_bool (inject_Z H) 0); reflexivity.
    + unfold Rounded._resize_and_crop, Binary64.truediv. fold H.
      destruct Hzero as [-> | Hh]; [reflexivity |].
      rewrite Hh. destruct (Z.eqb H 0); reflexivity.
  - intros HW HH Hh Hw. unfold _resize_and_crop, py_div. fold W H.
    rewrite (inject_Z_nonzero H), (inject_Z_nonzero (clip_h clip)) by lia.
    rewrite !bind_lift_inr, Hw.
    assert (Hlt : (inject_Z 0 / inject_Z (clip_h clip) ?= inject_Z W / inject_Z H) = Lt)
      by (apply (proj1 (Qlt_alt _ _)); apply Qdiv_Z_lt; lia).
    rewrite Hlt.
    assert (Hq : Qeq_bool (inject_Z 0 / inject_Z (clip_h clip)) 0 = true).
    { apply Qeq_bool_iff. unfold Qdiv. apply Qmult_0_l. }
    rewrite Hq. reflexivity.
Qed.

Lemma X3_resize_and_crop_zero_division_witness :
  Rounded._resize_and_crop Examples.assembler_plain
    (mkClip (SrcFile "flat.mp4") [] (1920, 0)%Z (Some 10) 0 (Some 10) default_pos
            None None false)
  = (inl ZeroDivisionError, [])
  /\ _resize_and_crop Examples.assembler_plain
       (mkClip (SrcFile "thin.mp4") [] (0, 1080)%Z (Some 10) 0 (Some 10) default_pos
               None None false)
     = (inl ZeroDivisionError, [])
  /\ Rounded._resize_and_crop Examples.assembler_plain
       (mkClip (SrcFile "thin.mp4") [] (0, 1080)%Z (Some 10) 0 (Some 10) default_pos
               None None false)
     = (inl ZeroDivisionError, []).
Proof.
  split; [| split].
  - apply (proj1 (X3_resize_and_crop_zero_division Examples.assembler_plain _)).
    right. reflexivity.
  - apply (proj2 (X3_resize_and_crop_zero_division Examples.assembler_plain _));
      reflexivity.
  - vm_compute. reflexivity.
Defined.

(** Timing and origin of a background layer. *)
Lemma _get_background_clip_timing
    (lib : Lib) (self : VideoAssembler.t) (D : Q) (bg : Clip) (tr : list event) :
  _get_background_clip lib self D = (inr bg, tr) ->
  0 <= D ->
  clip_start bg = 0
  /\ (exists d, clip_duration bg = Some d /\ d == D)
  /\ (exists e, clip_end bg = Some e /\ e == D)
  /\ ((VideoAssembler.background_videos self = [] /\ tr = []
       /\ clip_source bg = SrcColor 30 30 40
       /\ clip_size bg = (VideoConfig.width (VideoAssembler.config self),
                          VideoConfig.height (VideoAssembler.config self)))
      \/ (exists p, In p (VideoAssembler.background_videos self) /\ tr = [EvOpen p]
                    /\ clip_source bg = SrcFile p)).
Proof.
  intros Hrun HD. unfold _get_background_clip in Hrun.
  destruct (VideoAssembler.background_videos self) as [| p0 rest] eqn:Hpool.
  - unfold ret in Hrun. injection Hrun as <- <-. cbn.
    split; [reflexivity |]. split; [exists D; split; reflexivity |].
    split; [exists (0 + D); split; [reflexivity | ring] |].
    left. auto.
  - apply bind_inr_inv in Hrun as (p & t1 & t1' & Hchoice & Hrun & ->).
    apply random_choice_member in Hchoice as [Hin ->].
    apply bind_inr_inv in Hrun as (clip0 & t2 & t2' & Hopen & Hrun & ->).
    unfold VideoFileClip in Hopen.
    destruct (lib_VideoFileClip lib p) as [vf |]; [| discriminate].
    cbn in Hopen. injection Hopen as <- <-.
    apply bind_inr_inv in Hrun as (clip1 & t3 & t3' & Hfill & Hrun & ->).
    pose proof (_resize_and_crop_frame self
                  (mkClip (SrcFile p) [] (vf_size vf) (Some (vf_duration vf)) 0
                          (Some (0 + vf_duration vf)) default_pos None None
                          (vf_has_audio vf))) as Hframe.
    rewrite Hfill in Hframe. cbn in Hframe.
    destruct Hframe as (-> & Hsrc1 & _ & Hstart1 & _).
    apply bind_inr_inv in Hrun as (clip2 & t4 & t4' & Hloop & Hrun & ->).
    pose proof (loop_if_needed_frame D clip1) as Hframe2.
    rewrite Hloop in Hframe2. destruct Hframe2 as (-> & Hsrc2 & Hstart2).
    unfold ret in Hrun. injection Hrun as <- <-.
    destruct (subclip0_nonneg D clip2 HD) as (Hsrc & Hstart & Hdur & Hend).
    rewrite Hsrc, Hstart, Hdur, Hend, Hsrc2, Hstart2, Hsrc1, Hstart1.
    split; [reflexivity |]. split; [exists (D - 0); split; [reflexivity | ring] |].
    split; [exists (0 + (D - 0)); split; [reflexivity | ring] |].
    right. exists p. auto.
Qed.

(** X4: whenever [_get_background_clip] returns for a non-negative
    duration, the layer starts at 0 and lasts exactly that duration, whether
    the source was looped or not; it is the solid color clip of the frame
    size when there is no background video, and otherwise comes from one
    file of the pool, the only file opened. *)
Theorem X4_background_has_requested_duration
    (lib : Lib) (self : VideoAssembler.t) (D : Q) (bg : Clip) (tr : list event) :
  _get_background_clip lib self D = (inr bg, tr) ->
  0 <= D ->
  clip_start bg = 0
  /\ (exists d, clip_duration bg = Some d /\ d == D)
  /\ (exists e, clip_end bg = Some e /\ e == D)
  /\ ((VideoAssembler.background_videos self = [] /\ tr = []
       /\ clip_source bg = SrcColor 30 30 40
       /\ clip_size bg = (VideoConfig.width (VideoAssembler.config self),
                          VideoConfig.height (VideoAssembler.config self)))
      \/ (exists p, In p (VideoAssembler.background_videos self) /\ tr = [EvOpen p]
                    /\ clip_source bg = SrcFile p)).
Proof.
  intros Hrun HD.
  destruct (_get_background_clip_timing lib self D bg tr Hrun HD)
    as (Hstart & Hdur & Hend & Horigin).
  split; [exact Hstart |]. split; [exact Hdur |]. split; [exact Hend | exact Horigin].
Qed.

Lemma X4_background_has_requested_duration_witness :
  exists bg d,
    _get_background_clip Examples.lib_ok Examples.assembler_bg 4 = (inr bg, [EvOpen "bg.mp4"])
    /\ clip_duration bg = Some d /\ d == 4
    /\ clip_ops bg = [OpResize 3413 1920; OpCrop 1166 0 2246 1920; OpSubclip 0 4].
Proof.
  eassert (Hrun : _get_background_clip Examples.lib_ok Examples.assembler_bg 4
                  = (inr _, _)) by (vm_compute; reflexivity).
  destruct (X4_background_has_requested_duration _ _ _ _ _ Hrun ltac:(discriminate))
    as (_ & (d & Hdur & Hd) & _).
  eexists. exists d. split; [exact Hrun |]. split; [exact Hdur |].
  split; [exact Hd | reflexivity].
Defined.

(** ** The layers of the exported video *)

(** A property of the loop state that each completed iteration extends from
    the elements done so far to one more holds after the loop. *)
Lemma for_each_invariant {S A : Type} (body : S -> A -> M S)
    (P : list A -> S -> Prop) (Q : A -> Prop) (xs : list A) :
  (forall done x st st' t,
     Q x -> P done st -> body st x = (inr st', t) -> P (done ++ [x])%list st') ->
  forall done st st' t,
    (forall x, In x xs -> Q x) ->
    P done st -> for_each body xs st = (inr st', t) -> P (done ++ xs)%list st'.
Proof.
  intros Hstep. induction xs as [| x xs IH]; intros done st st' t HQ HP Hrun; simpl in Hrun.
  - unfold ret in Hrun. injection Hrun as <- <-. rewrite app_nil_r. exact HP.
  - apply bind_inr_inv in Hrun as (st1 & t1 & t2 & Hbody & Hrest & ->).
    replace (done ++ x :: xs)%list with ((done ++ [x]) ++ xs)%list
      by (rewrite <- app_assoc; reflexivity).
    apply (IH _ st1 st' t2).
    + intros y Hy. apply HQ. right. exact Hy.
    + apply (Hstep done x st st1 t1); [apply HQ; left; reflexivity | exact HP | exact Hbody].
    + exact Hrest.
Qed.

(** What [add_character_clip] adds to the list of character clips. *)
Lemma add_character_clip_overlay (lib : Lib) (self : VideoAssembler.t)
    (char_video_map : gmap Z CharacterVideo.t) (seg : AudioSegment.t) (t : Q)
    (clips chars : list Clip) (tr : list event) :
  add_character_clip lib self char_video_map seg t clips = (inr chars, tr) ->
  exists added, chars = (clips ++ added)%list /\ overlay_of lib char_video_map seg added.
Proof.
  unfold add_character_clip, overlay_of.
  destruct (char_video_map !! AudioSegment.segment_index seg) as [cv |].
  - pose proof (_create_character_clip_cases lib self (CharacterVideo.video_path cv)
                  (AudioSegment.duration seg) t) as Hcases.
    destruct (lib_VideoFileClip lib (CharacterVideo.video_path cv)) as [vf |].
    + destruct (Z.eqb (fst (vf_size vf)) 0).
      * rewrite Hcases. cbn. intros H. injection H as <- <-.
        exists []. rewrite app_nil_r. split; reflexivity.
      * destruct Hcases as (c & -> & Hsrc & _ & _ & _ & _ & Haudio).
        cbn. intros H. injection H as <- <-. exists [c]. split; [reflexivity |].
        exists c. auto.
    + rewrite Hcases. cbn. intros H. injection H as <- <-.
      exists []. rewrite app_nil_r. split; reflexivity.
  - unfold ret. intros H. injection H as <- <-.
    exists []. rewrite app_nil_r. split; reflexivity.
Qed.

(** A completed iteration, with its caption. *)
Lemma assemble_segment_inv_caption (lib : Lib) (self : VideoAssembler.t)
    (script : GeneratedScript.t) (char_video_map : gmap Z CharacterVideo.t)
    (st st' : LoopState) (seg : AudioSegment.t) (tr : list event) :
  assemble_segment lib self script char_video_map st seg = (inr st', tr) ->
  exists (script_seg : ScriptSegment.t) (native : Q) (tc : Clip) (chars : list Clip)
         (tr1 tr2 : list event),
    py_getitem (GeneratedScript.segments script) (AudioSegment.segment_index seg)
      = inr script_seg
    /\ _create_text_clip lib self (shown_text script_seg) (AudioSegment.duration seg)
         (ScriptSegment.type script_seg) (ScriptSegment.voice script_seg) = (inr tc, tr1)
    /\ add_character_clip lib self char_video_map seg (current_time st) (character_clips st)
       = (inr chars, tr2)
    /\ st' = mkLoopState
               (audio_clips st
                ++ [mkAudioClip (AudioSegment.audio_path seg) native (current_time st)])
               (text_clips st ++ [set_start (current_time st) tc])
               chars
               (current_time st + (AudioSegment.duration seg + gap_duration)).
Proof.
  unfold assemble_segment. intros H.
  apply bind_inr_inv in H as (sseg & t0 & t0' & Hget & H & ->).
  apply bind_inr_inv in H as (ac & ta & ta' & Hac & H & ->).
  apply bind_inr_inv in H as (tc & tt & tt' & Htc & H & ->).
  apply bind_inr_inv in H as (chars & tch & tch' & Hch & H & ->).
  unfold ret in H. injection H as <- <-.
  unfold lift in Hget. injection Hget as Hget <-.
  unfold AudioFileClip in Hac.
  destruct (lib_AudioFileClip lib (AudioSegment.audio_path seg)) as [native |];
    [| discriminate].
  cbn in Hac. injection Hac as <- <-.
  exists sseg, native, tc, chars, tt, tch. auto.
Qed.

Lemma _create_text_clip_source (lib : Lib) (self : VideoAssembler.t)
    (text : string) (duration : Q) (segment_type voice : string)
    (c : Clip) (tr : list event) :
  _create_text_clip lib self text duration segment_type voice = (inr c, tr) ->
  exists method,
    clip_source c
    = SrcText (wrap_text lib text (max_width (caption_style self segment_type voice))) method
    /\ clip_start c = 0 /\ clip_end c = Some (0 + duration) /\ tr = [].
Proof.
  unfold _create_text_clip, try_except, TextClip, bind, raise, ret.
  destruct (lib_TextClip lib _) as [sz |].
  - cbn. intros H. injection H as <- <-. cbn. eauto.
  - cbn. destruct (lib_TextClip lib _) as [sz |]; cbn; [| discriminate].
    intros H. injection H as <- <-. cbn. eauto.
Qed.

Lemma set_start_source (t : Q) (c : Clip) : clip_source (set_start t c) = clip_source c.
Proof. unfold set_start. destruct (clip_duration c), (clip_end c); reflexivity. Qed.

(** The badge is there exactly when its label can be rendered. *)
Lemma _create_subreddit_badge_by_render (lib : Lib) (self : VideoAssembler.t)
    (subreddit : string) (duration : Q) :
  match lib_TextClip lib (badge_args self subreddit) with
  | None => _create_subreddit_badge lib self subreddit duration = (inr None, [])
  | Some _ =>
      exists b,
        _create_subreddit_badge lib self subreddit duration = (inr (Some b), [])
        /\ clip_source b = SrcText ("r/" ++ subreddit) "label"
        /\ clip_start b = 0
        /\ clip_duration b = Some duration
        /\ clip_pos b = PosPair (CNum 20) (CNum 20)
  end.
Proof.
  unfold _create_subreddit_badge, try_except, TextClip, bind, raise, ret.
  fold (badge_args self subreddit).
  destruct (lib_TextClip lib (badge_args self subreddit)) as [sz |]; cbn.
  - eexists. split; [reflexivity |]. cbn. auto.
  - reflexivity.
Qed.

(** A returning run, with the state of its loop and its badge. *)
Lemma assemble_video_inv_badge (lib : Lib) (self : VideoAssembler.t)
    (script : GeneratedScript.t) (segs : list AudioSegment.t) (output_path : string)
    (character_videos : option (list CharacterVideo.t)) (b : bool) (tr : list event) :
  assemble_video lib self script segs output_path character_videos = (inr b, tr) ->
  exists (background : Clip) (st : LoopState) (badge : option Clip)
         (tr_bg tr_loop : list event),
    _get_background_clip lib self (total_duration segs) = (inr background, tr_bg)
    /\ for_each (assemble_segment lib self script (build_char_video_map character_videos))
                segs initial_state = (inr st, tr_loop)
    /\ _create_subreddit_badge lib self (GeneratedScript.subreddit script)
         (total_duration segs) = (inr badge, [])
    /\ tr = (tr_bg ++ tr_loop
             ++ [EvMkdirParent output_path;
                 EvWriteVideo output_path
                   (mkComposite
                      ([background] ++ character_clips st
                       ++ match badge with
                          | Some bd => bd :: text_clips st
                          | None => text_clips st
                          end)
                      (VideoConfig.width (VideoAssembler.config self),
                       VideoConfig.height (VideoAssembler.config self))
                      (audio_clips st) (Some (total_duration segs)))
                   (VideoConfig.fps (VideoAssembler.config self))])%list.
Proof.
  unfold assemble_video. intros H.
  apply bind_inr_inv in H as (bg & tbg & t1 & Hbg & H & ->).
  apply bind_inr_inv in H as (st & tloop & t2 & Hloop & H & ->).
  destruct (_create_subreddit_badge_total lib self (GeneratedScript.subreddit script)
              (total_duration segs)) as [badge Hbadge].
  apply bind_inr_inv in H as (badge' & tb & t3 & Hb & H & ->).
  rewrite Hbadge in Hb. injection Hb as <- <-.
  apply bind_inr_inv in H as (fa & ta & t4 & Hfa & H & ->).
  apply bind_inr_inv in H as (fv & tv & t5 & Hfv & H & ->).
  apply bind_inr_inv in H as (u1 & tm & t6 & Hm & H & ->).
  apply bind_inr_inv in H as (u2 & tw & t7 & Hw & H & ->).
  unfold ret in H. injection H as <- <-.
  apply CompositeAudioClip_inv in Hfa as (<- & <- & _).
  unfold CompositeVideoClip in Hfv.
  destruct (lib_CompositeVideoClip lib _); [| discriminate].
  injection Hfv as <- <-.
  unfold emit in Hm. injection Hm as <- <-.
  unfold write_videofile in Hw.
  destruct (lib_write_videofile lib _ _); [| discriminate].
  unfold emit in Hw. injection Hw as <- <-.
  exists bg, st, badge, tbg, tloop. auto.
Qed.

(** The loop state after the loop, segment by segment. *)
Lemma for_each_layers (lib : Lib) (self : VideoAssembler.t) (script : GeneratedScript.t)
    (char_video_map : gmap Z CharacterVideo.t) (segs : list AudioSegment.t)
    (st : LoopState) (tr : list event) :
  for_each (assemble_segment lib self script char_video_map) segs initial_state
    = (inr st, tr) ->
  map aclip_path (audio_clips st) = map AudioSegment.audio_path segs
  /\ (exists added : list (list Clip),
        character_clips st = concat added
        /\ Forall2 (overlay_of lib char_video_map) segs added)
  /\ Forall2 (caption_of lib self script) segs (text_clips st).
Proof.
  intros Hrun.
  apply (for_each_invariant (assemble_segment lib self script char_video_map)
           (fun done st =>
              map aclip_path (audio_clips st) = map AudioSegment.audio_path done
              /\ (exists added : list (list Clip),
                    character_clips st = concat added
                    /\ Forall2 (overlay_of lib char_video_map) done added)
              /\ Forall2 (caption_of lib self script) done (text_clips st))
           (fun _ => True) segs) with (done := []) (st := initial_state) (t := tr);
    [| intros; exact I | | exact Hrun].
  2:{ cbn. split; [reflexivity |]. split; [exists []; split; [reflexivity | constructor] |].
      constructor. }
  clear. intros done seg st st' t _ (Hpaths & (added & Hchars & Hadded) & Htexts) Hstep.
  apply assemble_segment_inv_caption in Hstep
    as (sseg & native & tc & chars & tr1 & tr2 & Hget & Htc & Hadd & ->).
  cbn [audio_clips text_clips character_clips].
  rewrite !map_app, Hpaths. cbn [map].
  split; [reflexivity |].
  apply _create_text_clip_source in Htc as (method & Hsrc & _).
  apply add_character_clip_overlay in Hadd as (o & -> & Ho).
  split.
  - exists (added ++ [o])%list. split.
    + rewrite concat_app, Hchars. cbn [concat]. rewrite app_nil_r. reflexivity.
    + apply List.Forall2_app; [exact Hadded | constructor; [exact Ho | constructor]].
  - apply List.Forall2_app; [exact Htexts |]. constructor; [| constructor].
    exists sseg, method. split; [exact Hget |].
    rewrite set_start_source. exact Hsrc.
Qed.

(** X5: the video exported by [assemble_video] has the frame size of the
    configuration and its layers are, bottom to top: the background made by
    [_get_background_clip] for the total duration; for each segment in order
    its character overlay, which is there exactly when the index has an
    entry for the segment whose file opens with a non-zero width, and is then
    one muted clip from that file; the subreddit badge, which is there
    exactly when its label renders (label "r/<subreddit>" at (20, 20), from
    0 for the total duration); and for each segment in order its caption,
    the wrapped text shown for its script segment.  The audio holds one clip
    per segment, in order. *)
Theorem X5_exported_layers_in_order
    (lib : Lib) (self : VideoAssembler.t) (script : GeneratedScript.t)
    (segs : list AudioSegment.t) (output_path : string)
    (character_videos : option (list CharacterVideo.t)) (b : bool) (tr : list event) :
  assemble_video lib self script segs output_path character_videos = (inr b, tr) ->
  exists (video : Composite) (background : Clip) (tr_bg : list event)
         (overlays : list (list Clip)) (badge captions : list Clip),
    In (EvWriteVideo output_path video (VideoConfig.fps (VideoAssembler.config self))) tr
    /\ comp_size video = (VideoConfig.width (VideoAssembler.config self),
                          VideoConfig.height (VideoAssembler.config self))
    /\ comp_layers video = ([background] ++ concat overlays ++ badge ++ captions)%list
    /\ _get_background_clip lib self (total_duration segs) = (inr background, tr_bg)
    /\ Forall2 (overlay_of lib (build_char_video_map character_videos)) segs overlays
    /\ match lib_TextClip lib (badge_args self (GeneratedScript.subreddit script)) with
       | None => badge = []
       | Some _ =>
           exists bd,
             badge = [bd]
             /\ clip_source bd = SrcText ("r/" ++ GeneratedScript.subreddit script) "label"
             /\ clip_pos bd = PosPair (CNum 20) (CNum 20)
             /\ clip_start bd = 0
             /\ clip_duration bd = Some (total_duration segs)
       end
    /\ Forall2 (caption_of lib self script) segs captions
    /\ map aclip_path (comp_audio video) = map AudioSegment.audio_path segs.
Proof.
  intros Hrun.
  apply assemble_video_inv_badge in Hrun
    as (bg & st & badge & tr_bg & tr_loop & Hbg & Hloop & Hbadge & ->).
  apply for_each_layers in Hloop as (Hpaths & (added & Hchars & Hadded) & Htexts).
  eexists. exists bg, tr_bg, added,
    (match badge with Some bd => [bd] | None => [] end), (text_clips st).
  split.
  { rewrite !in_app_iff. right. right. right. left. reflexivity. }
  cbn [comp_size comp_layers comp_audio].
  split; [reflexivity |].
  split; [rewrite Hchars; destruct badge; reflexivity |].
  split; [exact Hbg |]. split; [exact Hadded |].
  split; [| split; [exact Htexts | exact Hpaths]].
  pose proof (_create_subreddit_badge_by_render lib self (GeneratedScript.subreddit script)
                (total_duration segs)) as Hrender.
  destruct (lib_TextClip lib (badge_args self (GeneratedScript.subreddit script))).
  - destruct Hrender as (bd & Hsome & Hsrc & Hstart & Hdur & Hpos).
    rewrite Hsome in Hbadge. injection Hbadge as <-. exists bd. auto.
  - rewrite Hrender in Hbadge. injection Hbadge as <-. reflexivity.
Qed.

Lemma X5_exported_layers_in_order_witness :
  exists (video : Composite) (overlays : list (list Clip)),
    In (EvWriteVideo "out.mp4" video 30)
       (effects (assemble_video Examples.lib_ok Examples.assembler_bg Examples.script3
                   [Examples.audio0; Examples.audio1; Examples.audio2] "out.mp4"
                   (Some [Examples.char2])))
    /\ List.length (comp_layers video) = 6%nat
    /\ map (@List.length Clip) overlays = [0; 0; 1]%nat
    /\ map aclip_path (comp_audio video) = ["seg0.mp3"; "seg1.mp3"; "seg2.mp3"]%string.
Proof.
  destruct (X5_exported_layers_in_order Examples.lib_ok Examples.assembler_bg
              Examples.script3 [Examples.audio0; Examples.audio1; Examples.audio2]
              "out.mp4" (Some [Examples.char2]) true
              (effects (assemble_video Examples.lib_ok Examples.assembler_bg Examples.script3
                          [Examples.audio0; Examples.audio1; Examples.audio2] "out.mp4"
                          (Some [Examples.char2]))))
    as (video & bg & tr_bg & overlays & badge & captions
        & Hin & _ & _ & _ & Hover & _ & _ & Haudio).
  - vm_compute. reflexivity.
  - exists video, overlays. split; [exact Hin |].
    split; [| split; [| exact Haudio]].
    + vm_compute in Hin.
      destruct Hin as [Hin | [Hin | [Hin | [Hin | [Hin | [Hin | [Hin | []]]]]]]];
        try discriminate.
      injection Hin as <-. reflexivity.
    + inversion Hover as [| s0 o0 r0 p0 H0 Hover1]; subst.
      inversion Hover1 as [| s1 o1 r1 p1 H1 Hover2]; subst.
      inversion Hover2 as [| s2 o2 r2 p2 H2 Hover3]; subst.
      inversion Hover3; subst.
      vm_compute in H0, H1. subst o0 o1.
      unfold overlay_of in H2. vm_compute in H2. destruct H2 as (c & -> & _).
      reflexivity.
Defined.

(** ** Wrapping and truncation of captions *)

Lemma string_app_cons (x : Ascii.ascii) (a b : string) :
  (String x a ++ b)%string = String x (a ++ b)%string.
Proof. reflexivity. Qed.

Lemma string_app_assoc (a b c : string) : ((a ++ b) ++ c = a ++ (b ++ c))%string.
Proof.
  induction a as [| x a IH]; [reflexivity |].
  rewrite !string_app_cons, IH. reflexivity.
Qed.

Lemma string_app_nil_r (a : string) : (a ++ "" = a)%string.
Proof.
  induction a as [| x a IH]; [reflexivity |].
  rewrite string_app_cons, IH. reflexivity.
Qed.

Lemma string_length_app (a b : string) :
  String.length (a ++ b) = (String.length a + String.length b)%nat.
Proof.
  induction a as [| x a IH]; [reflexivity |].
  rewrite string_app_cons. cbn [String.length]. rewrite IH. reflexivity.
Qed.

Lemma has_newline_app (a b : string) :
  has_newline (a ++ b) = has_newline a || has_newline b.
Proof.
  induction a as [| x a IH]; [reflexivity |].
  rewrite string_app_cons. cbn [has_newline]. rewrite IH. apply orb_assoc.
Qed.

(** A text without line break ahead of [rest] is added to the current line. *)
Lemma split_lines_aux_line (l rest cur : string) :
  has_newline l = false ->
  split_lines_aux (l ++ rest) cur = split_lines_aux rest (cur ++ l).
Proof.
  revert cur. induction l as [| c l IH]; intros cur Hl.
  - rewrite string_app_nil_r. reflexivity.
  - cbn [has_newline] in Hl. apply orb_false_iff in Hl as [Hc Hl].
    rewrite string_app_cons. cbn [split_lines_aux]. rewrite Hc.
    rewrite IH by exact Hl. rewrite string_app_assoc. reflexivity.
Qed.

(** [split] undoes [join] on lines that hold no line break. *)
Lemma split_lines_aux_join (l : string) (ls : list string) (cur : string) :
  Forall (fun x => has_newline x = false) (l :: ls) ->
  split_lines_aux (join_lines (l :: ls)) cur = (cur ++ l)%string :: ls.
Proof.
  revert l cur. induction ls as [| l2 ls IH]; intros l cur Hall.
  - simpl. inversion Hall as [| ? ? Hl _]; subst.
    rewrite <- (string_app_nil_r l) at 1.
    rewrite split_lines_aux_line by exact Hl. reflexivity.
  - inversion Hall as [| ? ? Hl Hrest]; subst.
    change (join_lines (l :: l2 :: ls))
      with (l ++ String (Ascii.ascii_of_nat 10) (join_lines (l2 :: ls)))%string.
    rewrite split_lines_aux_line by exact Hl.
    change (split_lines_aux (String (Ascii.ascii_of_nat 10) (join_lines (l2 :: ls)))
                            (cur ++ l))
      with ((cur ++ l)%string :: split_lines_aux (join_lines (l2 :: ls)) "").
    rewrite IH by exact Hrest. reflexivity.
Qed.

(** The lines of a split hold no line break. *)
Lemma split_lines_aux_clean (s cur : string) :
  has_newline cur = false ->
  Forall (fun x => has_newline x = false) (split_lines_aux s cur).
Proof.
  revert cur. induction s as [| c s IH]; intros cur Hcur; cbn [split_lines_aux].
  - constructor; [exact Hcur | constructor].
  - destruct (Ascii.eqb c (Ascii.ascii_of_nat 10)) eqn:Hc.
    + constructor; [exact Hcur |]. apply IH. reflexivity.
    + apply IH. rewrite has_newline_app, Hcur. cbn [has_newline]. rewrite Hc. reflexivity.
Qed.

Lemma append_to_last_snoc (front : list string) (x suffix : string) :
  append_to_last (front ++ [x]) suffix = (front ++ [(x ++ suffix)%string])%list.
Proof.
  induction front as [| y front IH]; [reflexivity |].
  change ((y :: front) ++ [x])%list with (y :: (front ++ [x]))%list.
  destruct (front ++ [x])%list as [| z rest] eqn:Hf.
  - destruct front; discriminate.
  - change (append_to_last (y :: z :: rest) suffix)
      with (y :: append_to_last (z :: rest) suffix).
    rewrite IH. reflexivity.
Qed.

Lemma firstn_snoc_nth {A : Type} (n : nat) (l : list A) (d : A) :
  (n < List.length l)%nat -> firstn (S n) l = (firstn n l ++ [nth n l d])%list.
Proof.
  revert l. induction n as [| n IH]; intros [| x l] Hn; simpl in Hn; try lia.
  - reflexivity.
  - change (firstn (S (S n)) (x :: l)) with (x :: firstn (S n) l).
    rewrite (IH l) by lia. reflexivity.
Qed.

(** X7: a caption is never shown on more than 8 lines.  A wrapped text of at
    most 8 lines is kept as it is; a longer one keeps its first 7 lines and
    its 8th line followed by "...". *)
Theorem X7_caption_is_cut_to_8_lines (lib : Lib) (text : string) (max_width : Z) :
  let wrapped := lib_textwrap_fill lib text max_width in
  let lines := split_lines wrapped in
  let shown := split_lines (wrap_text lib text max_width) in
  (List.length shown <= 8)%nat
  /\ ((List.length lines <= 8)%nat -> wrap_text lib text max_width = wrapped)
  /\ ((8 < List.length lines)%nat ->
        shown = (firstn 7 lines ++ [(nth 7 lines "" ++ "...")%string])%list).
Proof.
  intros wrapped lines shown.
  assert (Hkeep : (List.length lines <= 8)%nat -> wrap_text lib text max_width = wrapped).
  { intros Hlen. unfold wrap_text. fold wrapped. fold lines.
    destruct (Z.ltb_spec 8 (Z.of_nat (List.length lines))); [lia | reflexivity]. }
  assert (Hcut : (8 < List.length lines)%nat ->
                 shown = (firstn 7 lines ++ [(nth 7 lines "" ++ "...")%string])%list).
  { intros Hlen. subst shown. unfold wrap_text. fold wrapped. fold lines.
    destruct (Z.ltb_spec 8 (Z.of_nat (List.length lines))); [| lia].
    rewrite (firstn_snoc_nth 7 lines "") by lia.
    rewrite append_to_last_snoc.
    assert (Hclean : Forall (fun x => has_newline x = false) lines)
      by (apply split_lines_aux_clean; reflexivity).
    assert (Hall : Forall (fun x => has_newline x = false)
                          (firstn 7 lines ++ [(nth 7 lines "" ++ "...")%string])).
    { apply Forall_app. split.
      - apply Forall_take. exact Hclean.
      - constructor; [| constructor]. rewrite has_newline_app.
        rewrite (proj1 (List.Forall_forall _ _) Hclean (nth 7 lines ""))
          by (apply nth_In; lia).
        reflexivity. }
    destruct (firstn 7 lines ++ [(nth 7 lines "" ++ "...")%string])%list as [| l ls] eqn:Hls.
    { destruct (firstn 7 lines); discriminate. }
    unfold split_lines. rewrite split_lines_aux_join by exact Hall. reflexivity. }
  split; [| split; [exact Hkeep | exact Hcut]].
  destruct (Nat.le_gt_cases (List.length lines) 8) as [Hle | Hgt].
  - subst shown. rewrite (Hkeep Hle). exact Hle.
  - rewrite (Hcut Hgt). rewrite length_app, length_firstn. cbn [List.length]. lia.
Qed.

Lemma X7_caption_is_cut_to_8_lines_witness :
  let ten := join_lines ["1"; "2"; "3"; "4"; "5"; "6"; "7"; "8"; "9"; "10"]%string in
  split_lines (wrap_text Examples.lib_ok ten 35)
  = ["1"; "2"; "3"; "4"; "5"; "6"; "7"; "8..."]%string
  /\ wrap_text Examples.lib_ok "short" 35 = "short"%string.
Proof.
  cbv zeta. split.
  - exact (proj2 (proj2 (X7_caption_is_cut_to_8_lines Examples.lib_ok
             (join_lines ["1"; "2"; "3"; "4"; "5"; "6"; "7"; "8"; "9"; "10"]%string) 35))
             ltac:(vm_compute; lia)).
  - exact (proj1 (proj2 (X7_caption_is_cut_to_8_lines Examples.lib_ok "short" 35))
             ltac:(vm_compute; lia)).
Defined.

(** ** The position of the character overlay *)

Lemma character_position_for_cases (anchor : string) (self : VideoAssembler.t)
    (cw ch : Z) :
  let W := VideoConfig.width (VideoAssembler.config self) in
  let H := VideoConfig.height (VideoAssembler.config self) in
  character_position_for anchor self (cw, ch)
  = if (anchor =? "bottom_left")%string then (20, H - ch - 20)%Z
    else if (anchor =? "top_right")%string then (W - cw - 20, 20 + 60)%Z
    else if (anchor =? "top_left")%string then (20 + 200, 20)%Z
    else if (anchor =? "center_bottom")%string then ((W - cw) `div` 2, H - ch - 20)%Z
    else (W - cw - 20, H - ch - 20)%Z.
Proof.
  intros W H. unfold character_position_for. fold W H.
  cbn [list_to_map foldr uncurry fst snd].
  rewrite !lookup_total_insert_eq.
  destruct (String.eqb_spec anchor "bottom_left") as [-> | Hbl]; [reflexivity |].
  destruct (String.eqb_spec anchor "top_right") as [-> | Htr]; [reflexivity |].
  destruct (String.eqb_spec anchor "top_left") as [-> | Htl]; [reflexivity |].
  destruct (String.eqb_spec anchor "center_bottom") as [-> | Hcb]; [reflexivity |].
  destruct (String.eqb_spec anchor "bottom_right") as [-> | Hbr]; [reflexivity |].
  rewrite !lookup_insert_ne by congruence. rewrite lookup_empty. reflexivity.
Qed.

(** X8: the anchor table of [_get_character_position].  The position used by
    the assembler is the entry of [config.CHARACTER_POSITION]; a setting that
    is none of the five anchors gives the bottom-right position; and for
    every setting a clip of size [cw] x [ch] with [cw + 220 <= width] and
    [ch + 80 <= height] is placed inside the frame. *)
Theorem X8_character_anchor_table (self : VideoAssembler.t) (anchor : string) (cw ch : Z) :
  let W := VideoConfig.width (VideoAssembler.config self) in
  let H := VideoConfig.height (VideoAssembler.config self) in
  _get_character_position self (cw, ch)
  = character_position_for config.CHARACTER_POSITION self (cw, ch)
  /\ (anchor <> "bottom_left"%string -> anchor <> "top_right"%string ->
      anchor <> "top_left"%string -> anchor <> "center_bottom"%string ->
      character_position_for anchor self (cw, ch) = (W - cw - 20, H - ch - 20)%Z)
  /\ ((0 <= cw)%Z -> (0 <= ch)%Z -> (cw + 220 <= W)%Z -> (ch + 80 <= H)%Z ->
      let '(x, y) := character_position_for anchor self (cw, ch) in
      (0 <= x)%Z /\ (x + cw <= W)%Z /\ (0 <= y)%Z /\ (y + ch <= H)%Z).
Proof.
  intros W H. split; [reflexivity |].
  rewrite character_position_for_cases. fold W H. split.
  - intros Hbl Htr Htl Hcb.
    apply String.eqb_neq in Hbl, Htr, Htl, Hcb. rewrite Hbl, Htr, Htl, Hcb. reflexivity.
  - intros Hcw Hch HW HH.
    assert (Hdiv : (0 <= (W - cw) `div` 2 /\ (W - cw) `div` 2 + cw <= W)%Z).
    { split; [apply Z.div_pos; lia |].
      assert ((W - cw) `div` 2 <= W - cw)%Z; [| lia].
      apply Z.div_le_upper_bound; lia. }
    destruct (anchor =? "bottom_left")%string; [lia |].
    destruct (anchor =? "top_right")%string; [lia |].
    destruct (anchor =? "top_left")%string; [lia |].
    destruct (anchor =? "center_bottom")%string; lia.
Qed.

Lemma X8_character_anchor_table_witness :
  character_position_for "top_left" Examples.assembler_plain (378, 378)%Z = (220, 20)%Z
  /\ character_position_for "nowhere" Examples.assembler_plain (378, 378)%Z
     = (682, 1522)%Z.
Proof.
  split.
  - pose proof (proj2 (proj2 (X8_character_anchor_table Examples.assembler_plain
                                "top_left" 378 378))) as Hin.
    cbv zeta in Hin. reflexivity.
  - exact (proj1 (proj2 (X8_character_anchor_table Examples.assembler_plain
                           "nowhere" 378 378))
             ltac:(discriminate) ltac:(discriminate) ltac:(discriminate)
             ltac:(discriminate)).
Defined.

Lemma _get_character_position_default (self : VideoAssembler.t) (cw ch : Z) :
  _get_character_position self (cw, ch)
  = (VideoConfig.width (VideoAssembler.config self) - cw - 20,
     VideoConfig.height (VideoAssembler.config self) - ch - 20)%Z.
Proof.
  change (_get_character_position self (cw, ch))
    with (character_position_for config.CHARACTER_POSITION self (cw, ch)).
  rewrite character_position_for_cases. reflexivity.
Qed.

(** X9: the geometry of a character overlay.  Whenever
    [_create_character_clip] yields a clip, the clip comes from a file that
    could be opened, the only file opened; its width is
    [int(width * 0.35)] and its height [int(h * (target_width / w))] for the
    size [w] x [h] of the file, both as floats round them; and it is placed
    so that its right and bottom edges are exactly 20 pixels inside the
    frame. *)
Theorem X9_character_overlay_geometry (lib : Lib) (self : VideoAssembler.t)
    (path : string) (duration start_time : Q) (c : Clip) (tr : list event) :
  let W := VideoConfig.width (VideoAssembler.config self) in
  let H := VideoConfig.height (VideoAssembler.config self) in
  _create_character_clip lib self path duration start_time = (inr (Some c), tr) ->
  exists vf scale_factor x y,
    lib_VideoFileClip lib path = Some vf
    /\ tr = [EvOpen path]
    /\ let w := fst (vf_size vf) in
       let h := snd (vf_size vf) in
       let target_width :=
         Binary64.to_int (Binary64.mul (Binary64.of_int W) (Binary64.of_literal (35 # 100))) in
       Binary64.truediv target_width w = inr scale_factor
       /\ clip_size c
          = (target_width,
             Binary64.to_int (Binary64.mul (Binary64.of_int h) scale_factor))
    /\ clip_pos c = PosPair (CNum (inject_Z x)) (CNum (inject_Z y))
    /\ (x + fst (clip_size c) = W - 20)%Z
    /\ (y + snd (clip_size c) = H - 20)%Z.
Proof.
  intros W H Hrun.
  unfold _create_character_clip, VideoFileClip in Hrun.
  destruct (lib_VideoFileClip lib path) as [vf |]; [| discriminate].
  destruct vf as [[w h] native audio].
  unfold try_except, bind, emit, ret, lift, clip_w, clip_h in Hrun.
  cbn [clip_size fst snd vf_size] in Hrun. fold W in Hrun.
  destruct (Binary64.truediv _ w) as [e | scale_factor] eqn:Hscale; [discriminate |].
  cbv beta iota zeta in Hrun.
  rewrite _get_character_position_default in Hrun. fold W H in Hrun.
  cbv beta iota zeta in Hrun. injection Hrun as <- <-.
  eexists. exists scale_factor. eexists. eexists.
  split; [reflexivity |]. split; [reflexivity |].
  cbn [vf_size fst snd].
  split; [exact Hscale |]. split; [reflexivity |]. split; [reflexivity |].
  clear Hscale.
  generalize (Binary64.to_int (Binary64.mul (Binary64.of_int W)
                                 (Binary64.of_literal config.CHARACTER_SIZE))).
  generalize (Binary64.to_int (Binary64.mul (Binary64.of_int h) scale_factor)).
  intros th tw. cbn. split; lia.
Qed.

Lemma X9_character_overlay_geometry_witness :
  exists c,
    _create_character_clip StageExamples.lib_square Examples.assembler_plain "c.mp4" 4 8
    = (inr (Some c), [EvOpen "c.mp4"])
    /\ clip_size c = (378, 377)%Z
    /\ clip_pos c = PosPair (CNum (inject_Z 682)) (CNum (inject_Z 1523)).
Proof.
  eassert (Hrun : _create_character_clip StageExamples.lib_square Examples.assembler_plain
                    "c.mp4" 4 8 = (inr (Some _), _)) by (vm_compute; reflexivity).
  destruct (X9_character_overlay_geometry _ _ _ _ _ _ _ Hrun)
    as (vf & scale & x & y & _ & Htr & _ & _ & Hpos & Hx & Hy).
  eexists. split; [exact Hrun |].
  split; [reflexivity |].
  cbn [clip_size fst snd] in Hx, Hy. rewrite Hpos.
  change (x + 378 = 1080 - 20)%Z in Hx. change (y + 377 = 1920 - 20)%Z in Hy.
  replace x with 682%Z by lia. replace y with 1523%Z by lia. reflexivity.
Defined.

(** ** The thumbnail, continued *)

Lemma saved_frames_app (t1 t2 : list event) :
  saved_frames (t1 ++ t2) = (saved_frames t1 ++ saved_frames t2)%list.
Proof. unfold saved_frames. apply flat_map_app. Qed.

Lemma py_len_prefix (n : nat) (s : string) :
  py_len (py_prefix n s) = Nat.min n (py_len s).
Proof.
  revert n. induction s as [| c s IH]; intros n; cbn [py_prefix py_len].
  - rewrite Nat.min_0_r. reflexivity.
  - destruct (is_continuation c) eqn:Hc.
    + cbn [py_len]. rewrite Hc. apply IH.
    + destruct n as [| k]; [reflexivity |].
      cbn [py_len]. rewrite Hc, IH. reflexivity.
Qed.

Lemma py_len_app (a b : string) : py_len (a ++ b) = (py_len a + py_len b)%nat.
Proof.
  induction a as [| c a IH]; [reflexivity |].
  rewrite string_app_cons. cbn [py_len]. rewrite IH.
  destruct (is_continuation c); reflexivity.
Qed.

(** The bottom layer of the thumbnail: a solid colour of the frame size
    without background videos, else the frame at 1 s of one of them.  Its
    construction opens at most that file and saves or exports nothing. *)
Lemma thumbnail_background_cases (lib : Lib) (self : VideoAssembler.t)
    (r : Result Clip) (t : list event) :
  match VideoAssembler.background_videos self with
  | [] => ret (mkClip (SrcColor 30 30 40) []
                 (VideoConfig.width (VideoAssembler.config self),
                  VideoConfig.height (VideoAssembler.config self))
                 None 0 None default_pos None None false)
  | _ =>
      (bg_path <- random_choice lib (VideoAssembler.background_videos self) ;;
       bg_clip <- VideoFileClip lib bg_path ;;
       bg_clip <- _resize_and_crop self bg_clip ;;
       get_frame_image lib bg_path bg_clip 1)%py
  end = (r, t) ->
  saved_frames t = [] /\ wrote_video t = false
  /\ forall bg, r = inr bg ->
       match VideoAssembler.background_videos self with
       | [] => clip_source bg = SrcColor 30 30 40
               /\ clip_size bg = (VideoConfig.width (VideoAssembler.config self),
                                  VideoConfig.height (VideoAssembler.config self))
       | bgs => exists p, In p bgs /\ clip_source bg = SrcFrame (Some p) 1
       end.
Proof.
  destruct (VideoAssembler.background_videos self) as [| b bgs] eqn:Hbgs.
  - intros H. injection H as <- <-.
    split; [reflexivity | split; [reflexivity |]].
    intros bg Hbg. injection Hbg as <-. split; reflexivity.
  - destruct (random_choice lib (b :: bgs)) as [[e | p] t0] eqn:Hch.
    { unfold random_choice in Hch.
      destruct (nth_error _ _); [discriminate |]. injection Hch as <- <-.
      intros H. injection H as <- <-.
      split; [reflexivity | split; [reflexivity | discriminate]]. }
    destruct (random_choice_member _ _ _ _ Hch) as [Hin ->].
    change (inr p, []) with (ret (A := string) p). rewrite bind_ret_l.
    unfold VideoFileClip. destruct (lib_VideoFileClip lib p) as [vf |].
    2:{ cbn. intros H. injection H as <- <-.
        split; [reflexivity | split; [reflexivity | discriminate]]. }
    unfold bind, emit, ret.
    match goal with
    | |- context [_resize_and_crop self ?c] =>
        pose proof (_resize_and_crop_frame self c) as Hrc;
        destruct (_resize_and_crop self c) as [[e | out] t1]
    end.
    + destruct Hrc as [-> ->]. cbn. intros H. injection H as <- <-.
      split; [reflexivity | split; [reflexivity | discriminate]].
    + destruct Hrc as (-> & _). unfold get_frame_image.
      destruct (lib_get_frame lib p 1); cbn; intros H; injection H as <- <-;
        (split; [reflexivity | split; [reflexivity |]]); [| discriminate].
      intros bg Hbg. injection Hbg as <-. exists p. split; [exact Hin | reflexivity].
Qed.

(** X10: [create_thumbnail] returns [True] exactly when it completed the
    save of one frame.  A run that does not return [True] completes no save;
    a run that returns [True] saved, at [output_path], one frame of the
    configured size with three layers: the background, the wrapped title
    centred, and the badge "r/<subreddit>" at (50, 50).  The title is passed
    to the wrapping whole when it has at most 50 characters, and else as its
    first 50 characters followed by "...", 53 characters in all.  No run
    exports a video. *)
Theorem X10_thumbnail_saved_iff_true (lib : Lib) (self : VideoAssembler.t)
    (script : GeneratedScript.t) (output_path : string) :
  let m := create_thumbnail lib self script output_path in
  let W := VideoConfig.width (VideoAssembler.config self) in
  let H := VideoConfig.height (VideoAssembler.config self) in
  wrote_video (effects m) = false
  /\ (result m <> inr true -> saved_frames (effects m) = [])
  /\ (result m = inr true ->
      exists bg title badge t,
        saved_frames (effects m)
        = [(output_path, mkComposite [bg; title; badge] (W, H) [] None)]
        /\ clip_source title = SrcText (lib_textwrap_fill lib t 20) "caption"
        /\ (py_len t <= 53)%nat
        /\ ((py_len (GeneratedScript.title script) <= 50)%nat ->
            t = GeneratedScript.title script)
        /\ ((50 < py_len (GeneratedScript.title script))%nat ->
            t = (py_prefix 50 (GeneratedScript.title script) ++ "...")%string
            /\ py_len t = 53%nat)
        /\ clip_pos title = PosStr "center"
        /\ clip_source badge
           = SrcText ("r/" ++ GeneratedScript.subreddit script)%string "label"
        /\ clip_pos badge = PosPair (CNum 50) (CNum 50)
        /\ match VideoAssembler.background_videos self with
           | [] => clip_source bg = SrcColor 30 30 40 /\ clip_size bg = (W, H)
           | bgs => exists p, In p bgs /\ clip_source bg = SrcFrame (Some p) 1
           end).
Proof.
  intros m W H. subst m. unfold create_thumbnail.
  match goal with
  | |- context [bind ?bgpart _] =>
      destruct bgpart as [[e | bg] t0] eqn:Hbg;
      pose proof (thumbnail_background_cases lib self _ _ Hbg) as (Hsf & Hwv & Hsrc)
  end.
  { cbn [bind result effects fst snd].
    split; [exact Hwv | split; [intros _; exact Hsf | discriminate]]. }
  specialize (Hsrc bg eq_refl).
  set (title := GeneratedScript.title script).
  set (t := if (50 <? Z.of_nat (py_len title))%Z
            then (py_prefix 50 title ++ "...")%string else title).
  assert (Ht : (py_len t <= 53)%nat
               /\ ((py_len title <= 50)%nat -> t = title)
               /\ ((50 < py_len title)%nat ->
                   t = (py_prefix 50 title ++ "...")%string /\ py_len t = 53%nat)).
  { subst t. destruct (Z.ltb_spec 50 (Z.of_nat (py_len title))) as [Hlong | Hshort].
    - assert (Hlen : py_len (py_prefix 50 title ++ "...") = 53%nat).
      { rewrite py_len_app, py_len_prefix. cbn [py_len is_continuation]. lia. }
      split; [lia |]. split; [lia |]. intros _. split; [reflexivity | exact Hlen].
    - split; [lia |]. split; [reflexivity | lia]. }
  unfold bind, try_except, TextClip, CompositeVideoClip, save_frame, emit, ret, raise,
    result, effects.
  cbv beta iota zeta.
  destruct (lib_TextClip lib _) as [sz1 |]; cbv beta iota zeta.
  2:{ cbn [fst snd]. rewrite !wrote_video_app, !saved_frames_app, Hwv, Hsf.
      split; [reflexivity | split; [reflexivity | discriminate]]. }
  destruct (lib_TextClip lib _) as [sz2 |]; cbv beta iota zeta.
  2:{ cbn [fst snd]. rewrite !wrote_video_app, !saved_frames_app, Hwv, Hsf.
      split; [reflexivity | split; [reflexivity | discriminate]]. }
  destruct (lib_CompositeVideoClip lib _); cbv beta iota zeta.
  2:{ cbn [fst snd]. rewrite !wrote_video_app, !saved_frames_app, Hwv, Hsf.
      split; [reflexivity | split; [reflexivity | discriminate]]. }
  destruct (lib_save_frame lib output_path _); cbv beta iota zeta.
  2:{ cbn [fst snd]. rewrite !wrote_video_app, !saved_frames_app, Hwv, Hsf.
      split; [reflexivity | split; [reflexivity | discriminate]]. }
  cbn [fst snd]. rewrite !wrote_video_app, !saved_frames_app, Hwv, Hsf.
  split; [reflexivity |]. split; [intros Hne; contradiction Hne; reflexivity |].
  intros _. do 3 eexists. exists t.
  split; [reflexivity |]. split; [reflexivity |].
  split; [exact (proj1 Ht) |]. split; [exact (proj1 (proj2 Ht)) |].
  split; [exact (proj2 (proj2 Ht)) |].
  split; [reflexivity |]. split; [reflexivity |]. split; [reflexivity |].
  exact Hsrc.
Qed.

Lemma X10_thumbnail_saved_iff_true_witness :
  let m := create_thumbnail Examples.lib_ok Examples.assembler_plain
             StageExamples.script_accented "thumb.jpg" in
  String.length StageExamples.accented_title = 90%nat
  /\ result m = inr true
  /\ exists bg title badge,
      saved_frames (effects m)
      = [("thumb.jpg"%string, mkComposite [bg; title; badge] (1080, 1920)%Z [] None)]
      /\ clip_source title = SrcText StageExamples.accented_title "caption".
Proof.
  intros m.
  assert (Hrun : result m = inr true) by (vm_compute; reflexivity).
  split; [reflexivity |]. split; [exact Hrun |].
  destruct (proj2 (proj2 (X10_thumbnail_saved_iff_true Examples.lib_ok
                            Examples.assembler_plain StageExamples.script_accented
                            "thumb.jpg")) Hrun)
    as (bg & title & badge & t & Hsaved & Htitle & _ & Hwhole & _).
  exists bg, title, badge. split; [exact Hsaved |].
  rewrite Htitle, (Hwhole ltac:(vm_compute; lia)). reflexivity.
Defined.

(** * The stages before the assembly *)

(** ** [generate_all_audio] *)

Lemma enumerate_from_length {A : Type} (i : Z) (l : list A) :
  List.length (enumerate_from i l) = List.length l.
Proof. revert i. induction l as [| x l IH]; intros i; simpl; [| rewrite IH]; reflexivity. Qed.

(** What one round of the loop of [generate_all_audio] does to the list. *)
Lemma generate_segment_audio_cases (alib : AudioLib) (output_dir : string)
    (acc out : list AudioSegment.t) (i : Z) (ss : ScriptSegment.t) (t : list event) :
  generate_segment_audio alib output_dir acc (i, ss) = (inr out, t) ->
  let audio_path :=
    path_join output_dir
      ("segment_" ++ format_03d i ++ "_" ++ ScriptSegment.type ss ++ "_"
       ++ ScriptSegment.voice ss ++ ".mp3")%string in
  t = []
  /\ if lib_generate_audio alib (ScriptSegment.text ss) (ScriptSegment.voice ss) audio_path
     then exists d, lib_get_audio_duration alib audio_path = inr d
                    /\ out = (acc ++ [AudioSegment.mk i (ScriptSegment.type ss)
                                        (ScriptSegment.voice ss) (ScriptSegment.text ss)
                                        audio_path d])%list
     else out = acc.
Proof.
  intros Hrun audio_path. unfold generate_segment_audio in Hrun. fold audio_path in Hrun.
  destruct (lib_generate_audio alib _ _ audio_path).
  - unfold lift, bind, ret in Hrun.
    destruct (lib_get_audio_duration alib audio_path) as [e | d]; [discriminate |].
    injection Hrun as <- <-. split; [reflexivity |]. exists d. split; reflexivity.
  - injection Hrun as <- <-. split; reflexivity.
Qed.

(** The loop of [generate_all_audio] from index [i] on: the entries it adds
    carry increasing indexes from [i] on, each copied from the script segment
    at its index; a script segment is left out only when its generation
    failed. *)
Lemma generate_all_audio_from (alib : AudioLib) (output_dir : string)
    (segments : list ScriptSegment.t) :
  forall (i : Z) (acc out : list AudioSegment.t) (t : list event),
    for_each (generate_segment_audio alib output_dir) (enumerate_from i segments) acc
    = (inr out, t) ->
    exists new,
      out = (acc ++ new)%list /\ t = []
      /\ (List.length new <= List.length segments)%nat
      /\ StronglySorted Z.lt (map AudioSegment.segment_index new)
      /\ List.Forall
           (fun seg =>
              let k := AudioSegment.segment_index seg in
              (i <= k < i + Z.of_nat (List.length segments))%Z
              /\ exists ss,
                  nth_error segments (Z.to_nat (k - i)) = Some ss
                  /\ AudioSegment.segment_type seg = ScriptSegment.type ss
                  /\ AudioSegment.voice seg = ScriptSegment.voice ss
                  /\ AudioSegment.text seg = ScriptSegment.text ss
                  /\ AudioSegment.audio_path seg
                     = path_join output_dir
                         ("segment_" ++ format_03d k ++ "_" ++ ScriptSegment.type ss ++ "_"
                          ++ ScriptSegment.voice ss ++ ".mp3")%string
                  /\ lib_generate_audio alib (ScriptSegment.text ss) (ScriptSegment.voice ss)
                       (AudioSegment.audio_path seg) = true
                  /\ lib_get_audio_duration alib (AudioSegment.audio_path seg)
                     = inr (AudioSegment.duration seg))
           new
      /\ (forall (n : nat) (ss : ScriptSegment.t),
            nth_error segments n = Some ss ->
            lib_generate_audio alib (ScriptSegment.text ss) (ScriptSegment.voice ss)
              (path_join output_dir
                 ("segment_" ++ format_03d (i + Z.of_nat n) ++ "_" ++ ScriptSegment.type ss
                  ++ "_" ++ ScriptSegment.voice ss ++ ".mp3")%string) = true ->
            In (i + Z.of_nat n)%Z (map AudioSegment.segment_index new)).
Proof.
  induction segments as [| ss segments IH]; intros i acc out t Hrun.
  - cbn in Hrun. injection Hrun as <- <-. exists [].
    rewrite app_nil_r. repeat split; try constructor.
    intros [| n] ss' Hn; discriminate.
  - cbn [enumerate_from for_each] in Hrun.
    apply bind_inr_inv in Hrun as (acc1 & t1 & t2 & Hstep & Hrest & ->).
    apply generate_segment_audio_cases in Hstep as [-> Hstep].
    apply IH in Hrest as (new & -> & -> & Hlen & Hsorted & Hall & Hcomplete).
    assert (Hshift : List.Forall
              (fun seg =>
                 let k := AudioSegment.segment_index seg in
                 (i <= k < i + Z.of_nat (List.length (ss :: segments)))%Z
                 /\ exists ss0,
                     nth_error (ss :: segments) (Z.to_nat (k - i)) = Some ss0
                     /\ AudioSegment.segment_type seg = ScriptSegment.type ss0
                     /\ AudioSegment.voice seg = ScriptSegment.voice ss0
                     /\ AudioSegment.text seg = ScriptSegment.text ss0
                     /\ AudioSegment.audio_path seg
                        = path_join output_dir
                            ("segment_" ++ format_03d k ++ "_" ++ ScriptSegment.type ss0 ++ "_"
                             ++ ScriptSegment.voice ss0 ++ ".mp3")%string
                     /\ lib_generate_audio alib (ScriptSegment.text ss0)
                          (ScriptSegment.voice ss0) (AudioSegment.audio_path seg) = true
                     /\ lib_get_audio_duration alib (AudioSegment.audio_path seg)
                        = inr (AudioSegment.duration seg))
              new).
    { eapply List.Forall_impl; [| exact Hall].
      intros seg [Hk (ss0 & Hnth & Hrest)]. cbv zeta in *.
      split; [cbn [List.length]; lia |].
      exists ss0. split; [| exact Hrest].
      replace (Z.to_nat (AudioSegment.segment_index seg - i))
        with (S (Z.to_nat (AudioSegment.segment_index seg - (i + 1)))) by lia.
      exact Hnth. }
    assert (Hlater : List.Forall (fun k => (i < k)%Z) (map AudioSegment.segment_index new)).
    { apply List.Forall_map. eapply List.Forall_impl; [| exact Hall].
      intros seg [Hk _]. cbv zeta in Hk. lia. }
    destruct (lib_generate_audio alib (ScriptSegment.text ss) (ScriptSegment.voice ss) _)
      eqn:Hgen.
    + destruct Hstep as (d & Hd & ->).
      eexists (_ :: new). rewrite <- app_assoc. split; [reflexivity |].
      split; [reflexivity |]. split; [cbn [List.length]; lia |].
      split; [cbn [map AudioSegment.segment_index]; constructor; assumption |].
      split.
      * constructor; [| exact Hshift].
        cbn [AudioSegment.segment_index AudioSegment.segment_type AudioSegment.voice
             AudioSegment.text AudioSegment.audio_path AudioSegment.duration List.length].
        split; [lia |]. exists ss. rewrite Z.sub_diag.
        repeat split; try reflexivity; assumption.
      * intros [| n] ss' Hn Hok.
        -- left. cbn. lia.
        -- right. cbn [nth_error] in Hn.
           replace (i + Z.of_nat (S n))%Z with (i + 1 + Z.of_nat n)%Z in * by lia.
           apply (Hcomplete n ss' Hn Hok).
    + subst acc1. exists new. split; [reflexivity |]. split; [reflexivity |].
      split; [cbn [List.length]; lia |]. split; [exact Hsorted |].
      split; [exact Hshift |].
      intros [| n] ss' Hn Hok.
      * cbn [nth_error] in Hn. injection Hn as <-.
        rewrite Z.add_0_r in Hok. rewrite Hok in Hgen. discriminate.
      * cbn [nth_error] in Hn.
        replace (i + Z.of_nat (S n))%Z with (i + 1 + Z.of_nat n)%Z in * by lia.
        apply (Hcomplete n ss' Hn Hok).
Qed.

Lemma py_getitem_nth {A : Type} (l : list A) (k : Z) (x : A) :
  (0 <= k)%Z -> nth_error l (Z.to_nat k) = Some x -> py_getitem l k = inr x.
Proof.
  intros Hk Hnth. unfold py_getitem.
  destruct (Z.ltb_spec k 0) as [Hneg | _]; [lia |].
  destruct (Z.ltb_spec k 0) as [Hneg | _]; [lia |].
  rewrite Hnth. reflexivity.
Qed.

(** X11: the audio list follows the script.  A returning run of
    [generate_all_audio] has no tracked effect and yields at most one entry
    per script segment, with strictly increasing [segment_index]; each entry
    copies type, voice and text of the script segment at its index, names
    the file "segment_<index>_<type>_<voice>.mp3" of the output directory,
    and carries the duration probed for that file.  A script segment has no
    entry only when its generation failed. *)
Theorem X11_generated_audio_follows_script (alib : AudioLib) (script : GeneratedScript.t)
    (output_dir : string) (segs : list AudioSegment.t) (t : list event) :
  generate_all_audio alib script output_dir = (inr segs, t) ->
  let segments := GeneratedScript.segments script in
  let path_of (k : Z) (ss : ScriptSegment.t) :=
    path_join output_dir
      ("segment_" ++ format_03d k ++ "_" ++ ScriptSegment.type ss ++ "_"
       ++ ScriptSegment.voice ss ++ ".mp3")%string in
  t = []
  /\ (List.length segs <= List.length segments)%nat
  /\ StronglySorted Z.lt (map AudioSegment.segment_index segs)
  /\ List.Forall
       (fun seg =>
          let k := AudioSegment.segment_index seg in
          (0 <= k < Z.of_nat (List.length segments))%Z
          /\ exists ss,
              py_getitem segments k = inr ss
              /\ AudioSegment.segment_type seg = ScriptSegment.type ss
              /\ AudioSegment.voice seg = ScriptSegment.voice ss
              /\ AudioSegment.text seg = ScriptSegment.text ss
              /\ AudioSegment.audio_path seg = path_of k ss
              /\ lib_get_audio_duration alib (AudioSegment.audio_path seg)
                 = inr (AudioSegment.duration seg))
       segs
  /\ (forall (n : nat) (ss : ScriptSegment.t),
        nth_error segments n = Some ss ->
        lib_generate_audio alib (ScriptSegment.text ss) (ScriptSegment.voice ss)
          (path_of (Z.of_nat n) ss) = true ->
        In (Z.of_nat n) (map AudioSegment.segment_index segs)).
Proof.
  intros Hrun segments path_of. unfold generate_all_audio in Hrun.
  apply generate_all_audio_from in Hrun
    as (new & Hout & -> & Hlen & Hsorted & Hall & Hcomplete).
  cbn [app] in Hout. subst new. fold segments in Hlen, Hall, Hcomplete.
  split; [reflexivity |]. split; [exact Hlen |]. split; [exact Hsorted |]. split.
  - eapply List.Forall_impl; [| exact Hall].
    intros seg [Hk (ss & Hnth & Hty & Hvoice & Htext & Hpath & _ & Hdur)]. cbv zeta in *.
    split; [lia |]. exists ss. rewrite Z.sub_0_r in Hnth.
    split; [apply py_getitem_nth; [lia | exact Hnth] |]. auto.
  - intros n ss Hnth Hok. apply (Hcomplete n ss Hnth). exact Hok.
Qed.

Lemma X11_generated_audio_follows_script_witness :
  exists segs,
    generate_all_audio StageExamples.alib_no_narrator Examples.script3 "tmp" = (inr segs, [])
    /\ map AudioSegment.segment_index segs = [2%Z]
    /\ map AudioSegment.audio_path segs
       = ["tmp/segment_002_commentary_commentator.mp3"%string].
Proof.
  eassert (Hrun : generate_all_audio StageExamples.alib_no_narrator Examples.script3 "tmp"
                  = (inr _, _)) by (vm_compute; reflexivity).
  destruct (X11_generated_audio_follows_script _ _ _ _ _ Hrun) as (_ & _ & _ & _ & _).
  eexists. split; [exact Hrun |]. split; reflexivity.
Defined.

(** X12: the audio list produced from a script passes the script lookup of
    the assembly.  When [generate_all_audio] yields at least one entry, the
    audio files of the entries open, texts render, and the composition of a
    non-empty list of audio clips, the composition of the layers and the
    export succeed, then without background videos [assemble_video] returns
    [True] on that list, whatever the character videos are, and the pipeline
    steps end with the video path set. *)
Theorem X12_generated_audio_is_assembled (alib : AudioLib) (lib : Lib)
    (self : VideoAssembler.t) (script : GeneratedScript.t) (audio_dir video_path : string)
    (character_videos : option (list CharacterVideo.t))
    (segs : list AudioSegment.t) (t : list event) :
  generate_all_audio alib script audio_dir = (inr segs, t) ->
  segs <> [] ->
  VideoAssembler.background_videos self = [] ->
  (forall seg, In seg segs -> lib_AudioFileClip lib (AudioSegment.audio_path seg) <> None) ->
  (forall args, lib_TextClip lib args <> None) ->
  (forall clips, clips <> [] -> lib_CompositeAudioClip lib clips = true) ->
  (forall clips, lib_CompositeVideoClip lib clips = true) ->
  (forall path video, lib_write_videofile lib path video = true) ->
  (exists tr, assemble_video lib self script segs video_path character_videos = (inr true, tr))
  /\ result (pipeline.run_assembly lib self script segs character_videos video_path)
     = inr (pipeline.Assembled video_path).
Proof.
  intros Hrun Hne Hbg Haudio Htext Hca Hcv Hwrite.
  unfold generate_all_audio in Hrun.
  apply generate_all_audio_from in Hrun as (new & Hout & _ & _ & _ & Hall & _).
  cbn [app] in Hout. subst new.
  destruct (assemble_video_returns lib self script segs video_path character_videos
              Hbg Hne) as [tr Htr]; try assumption.
  { intros seg Hin. rewrite List.Forall_forall in Hall.
    destruct (Hall seg Hin) as [Hk (ss & Hnth & _)]. cbv zeta in *. exists ss.
    rewrite Z.sub_0_r in Hnth. apply py_getitem_nth; [lia | exact Hnth]. }
  split; [exists tr; exact Htr |].
  unfold pipeline.run_assembly.
  destruct segs as [| seg segs]; [contradiction Hne; reflexivity |].
  rewrite (bind_inr _ _ _ _ Htr). reflexivity.
Qed.

Lemma X12_generated_audio_is_assembled_witness :
  exists segs,
    generate_all_audio StageExamples.alib_ok Examples.script3 "tmp" = (inr segs, [])
    /\ result (pipeline.run_assembly Examples.lib_ok Examples.assembler_plain Examples.script3
                 segs None "out.mp4")
       = inr (pipeline.Assembled "out.mp4").
Proof.
  eassert (Hrun : generate_all_audio StageExamples.alib_ok Examples.script3 "tmp"
                  = (inr _, _)) by (vm_compute; reflexivity).
  eexists. split; [exact Hrun |].
  refine (proj2 (X12_generated_audio_is_assembled StageExamples.alib_ok Examples.lib_ok
                   Examples.assembler_plain Examples.script3 "tmp" "out.mp4" None _ _
                   Hrun _ eq_refl _ _ _ _ _)); try discriminate; try reflexivity.
  intros [| clip clips] Hclips; [contradiction Hclips |]; reflexivity.
Defined.

(** ** [generate_all_commentary_videos] *)

Lemma sublist_In {A : Type} (l1 l2 : list A) (x : A) :
  sublist l1 l2 -> In x l1 -> In x l2.
Proof.
  induction 1 as [| y l1 l2 _ IH | y l1 l2 _ IH]; intros Hin.
  - exact Hin.
  - destruct Hin as [-> | Hin]; [left; reflexivity | right; exact (IH Hin)].
  - right. exact (IH Hin).
Qed.

Lemma sublist_map {A B : Type} (f : A -> B) (l1 l2 : list A) :
  sublist l1 l2 -> sublist (map f l1) (map f l2).
Proof. induction 1; cbn [map]; constructor; assumption. Qed.

Lemma NoDup_map_eq {A B : Type} (f : A -> B) (l : list A) (x y : A) :
  List.NoDup (map f l) -> In x l -> In y l -> f x = f y -> x = y.
Proof.
  induction l as [| a l IH]; cbn [map]; intros Hnd Hx Hy Hf; [destruct Hx |].
  apply NoDup_cons_iff in Hnd as [Hnotin Hnd].
  destruct Hx as [-> | Hx], Hy as [-> | Hy].
  - reflexivity.
  - exfalso. apply Hnotin. rewrite Hf. apply in_map. exact Hy.
  - exfalso. apply Hnotin. rewrite <- Hf. apply in_map. exact Hx.
  - exact (IH Hnd Hx Hy Hf).
Qed.

Lemma NoDup_sublist {A : Type} (l1 l2 : list A) :
  sublist l1 l2 -> List.NoDup l2 -> List.NoDup l1.
Proof.
  induction 1 as [| y l1 l2 Hsub IH | y l1 l2 _ IH]; intros Hnd.
  - exact Hnd.
  - apply NoDup_cons_iff in Hnd as [Hnotin Hnd]. constructor; [| exact (IH Hnd)].
    intros Hin. apply Hnotin. exact (sublist_In _ _ _ Hsub Hin).
  - apply NoDup_cons_iff in Hnd as [_ Hnd]. exact (IH Hnd).
Qed.

Lemma StronglySorted_lt_NoDup (l : list Z) : StronglySorted Z.lt l -> List.NoDup l.
Proof.
  induction 1 as [| k l _ IH Hall]; constructor; [| exact IH].
  intros Hin. rewrite List.Forall_forall in Hall. specialize (Hall k Hin). lia.
Qed.

Lemma last_for_segment_some (k : Z) (cvs : list CharacterVideo.t) (cv : CharacterVideo.t) :
  last_for_segment k cvs = Some cv -> In cv cvs /\ CharacterVideo.segment_index cv = k.
Proof.
  induction cvs as [| c cvs IH]; cbn [last_for_segment]; [discriminate |].
  destruct (last_for_segment k cvs) as [later |].
  - intros H. injection H as ->. destruct (IH eq_refl) as [Hin Hk].
    split; [right; exact Hin | exact Hk].
  - destruct (Z.eqb_spec (CharacterVideo.segment_index c) k) as [Hk | _]; [| discriminate].
    intros H. injection H as ->. split; [left; reflexivity | exact Hk].
Qed.

Lemma last_for_segment_nodup (cvs : list CharacterVideo.t) (cv : CharacterVideo.t) :
  List.NoDup (map CharacterVideo.segment_index cvs) -> In cv cvs ->
  last_for_segment (CharacterVideo.segment_index cv) cvs = Some cv.
Proof.
  intros Hnd Hin.
  destruct (last_for_segment (CharacterVideo.segment_index cv) cvs) as [later |] eqn:Hlast.
  - apply last_for_segment_some in Hlast as [Hin' Hk].
    f_equal. apply (NoDup_map_eq CharacterVideo.segment_index cvs); assumption.
  - exfalso. revert Hlast. induction cvs as [| c cvs IH]; [destruct Hin |].
    cbn [last_for_segment]. cbn [map] in Hnd. apply NoDup_cons_iff in Hnd as [_ Hnd].
    destruct (last_for_segment (CharacterVideo.segment_index cv) cvs) eqn:Hrest;
      [discriminate |].
    destruct Hin as [-> | Hin]; [rewrite Z.eqb_refl; discriminate |].
    exfalso. exact (IH Hnd Hin eq_refl).
Qed.

(** The character video made for an audio segment. *)
Lemma generate_commentary_loop (generate : AudioSegment.t -> string -> Result bool)
    (output_dir : string) (segs : list AudioSegment.t) :
  forall (acc out : list CharacterVideo.t) (t : list event),
    for_each (generate_commentary_video generate output_dir) segs acc = (inr out, t) ->
    t = []
    /\ exists kept,
        sublist kept segs
        /\ List.Forall
             (fun seg => generate seg (character_video_path output_dir seg) = inr true) kept
        /\ out = (acc ++ map (fun seg =>
                                CharacterVideo.mk (AudioSegment.segment_index seg)
                                  (AudioSegment.audio_path seg)
                                  (character_video_path output_dir seg)
                                  (AudioSegment.duration seg)) kept)%list.
Proof.
  induction segs as [| seg segs IH]; intros acc out t Hrun.
  - cbn in Hrun. injection Hrun as <- <-. split; [reflexivity |].
    exists []. rewrite app_nil_r. repeat constructor.
  - cbn [for_each] in Hrun.
    apply bind_inr_inv in Hrun as (acc1 & t1 & t2 & Hstep & Hrest & ->).
    apply IH in Hrest as (-> & kept & Hsub & Hok & ->).
    unfold generate_commentary_video, lift, bind, ret in Hstep.
    destruct (generate seg (character_video_path output_dir seg)) as [e | [|]] eqn:Hgen;
      [discriminate | |]; injection Hstep as <- <-; (split; [reflexivity |]).
    + exists (seg :: kept). rewrite <- app_assoc.
      split; [constructor; exact Hsub |]. split; [constructor; assumption | reflexivity].
    + exists kept. split; [constructor; exact Hsub |]. split; [exact Hok | reflexivity].
Qed.

(** The list returned by [generate_all_commentary_videos]: one entry for each
    of some of the commentator's segments, in their order. *)
Lemma generate_all_commentary_videos_shape (clib : CharacterLib)
    (audio_segments : list AudioSegment.t) (output_dir : string)
    (cvs : list CharacterVideo.t) (t : list event) :
  generate_all_commentary_videos clib audio_segments output_dir = (inr cvs, t) ->
  t = []
  /\ exists kept,
      sublist kept audio_segments
      /\ List.Forall (fun seg => AudioSegment.voice seg = "commentator"%string) kept
      /\ cvs = map (fun seg =>
                      CharacterVideo.mk (AudioSegment.segment_index seg)
                        (AudioSegment.audio_path seg)
                        (character_video_path output_dir seg)
                        (AudioSegment.duration seg)) kept.
Proof.
  unfold generate_all_commentary_videos. intros Hrun.
  assert (Hloop : exists generate,
             for_each (generate_commentary_video generate output_dir)
               (filter (fun seg => (AudioSegment.voice seg =? "commentator")%string)
                  audio_segments) [] = (inr cvs, t)).
  { destruct (use_animatediff clib); eexists; exact Hrun. }
  destruct Hloop as [generate Hloop].
  apply generate_commentary_loop in Hloop as (-> & kept & Hsub & _ & ->).
  split; [reflexivity |]. exists kept. split; [| split; [| reflexivity]].
  - etransitivity; [exact Hsub | apply sublist_filter].
  - apply List.Forall_forall. intros seg Hin.
    pose proof (sublist_In _ _ _ Hsub Hin) as Hf.
    apply list_elem_of_In, list_elem_of_filter in Hf as [Hv _].
    apply Is_true_true, String.eqb_eq in Hv. exact Hv.
Qed.

(** X13: the character videos follow the audio list.  A returning run of
    [generate_all_commentary_videos] has no tracked effect and yields one
    entry for each of some of the commentator's audio segments, in their
    order; an entry copies index, audio path and duration of its audio
    segment and names the file "character_<index>.mp4" of the output
    directory.  When the audio segments have distinct indexes, so do the
    entries, and the index built by the assembly finds every one of them. *)
Theorem X13_character_videos_follow_audio (clib : CharacterLib)
    (audio_segments : list AudioSegment.t) (output_dir : string)
    (cvs : list CharacterVideo.t) (t : list event) :
  generate_all_commentary_videos clib audio_segments output_dir = (inr cvs, t) ->
  t = []
  /\ (exists kept,
        sublist kept audio_segments
        /\ List.Forall (fun seg => AudioSegment.voice seg = "commentator"%string) kept
        /\ cvs = map (fun seg =>
                        CharacterVideo.mk (AudioSegment.segment_index seg)
                          (AudioSegment.audio_path seg)
                          (path_join output_dir
                             ("character_" ++ format_03d (AudioSegment.segment_index seg)
                              ++ ".mp4")%string)
                          (AudioSegment.duration seg)) kept)
  /\ (List.NoDup (map AudioSegment.segment_index audio_segments) ->
      List.NoDup (map CharacterVideo.segment_index cvs)
      /\ forall cv, In cv cvs ->
           build_char_video_map (Some cvs) !! CharacterVideo.segment_index cv = Some cv).
Proof.
  intros Hrun.
  apply generate_all_commentary_videos_shape in Hrun as (-> & kept & Hsub & Hvoice & ->).
  split; [reflexivity |]. split; [exists kept; auto |].
  intros Hnd.
  assert (Hnd' : List.NoDup
            (map CharacterVideo.segment_index
               (map (fun seg =>
                       CharacterVideo.mk (AudioSegment.segment_index seg)
                         (AudioSegment.audio_path seg)
                         (character_video_path output_dir seg)
                         (AudioSegment.duration seg)) kept))).
  { rewrite map_map. cbn [CharacterVideo.segment_index].
    apply (NoDup_sublist _ (map AudioSegment.segment_index audio_segments));
      [| exact Hnd].
    apply (sublist_map AudioSegment.segment_index). exact Hsub. }
  split; [exact Hnd' |].
  intros cv Hin. rewrite build_char_video_map_lookup.
  apply last_for_segment_nodup; assumption.
Qed.

Lemma X13_character_videos_follow_audio_witness :
  generate_all_commentary_videos StageExamples.clib_ok
    [Examples.audio0; Examples.audio1; Examples.audio2] "tmp"
  = (inr [CharacterVideo.mk 2 "seg2.mp3" "tmp/character_002.mp4" 4], []).
Proof.
  eassert (Hrun : generate_all_commentary_videos StageExamples.clib_ok
                    [Examples.audio0; Examples.audio1; Examples.audio2] "tmp"
                  = (inr _, _)) by (vm_compute; reflexivity).
  destruct (X13_character_videos_follow_audio _ _ _ _ _ Hrun) as (_ & _ & _).
  exact Hrun.
Defined.

(** X14: the three stages together.  When the audio list comes from
    [generate_all_audio] and the character videos come from
    [generate_all_commentary_videos] over that list, the character video that
    the assembly finds for an audio segment is the one generated for that very
    segment, which the commentator speaks; for a segment of any other voice
    the assembly finds none and adds no overlay. *)
Theorem X14_overlays_only_for_the_commentator (alib : AudioLib) (clib : CharacterLib)
    (lib : Lib) (self : VideoAssembler.t) (script : GeneratedScript.t)
    (audio_dir char_dir : string) (segs : list AudioSegment.t)
    (cvs : list CharacterVideo.t) (t1 t2 : list event) (seg : AudioSegment.t) :
  generate_all_audio alib script audio_dir = (inr segs, t1) ->
  generate_all_commentary_videos clib segs char_dir = (inr cvs, t2) ->
  In seg segs ->
  let char_video_map := build_char_video_map (Some cvs) in
  (forall cv, char_video_map !! AudioSegment.segment_index seg = Some cv ->
     AudioSegment.voice seg = "commentator"%string
     /\ cv = CharacterVideo.mk (AudioSegment.segment_index seg) (AudioSegment.audio_path seg)
               (character_video_path char_dir seg) (AudioSegment.duration seg))
  /\ (AudioSegment.voice seg <> "commentator"%string ->
      forall (current : Q) (clips : list Clip),
        add_character_clip lib self char_video_map seg current clips = (inr clips, [])).
Proof.
  intros Haudio Hvideo Hseg char_video_map.
  unfold generate_all_audio in Haudio.
  apply generate_all_audio_from in Haudio as (new & Hout & _ & _ & Hsorted & _ & _).
  cbn [app] in Hout. subst new. apply StronglySorted_lt_NoDup in Hsorted.
  apply generate_all_commentary_videos_shape in Hvideo as (_ & kept & Hsub & Hvoice & ->).
  assert (Hfound : forall cv,
             char_video_map !! AudioSegment.segment_index seg = Some cv ->
             AudioSegment.voice seg = "commentator"%string
             /\ cv = CharacterVideo.mk (AudioSegment.segment_index seg)
                       (AudioSegment.audio_path seg)
                       (character_video_path char_dir seg) (AudioSegment.duration seg)).
  { intros cv Hlook. subst char_video_map. rewrite build_char_video_map_lookup in Hlook.
    apply last_for_segment_some in Hlook as [Hin Hk].
    apply in_map_iff in Hin as (seg' & <- & Hin'). cbn [CharacterVideo.segment_index] in Hk.
    assert (seg' = seg) as ->.
    { apply (NoDup_map_eq AudioSegment.segment_index segs); try assumption.
      exact (sublist_In _ _ _ Hsub Hin'). }
    rewrite List.Forall_forall in Hvoice. split; [exact (Hvoice seg Hin') | reflexivity]. }
  split; [exact Hfound |].
  intros Hnot current clips. unfold add_character_clip.
  destruct (char_video_map !! AudioSegment.segment_index seg) as [cv |] eqn:Hlook;
    [| reflexivity].
  destruct (Hfound cv eq_refl) as [Hv _]. contradiction.
Qed.

Lemma X14_overlays_only_for_the_commentator_witness :
  exists segs cvs,
    generate_all_audio StageExamples.alib_ok Examples.script3 "tmp" = (inr segs, [])
    /\ generate_all_commentary_videos StageExamples.clib_ok segs "chars" = (inr cvs, [])
    /\ forall seg, In seg (firstn 2 segs) ->
         add_character_clip Examples.lib_ok Examples.assembler_plain
           (build_char_video_map (Some cvs)) seg 0 [] = (inr [], []).
Proof.
  eassert (Haudio : generate_all_audio StageExamples.alib_ok Examples.script3 "tmp"
                    = (inr _, _)) by (vm_compute; reflexivity).
  match type of Haudio with
  | _ = (inr ?segs, _) =>
      eassert (Hvideo : generate_all_commentary_videos StageExamples.clib_ok segs "chars"
                        = (inr _, _)) by (vm_compute; reflexivity)
  end.
  eexists. eexists. split; [exact Haudio |]. split; [exact Hvideo |].
  intros seg Hin.
  refine (proj2 (X14_overlays_only_for_the_commentator StageExamples.alib_ok
                   StageExamples.clib_ok Examples.lib_ok Examples.assembler_plain
                   Examples.script3 "tmp" "chars" _ _ _ _ seg Haudio Hvideo _) _ 0 []).
  - cbn [firstn] in Hin. destruct Hin as [<- | [<- | []]]; cbn; auto.
  - cbn [firstn] in Hin. destruct Hin as [<- | [<- | []]]; discriminate.
Defined.

(** * The run of the pipeline *)

Lemma assemble_video_true_wrote (lib : Lib) (self : VideoAssembler.t)
    (script : GeneratedScript.t) (segs : list AudioSegment.t) (output_path : string)
    (character_videos : option (list CharacterVideo.t)) (b : bool) (tr : list event) :
  assemble_video lib self script segs output_path character_videos = (inr b, tr) ->
  b = true /\ wrote_video tr = true.
Proof.
  intros H. apply assemble_video_inv in H
    as (bg & st & caps & tbg & tloop & _ & _ & _ & -> & ->).
  split; [reflexivity |].
  rewrite !wrote_video_app. cbn. rewrite !orb_true_r. reflexivity.
Qed.

Lemma generate_all_audio_effects (alib : AudioLib) (script : GeneratedScript.t)
    (output_dir : string) :
  effects (generate_all_audio alib script output_dir) = [].
Proof.
  unfold generate_all_audio. generalize (@nil AudioSegment.t) as acc. generalize 0%Z as i.
  induction (GeneratedScript.segments script) as [| ss segments IH]; intros i acc;
    [reflexivity |].
  cbn [enumerate_from for_each]. unfold bind.
  destruct (generate_segment_audio alib output_dir acc (i, ss)) as [[e | acc1] t1] eqn:Hstep.
  - unfold generate_segment_audio, lift, bind, ret in Hstep.
    destruct (lib_generate_audio alib _ _ _); [| discriminate].
    destruct (lib_get_audio_duration alib _); [| discriminate].
    injection Hstep as <- <-. reflexivity.
  - apply generate_segment_audio_cases in Hstep as [-> _].
    specialize (IH (i + 1)%Z acc1). unfold effects in IH.
    destruct (for_each _ _ acc1) as [r t2]. cbn [snd] in *. subst t2. reflexivity.
Qed.

(** The effects of the stage of the character videos: none. *)
Lemma generate_all_commentary_videos_effects (clib : CharacterLib)
    (audio_segments : list AudioSegment.t) (output_dir : string) :
  effects (generate_all_commentary_videos clib audio_segments output_dir) = [].
Proof.
  assert (Hloop : forall generate segs acc,
             effects (for_each (generate_commentary_video generate output_dir) segs acc) = []).
  { intros generate segs. induction segs as [| seg segs IH]; intros acc; [reflexivity |].
    cbn [for_each]. unfold bind.
    assert (Hstep : exists r, generate_commentary_video generate output_dir acc seg = (r, [])).
    { unfold generate_commentary_video, lift, bind, ret.
      destruct (generate seg _) as [e | [|]]; eexists; reflexivity. }
    destruct Hstep as [[e | acc1] ->]; [reflexivity |].
    specialize (IH acc1). unfold effects in IH.
    destruct (for_each _ segs acc1) as [r t2]. cbn [snd] in *. subst t2. reflexivity. }
  unfold generate_all_commentary_videos. destruct (use_animatediff clib); apply Hloop.
Qed.

(** Rewrites [wrote_video] of a trace that holds a part known to export. *)
Ltac wrote_known H :=
  rewrite ?wrote_video_app, ?H;
  repeat first [progress cbn [orb] | rewrite orb_true_r].

(** Closes the conjunctions that describe the end of a run. *)
Ltac run_done :=
  repeat match goal with
         | |- _ /\ _ => split
         end;
  first [ reflexivity | left; reflexivity | right; split; reflexivity
        | eexists; left; reflexivity
        | eexists; right; split; [reflexivity | rewrite <- app_assoc; reflexivity] ].

(** X15: how a run of [run_full_pipeline] ends.  Starting with
    [results['success']] unset, the run either sets it, and then a video was
    exported, [results['video_path']] names it, the story was marked as used,
    the temporary files were removed and at most the message of a failed
    upload was recorded; or it leaves it unset and records one error, which
    after a failed upload follows the message of that failure.
    [results['video_path']] is only ever set to the path of an exported video,
    and the story id is never changed. *)
Theorem X15_run_ends_in_success_or_error
    (env : RedditStoriesPipeline.Env) (alib : AudioLib) (clib : CharacterLib) (lib : Lib)
    (va : VideoAssembler.t) (upload : bool) (script : GeneratedScript.t)
    (audio_dir char_dir video_path thumbnail_path : string)
    (r r' : RedditStoriesPipeline.Results) (t : list event) :
  RedditStoriesPipeline.success r = false ->
  RedditStoriesPipeline.run_full_pipeline env alib clib lib va upload script
    audio_dir char_dir video_path thumbnail_path r = (r', t) ->
  RedditStoriesPipeline.story_id r' = RedditStoriesPipeline.story_id r
  /\ (RedditStoriesPipeline.video_path r' = RedditStoriesPipeline.video_path r
      \/ (RedditStoriesPipeline.video_path r' = Some video_path /\ wrote_video t = true))
  /\ if RedditStoriesPipeline.success r'
     then wrote_video t = true
          /\ RedditStoriesPipeline.video_path r' = Some video_path
          /\ RedditStoriesPipeline.mark_as_used env = inr tt
          /\ RedditStoriesPipeline._cleanup_temp env = inr tt
          /\ (RedditStoriesPipeline.errors r' = RedditStoriesPipeline.errors r
              \/ (upload = true
                  /\ RedditStoriesPipeline.errors r'
                     = (RedditStoriesPipeline.errors r ++ ["YouTube upload failed"%string])%list))
     else exists msg,
         RedditStoriesPipeline.errors r' = (RedditStoriesPipeline.errors r ++ [msg])%list
         \/ (upload = true
             /\ RedditStoriesPipeline.errors r'
                = (RedditStoriesPipeline.errors r
                   ++ ["YouTube upload failed"%string; msg])%list).
Proof.
  intros Hr Hrun.
  unfold RedditStoriesPipeline.run_full_pipeline, RedditStoriesPipeline.steps,
    RedditStoriesPipeline.bindP, RedditStoriesPipeline.liftM, RedditStoriesPipeline.liftR,
    RedditStoriesPipeline.update, RedditStoriesPipeline.retP in Hrun.
  destruct (generate_all_audio alib script audio_dir) as [[e | [| seg segs]] t1];
    cbn [fst snd] in Hrun.
  1,2: injection Hrun as <- <-; cbn; rewrite Hr; run_done.
  set (audio := seg :: segs) in *.
  assert (Hasm : forall cvs b tr,
             assemble_video lib va script audio video_path cvs = (inr b, tr) ->
             b = true /\ wrote_video tr = true)
    by (intros cvs b tr; apply assemble_video_true_wrote).
  destruct (RedditStoriesPipeline.enable_character env).
  - destruct (RedditStoriesPipeline.get_or_create_character env) as [e | []].
    { injection Hrun as <- <-. cbn. rewrite Hr. run_done. }
    destruct (generate_all_commentary_videos clib audio char_dir) as [[e | cvs] t2];
      cbn [fst snd] in Hrun.
    { injection Hrun as <- <-. cbn. rewrite Hr. run_done. }
    destruct (assemble_video lib va script audio video_path (Some cvs)) as [[e | b] t3]
      eqn:Hassemble; cbn [fst snd] in Hrun.
    { injection Hrun as <- <-. cbn. rewrite Hr. run_done. }
    destruct (Hasm _ _ _ Hassemble) as [-> Hw]. cbn [negb] in Hrun.
    destruct (create_thumbnail lib va script thumbnail_path) as [[e | b] t4];
      cbn [fst snd] in Hrun.
    { injection Hrun as <- <-. cbn. rewrite Hr. wrote_known Hw. run_done. }
    destruct upload;
      [destruct (RedditStoriesPipeline.upload_from_script env _ _) as [e | [id |]] |];
      destruct (RedditStoriesPipeline.mark_as_used env) as [e1 | []];
      destruct (RedditStoriesPipeline._cleanup_temp env) as [e2 | []];
      injection Hrun as <- <-; cbn; rewrite ?Hr; wrote_known Hw; run_done.
  - destruct (assemble_video lib va script audio video_path None) as [[e | b] t3]
      eqn:Hassemble; cbn [fst snd] in Hrun.
    { injection Hrun as <- <-. cbn. rewrite Hr. run_done. }
    destruct (Hasm _ _ _ Hassemble) as [-> Hw]. cbn [negb] in Hrun.
    destruct (create_thumbnail lib va script thumbnail_path) as [[e | b] t4];
      cbn [fst snd] in Hrun.
    { injection Hrun as <- <-. cbn. rewrite Hr. wrote_known Hw. run_done. }
    destruct upload;
      [destruct (RedditStoriesPipeline.upload_from_script env _ _) as [e | [id |]] |];
      destruct (RedditStoriesPipeline.mark_as_used env) as [e1 | []];
      destruct (RedditStoriesPipeline._cleanup_temp env) as [e2 | []];
      injection Hrun as <- <-; cbn; rewrite ?Hr; wrote_known Hw; run_done.
Qed.

Lemma X15_run_ends_in_success_or_error_witness :
  let run :=
    RedditStoriesPipeline.run_full_pipeline StageExamples.env_ok StageExamples.alib_ok
      StageExamples.clib_ok Examples.lib_ok Examples.assembler_bg false Examples.script3
      "audio" "chars" "out.mp4" "thumb.jpg" StageExamples.results0 in
  fst run
  = RedditStoriesPipeline.mkResults true (Some "abc"%string) (Some "out.mp4"%string) None []
  /\ wrote_video (snd run) = true.
Proof.
  intros run.
  eassert (Hrun : run = (_, _)) by (vm_compute; reflexivity).
  pose proof (X15_run_ends_in_success_or_error StageExamples.env_ok StageExamples.alib_ok
                StageExamples.clib_ok Examples.lib_ok Examples.assembler_bg false
                Examples.script3 "audio" "chars" "out.mp4" "thumb.jpg"
                StageExamples.results0 _ _ eq_refl Hrun) as (_ & _ & Hend).
  cbn [RedditStoriesPipeline.success] in Hend. destruct Hend as (Hw & _).
  rewrite Hrun. split; [reflexivity | exact Hw].
Defined.

(** X16: an exception of [create_thumbnail] ends the run after the export.
    When the run exported the video and [create_thumbnail] raises, which it
    does when its background cannot be loaded, the run ends with
    [results['video_path']] set and the exception recorded, and with
    [results['success']] and [results['youtube_id']] untouched: the video is
    not uploaded, whatever the upload would have done. *)
Theorem X16_thumbnail_exception_after_export
    (env : RedditStoriesPipeline.Env) (alib : AudioLib) (clib : CharacterLib) (lib : Lib)
    (va : VideoAssembler.t) (upload : bool) (script : GeneratedScript.t)
    (audio_dir char_dir video_path thumbnail_path : string)
    (r r' : RedditStoriesPipeline.Results) (t t4 : list event) (e : exn) :
  RedditStoriesPipeline.run_full_pipeline env alib clib lib va upload script
    audio_dir char_dir video_path thumbnail_path r = (r', t) ->
  wrote_video t = true ->
  create_thumbnail lib va script thumbnail_path = (inl e, t4) ->
  r' = RedditStoriesPipeline.mkResults
         (RedditStoriesPipeline.success r) (RedditStoriesPipeline.story_id r)
         (Some video_path) (RedditStoriesPipeline.youtube_id r)
         (RedditStoriesPipeline.errors r ++ [RedditStoriesPipeline.str env e]).
Proof.
  intros Hrun Hwrote Hthumb.
  unfold RedditStoriesPipeline.run_full_pipeline, RedditStoriesPipeline.steps,
    RedditStoriesPipeline.bindP, RedditStoriesPipeline.liftM, RedditStoriesPipeline.liftR,
    RedditStoriesPipeline.update, RedditStoriesPipeline.retP in Hrun.
  rewrite Hthumb in Hrun.
  pose proof (generate_all_audio_effects alib script audio_dir) as Ha. unfold effects in Ha.
  destruct (generate_all_audio alib script audio_dir) as [[e0 | [| seg segs]] t1];
    cbn [fst snd] in Hrun, Ha; subst t1.
  1,2: injection Hrun as <- <-; discriminate.
  set (audio := seg :: segs) in *.
  assert (Hasm : forall cvs r0 t0,
             assemble_video lib va script audio video_path cvs = (r0, t0) ->
             match r0 with
             | inl _ => wrote_video t0 = false
             | inr b => b = true
             end).
  { intros cvs [e0 | b] t0 H.
    - pose proof (assemble_video_raise_no_output lib va script audio video_path cvs e0) as Hno.
      rewrite H in Hno. exact (Hno eq_refl).
    - exact (proj1 (assemble_video_true_wrote _ _ _ _ _ _ _ _ H)). }
  destruct (RedditStoriesPipeline.enable_character env).
  - destruct (RedditStoriesPipeline.get_or_create_character env) as [e0 | []].
    { injection Hrun as <- <-. discriminate. }
    pose proof (generate_all_commentary_videos_effects clib audio char_dir) as Hc.
    unfold effects in Hc.
    destruct (generate_all_commentary_videos clib audio char_dir) as [[e0 | cvs] t2];
      cbn [fst snd] in Hrun, Hc; subst t2.
    { injection Hrun as <- <-. discriminate. }
    destruct (assemble_video lib va script audio video_path (Some cvs)) as [[e0 | b] t3]
      eqn:Hassemble; cbn [fst snd] in Hrun; specialize (Hasm _ _ _ Hassemble);
      cbv beta iota in Hasm.
    { injection Hrun as <- <-. cbn [app] in Hwrote. congruence. }
    subst b. cbn [negb fst snd] in Hrun. injection Hrun as <- <-. reflexivity.
  - destruct (assemble_video lib va script audio video_path None) as [[e0 | b] t3]
      eqn:Hassemble; cbn [fst snd] in Hrun; specialize (Hasm _ _ _ Hassemble);
      cbv beta iota in Hasm.
    { injection Hrun as <- <-. cbn [app] in Hwrote. congruence. }
    subst b. cbn [negb fst snd] in Hrun. injection Hrun as <- <-. reflexivity.
Qed.

Lemma X16_thumbnail_exception_after_export_witness :
  fst (RedditStoriesPipeline.run_full_pipeline StageExamples.env_ok StageExamples.alib_ok
         StageExamples.clib_ok StageExamples.lib_no_frame Examples.assembler_bg true
         Examples.script3 "audio" "chars" "out.mp4" "thumb.jpg" StageExamples.results0)
  = RedditStoriesPipeline.mkResults false (Some "abc"%string) (Some "out.mp4"%string) None
      ["error"%string].
Proof.
  eassert (Hrun : RedditStoriesPipeline.run_full_pipeline StageExamples.env_ok
                    StageExamples.alib_ok StageExamples.clib_ok StageExamples.lib_no_frame
                    Examples.assembler_bg true Examples.script3
                    "audio" "chars" "out.mp4" "thumb.jpg" StageExamples.results0
                  = (_, _)) by (vm_compute; reflexivity).
  eassert (Hthumb : create_thumbnail StageExamples.lib_no_frame Examples.assembler_bg
                      Examples.script3 "thumb.jpg" = (inl _, _))
    by (vm_compute; reflexivity).
  rewrite (X16_thumbnail_exception_after_export _ _ _ _ _ _ _ _ _ _ _ _ _ _ _ _
             Hrun ltac:(vm_compute; reflexivity) Hthumb) at 1.
  rewrite Hrun. reflexivity.
Defined.

(** * The upload *)

(** The sleeps of the loop entered with the counter at [retry]: numbered from
    [retry + 1] on, never beyond [MAX_RETRIES], each within 1 to 5 times
    [2 ** retry] seconds. *)
Lemma upload_loop_sleeps (next_chunk : nat -> YouTubeUploader.chunk) (uniform : nat -> Q) :
  (forall n, 1 <= uniform n /\ uniform n <= 5) ->
  forall (rounds calls : nat) (retry : Z) (o : option YouTubeUploader.outcome)
         (sleeps : list YouTubeUploader.sleep),
    YouTubeUploader.upload_loop rounds next_chunk uniform calls retry = (o, sleeps) ->
    (0 <= retry <= 3)%Z ->
    map YouTubeUploader.sleep_retry sleeps
    = map (fun i => (retry + Z.of_nat i)%Z) (seq 1 (List.length sleeps))
    /\ (retry + Z.of_nat (List.length sleeps) <= 3)%Z
    /\ List.Forall
         (fun s =>
            inject_Z (2 ^ YouTubeUploader.sleep_retry s) <= YouTubeUploader.sleep_time s
            /\ YouTubeUploader.sleep_time s
               <= 5 * inject_Z (2 ^ YouTubeUploader.sleep_retry s))
         sleeps
    /\ (o = Some YouTubeUploader.GaveUp -> (retry + Z.of_nat (List.length sleeps) = 3)%Z).
Proof.
  intros Hu. induction rounds as [| rounds IH]; intros calls retry o sleeps Hrun Hretry.
  - cbn in Hrun. injection Hrun as <- <-. cbn.
    split; [reflexivity | split; [lia | split; [constructor | discriminate]]].
  - cbn [YouTubeUploader.upload_loop] in Hrun.
    assert (Hstop : forall result,
               result <> YouTubeUploader.GaveUp ->
               (Some result, @nil YouTubeUploader.sleep) = (o, sleeps) ->
               map YouTubeUploader.sleep_retry sleeps
               = map (fun i => (retry + Z.of_nat i)%Z) (seq 1 (List.length sleeps))
               /\ (retry + Z.of_nat (List.length sleeps) <= 3)%Z
               /\ List.Forall
                    (fun s =>
                       inject_Z (2 ^ YouTubeUploader.sleep_retry s)
                       <= YouTubeUploader.sleep_time s
                       /\ YouTubeUploader.sleep_time s
                          <= 5 * inject_Z (2 ^ YouTubeUploader.sleep_retry s))
                    sleeps
               /\ (o = Some YouTubeUploader.GaveUp
                   -> (retry + Z.of_nat (List.length sleeps) = 3)%Z)).
    { intros result Hne H. injection H as <- <-. cbn.
      split; [reflexivity | split; [lia | split; [constructor |]]].
      intros H. injection H as ->. contradiction. }
    assert (Hcounted :
              (if (YouTubeUploader.MAX_RETRIES <? retry + 1)%Z
               then (Some YouTubeUploader.GaveUp, [])
               else let '(result, sl) :=
                      YouTubeUploader.upload_loop rounds next_chunk uniform (S calls)
                        (retry + 1) in
                    (result,
                     YouTubeUploader.mkSleep (retry + 1)
                       (uniform calls * inject_Z (2 ^ (retry + 1))) :: sl))
              = (o, sleeps) ->
              map YouTubeUploader.sleep_retry sleeps
              = map (fun i => (retry + Z.of_nat i)%Z) (seq 1 (List.length sleeps))
              /\ (retry + Z.of_nat (List.length sleeps) <= 3)%Z
              /\ List.Forall
                   (fun s =>
                      inject_Z (2 ^ YouTubeUploader.sleep_retry s)
                      <= YouTubeUploader.sleep_time s
                      /\ YouTubeUploader.sleep_time s
                         <= 5 * inject_Z (2 ^ YouTubeUploader.sleep_retry s))
                   sleeps
              /\ (o = Some YouTubeUploader.GaveUp
                  -> (retry + Z.of_nat (List.length sleeps) = 3)%Z)).
    { unfold YouTubeUploader.MAX_RETRIES.
      destruct (Z.ltb_spec 3 (retry + 1)) as [Hmax | Hmore].
      - intros H. injection H as <- <-. cbn.
        split; [reflexivity | split; [lia | split; [constructor | intros _; lia]]].
      - destruct (YouTubeUploader.upload_loop rounds next_chunk uniform (S calls) (retry + 1))
          as [result sl] eqn:Hrest.
        intros H. injection H as <- <-.
        destruct (IH _ _ _ _ Hrest ltac:(lia)) as (Hmap & Hlen & Hall & Hgave).
        cbn [List.length map seq YouTubeUploader.sleep_retry].
        split; [| split; [lia | split; [| intros Ho; specialize (Hgave Ho); lia]]].
        + f_equal; try lia. rewrite Hmap, <- (seq_shift (List.length sl) 1), map_map.
          apply map_ext. intros i. lia.
        + constructor; [| exact Hall].
          cbn [YouTubeUploader.sleep_retry YouTubeUploader.sleep_time].
          destruct (Hu calls) as [Hlo Hhi].
          assert (Hpow : 0 <= inject_Z (2 ^ (retry + 1))).
          { change 0 with (inject_Z 0). rewrite <- Zle_Qle. apply Z.pow_nonneg. lia. }
          split; nra. }
    destruct (next_chunk calls) as [[response |] | status | message].
    + eapply Hstop; [| exact Hrun]; discriminate.
    + apply (IH _ _ _ _ Hrun Hretry).
    + destruct (existsb (Z.eqb status) YouTubeUploader.RETRIABLE_STATUS_CODES).
      * apply Hcounted. exact Hrun.
      * eapply Hstop; [| exact Hrun]; discriminate.
    + destruct (negb (message =? "")%string).
      * apply Hcounted. exact Hrun.
      * apply (IH _ _ _ _ Hrun Hretry).
Qed.

(** X17: the retries of an upload are bounded.  Whatever the request does and
    however long the loop runs, [_resumable_upload] sleeps at most
    [MAX_RETRIES] = 3 times, before the retries 1, 2 and 3 in this order; the
    sleep before retry [k] lasts between [2 ** k] and [5 * 2 ** k] seconds,
    so that all sleeps together last at most 70 seconds; and the method
    gives up, returning [None], only after three sleeps. *)
Theorem X17_upload_retries_are_bounded (rounds : nat)
    (next_chunk : nat -> YouTubeUploader.chunk) (uniform : nat -> Q)
    (o : option YouTubeUploader.outcome) (sleeps : list YouTubeUploader.sleep) :
  (forall n, 1 <= uniform n /\ uniform n <= 5) ->
  YouTubeUploader._resumable_upload rounds next_chunk uniform = (o, sleeps) ->
  map YouTubeUploader.sleep_retry sleeps = firstn (List.length sleeps) [1; 2; 3]%Z
  /\ (List.length sleeps <= 3)%nat
  /\ (o = Some YouTubeUploader.GaveUp -> List.length sleeps = 3%nat)
  /\ List.Forall
       (fun s =>
          inject_Z (2 ^ YouTubeUploader.sleep_retry s) <= YouTubeUploader.sleep_time s
          /\ YouTubeUploader.sleep_time s <= 5 * inject_Z (2 ^ YouTubeUploader.sleep_retry s))
       sleeps
  /\ sigma (map YouTubeUploader.sleep_time sleeps) <= 70.
Proof.
  intros Hu Hrun. unfold YouTubeUploader._resumable_upload in Hrun.
  destruct (upload_loop_sleeps next_chunk uniform Hu _ _ _ _ _ Hrun ltac:(lia))
    as (Hmap & Hlen & Hall & Hgave).
  assert (Hlen3 : (List.length sleeps <= 3)%nat) by lia.
  split; [| split; [exact Hlen3 | split; [intros Ho; specialize (Hgave Ho); lia |
                                          split; [exact Hall |]]]].
  - rewrite Hmap. destruct sleeps as [| s1 [| s2 [| s3 [| s4 rest]]]]; cbn in *;
      try reflexivity; lia.
  - destruct sleeps as [| s1 [| s2 [| s3 [| s4 rest]]]]; cbn in Hlen3; try lia;
      cbn in Hmap; cbn [map sigma]; [lra | | |];
      inversion Hmap; clear Hmap;
      rewrite !List.Forall_cons_iff in Hall;
      repeat match goal with
             | H : YouTubeUploader.sleep_retry ?s = _ |- _ => rewrite H in Hall; clear H
             end;
      repeat match type of Hall with
             | context [inject_Z ?z] =>
                 let v := eval vm_compute in (inject_Z z) in
                 progress change (inject_Z z) with v in Hall
             end;
      lra.
Qed.

Lemma X17_upload_retries_are_bounded_witness :
  YouTubeUploader._resumable_upload 10 YouTubeUploader.always_503 (fun _ => 3)
  = (Some YouTubeUploader.GaveUp,
     [YouTubeUploader.mkSleep 1 (3 * inject_Z 2); YouTubeUploader.mkSleep 2 (3 * inject_Z 4);
      YouTubeUploader.mkSleep 3 (3 * inject_Z 8)]).
Proof.
  pose proof (X17_upload_retries_are_bounded 10 YouTubeUploader.always_503 (fun _ => 3)
                _ _ ltac:(intros n; split; discriminate) eq_refl) as Hbound.
  reflexivity.
Defined.

(** The loop ends once the request completes: entered before call number
    [calls], with enough rounds to reach a call [N] that returns the
    response, it returns, gives up or raises. *)
Lemma upload_loop_ends (next_chunk : nat -> YouTubeUploader.chunk) (uniform : nat -> Q)
    (N : nat) (response : string) :
  next_chunk N = YouTubeUploader.Chunk (Some response) ->
  forall (rounds calls : nat) (retry : Z),
    (calls <= N < calls + rounds)%nat ->
    exists o sleeps,
      YouTubeUploader.upload_loop rounds next_chunk uniform calls retry = (Some o, sleeps).
Proof.
  intros HN. induction rounds as [| rounds IH]; intros calls retry Hcalls; [lia |].
  cbn [YouTubeUploader.upload_loop].
  destruct (Nat.eq_dec calls N) as [-> | Hne].
  { rewrite HN. eexists. eexists. reflexivity. }
  assert (Hnext : forall retry', exists o sleeps,
             YouTubeUploader.upload_loop rounds next_chunk uniform (S calls) retry'
             = (Some o, sleeps))
    by (intros retry'; apply IH; lia).
  assert (Hcounted : exists o sleeps,
             (if (YouTubeUploader.MAX_RETRIES <? retry + 1)%Z
              then (Some YouTubeUploader.GaveUp, [])
              else let '(result, sl) :=
                     YouTubeUploader.upload_loop rounds next_chunk uniform (S calls)
                       (retry + 1) in
                   (result,
                    YouTubeUploader.mkSleep (retry + 1)
                      (uniform calls * inject_Z (2 ^ (retry + 1))) :: sl))
             = (Some o, sleeps)).
  { destruct (YouTubeUploader.MAX_RETRIES <? retry + 1)%Z;
      [eexists; eexists; reflexivity |].
    destruct (Hnext (retry + 1)%Z) as (o & sl & ->). eexists. eexists. reflexivity. }
  destruct (next_chunk calls) as [[r |] | status | message].
  - eexists. eexists. reflexivity.
  - apply Hnext.
  - destruct (existsb (Z.eqb status) YouTubeUploader.RETRIABLE_STATUS_CODES);
      [exact Hcounted | eexists; eexists; reflexivity].
  - destruct (negb (message =? "")%string); [exact Hcounted | apply Hnext].
Qed.

(** X18: the upload ends when the request completes.  If some call of
    [next_chunk()] would return the response, [_resumable_upload] ends within
    that many rounds: it returns a response, gives up or raises again.  If all
    the calls before only report progress, it returns that response without
    sleeping. *)
Theorem X18_upload_ends_when_the_request_completes
    (next_chunk : nat -> YouTubeUploader.chunk) (uniform : nat -> Q)
    (N extra : nat) (response : string) :
  next_chunk N = YouTubeUploader.Chunk (Some response) ->
  (exists o sleeps,
      YouTubeUploader._resumable_upload (S N + extra) next_chunk uniform = (Some o, sleeps))
  /\ ((forall n, (n < N)%nat -> next_chunk n = YouTubeUploader.Chunk None) ->
      YouTubeUploader._resumable_upload (S N + extra) next_chunk uniform
      = (Some (YouTubeUploader.Response response), [])).
Proof.
  intros HN. split.
  - apply (upload_loop_ends next_chunk uniform N response HN). lia.
  - intros Hprogress. unfold YouTubeUploader._resumable_upload.
    assert (Hloop : forall rounds calls retry,
               (calls <= N < calls + rounds)%nat ->
               YouTubeUploader.upload_loop rounds next_chunk uniform calls retry
               = (Some (YouTubeUploader.Response response), [])).
    { induction rounds as [| rounds IH]; intros calls retry Hcalls; [lia |].
      cbn [YouTubeUploader.upload_loop].
      destruct (Nat.eq_dec calls N) as [-> | Hne]; [rewrite HN; reflexivity |].
      rewrite Hprogress by lia. apply IH. lia. }
    apply Hloop. lia.
Qed.

Lemma X18_upload_ends_when_the_request_completes_witness :
  exists sleeps,
    YouTubeUploader._resumable_upload 4 YouTubeUploader.completes_at_3 (fun _ => 1)
    = (Some (YouTubeUploader.Response "video-id"), sleeps)
    /\ List.length sleeps = 2%nat.
Proof.
  destruct (proj1 (X18_upload_ends_when_the_request_completes
                     YouTubeUploader.completes_at_3 (fun _ => 1) 3 0 "video-id" eq_refl))
    as (o & sleeps & Hrun).
  exists sleeps. vm_compute in Hrun. injection Hrun as <- <-.
  split; reflexivity.
Defined.

(** * [process_single_story] *)

(** X19: how [process_single_story] ends.  Starting with
    [results['success']] unset, the run sets it exactly when it exported the
    video, and then [results['video_path']] names the video; otherwise the
    path is left as it was and exactly one error is recorded.  After the
    export at most one error is recorded, that of the upload or of the
    clean-up. *)
Theorem X19_single_story_success_iff_exported
    (env : RedditStoriesPipeline.Env) (alib : AudioLib) (clib : CharacterLib) (lib : Lib)
    (va : VideoAssembler.t) (upload : bool) (script : GeneratedScript.t)
    (audio_dir char_dir video_path : string)
    (r r' : RedditStoriesPipeline.Results) (t : list event) :
  RedditStoriesPipeline.success r = false ->
  RedditStoriesPipeline.process_single_story env alib clib lib va upload script
    audio_dir char_dir video_path r = (r', t) ->
  RedditStoriesPipeline.success r' = wrote_video t
  /\ if wrote_video t
     then RedditStoriesPipeline.video_path r' = Some video_path
          /\ (RedditStoriesPipeline.errors r' = RedditStoriesPipeline.errors r
              \/ exists msg,
                  RedditStoriesPipeline.errors r'
                  = (RedditStoriesPipeline.errors r ++ [msg])%list)
     else RedditStoriesPipeline.video_path r' = RedditStoriesPipeline.video_path r
          /\ exists msg,
              RedditStoriesPipeline.errors r'
              = (RedditStoriesPipeline.errors r ++ [msg])%list.
Proof.
  intros Hr Hrun.
  unfold RedditStoriesPipeline.process_single_story, RedditStoriesPipeline.single_story_steps,
    RedditStoriesPipeline.bindP, RedditStoriesPipeline.liftM, RedditStoriesPipeline.liftR,
    RedditStoriesPipeline.update, RedditStoriesPipeline.retP in Hrun.
  pose proof (generate_all_audio_effects alib script audio_dir) as Ha. unfold effects in Ha.
  destruct (generate_all_audio alib script audio_dir) as [[e0 | [| seg segs]] t1];
    cbn [fst snd] in Hrun, Ha; subst t1.
  1,2: injection Hrun as <- <-; cbn; rewrite Hr; eauto.
  set (audio := seg :: segs) in *.
  assert (Hasm : forall cvs r0 t0,
             assemble_video lib va script audio video_path cvs = (r0, t0) ->
             match r0 with
             | inl _ => wrote_video t0 = false
             | inr b => b = true /\ wrote_video t0 = true
             end).
  { intros cvs [e0 | b] t0 H.
    - pose proof (assemble_video_raise_no_output lib va script audio video_path cvs e0) as Hno.
      rewrite H in Hno. exact (Hno eq_refl).
    - exact (assemble_video_true_wrote _ _ _ _ _ _ _ _ H). }
  destruct (RedditStoriesPipeline.enable_character env).
  - destruct (RedditStoriesPipeline.get_or_create_character env) as [e0 | []].
    { injection Hrun as <- <-. cbn. rewrite Hr. eauto. }
    pose proof (generate_all_commentary_videos_effects clib audio char_dir) as Hc.
    unfold effects in Hc.
    destruct (generate_all_commentary_videos clib audio char_dir) as [[e0 | cvs] t2];
      cbn [fst snd] in Hrun, Hc; subst t2.
    { injection Hrun as <- <-. cbn. rewrite Hr. eauto. }
    destruct (assemble_video lib va script audio video_path (Some cvs)) as [[e0 | b] t3]
      eqn:Hassemble; cbn [fst snd] in Hrun; specialize (Hasm _ _ _ Hassemble);
      cbv beta iota in Hasm.
    { injection Hrun as <- <-. cbn. rewrite Hr, Hasm. eauto. }
    destruct Hasm as [-> Hw]. cbn [andb] in Hrun.
    destruct upload;
      [destruct (RedditStoriesPipeline.upload_from_script env _ _) as [e | [id |]] |];
      destruct (RedditStoriesPipeline._cleanup_temp env) as [e2 | []];
      injection Hrun as <- <-; cbn; wrote_known Hw; eauto.
  - destruct (assemble_video lib va script audio video_path None) as [[e0 | b] t3]
      eqn:Hassemble; cbn [fst snd] in Hrun; specialize (Hasm _ _ _ Hassemble);
      cbv beta iota in Hasm.
    { injection Hrun as <- <-. cbn. rewrite Hr, Hasm. eauto. }
    destruct Hasm as [-> Hw]. cbn [andb] in Hrun.
    destruct upload;
      [destruct (RedditStoriesPipeline.upload_from_script env _ _) as [e | [id |]] |];
      destruct (RedditStoriesPipeline._cleanup_temp env) as [e2 | []];
      injection Hrun as <- <-; cbn; wrote_known Hw; eauto.
Qed.

Lemma X19_single_story_success_iff_exported_witness :
  let run :=
    RedditStoriesPipeline.process_single_story StageExamples.env_ok StageExamples.alib_ok
      StageExamples.clib_ok Examples.lib_ok Examples.assembler_plain false Examples.script3
      "audio" "chars" "out.mp4" StageExamples.results0 in
  RedditStoriesPipeline.success (fst run) = true
  /\ RedditStoriesPipeline.video_path (fst run) = Some "out.mp4"%string.
Proof.
  intros run.
  eassert (Hrun : run = (_, _)) by (vm_compute; reflexivity).
  pose proof (X19_single_story_success_iff_exported StageExamples.env_ok StageExamples.alib_ok
                StageExamples.clib_ok Examples.lib_ok Examples.assembler_plain false
                Examples.script3 "audio" "chars" "out.mp4"
                StageExamples.results0 _ _ eq_refl Hrun) as (Hsuccess & Hend).
  rewrite Hrun. cbn [fst]. split; [reflexivity |].
  cbn [wrote_video existsb is_write orb] in Hend. exact (proj1 Hend).
Defined.
